(** * A market-making and delta-hedging engine: model and properties

    Shallow embedding of [algo.py].  The module reads market data, positions
    and outstanding orders from an exchange client and answers with order
    actions.  The embedding keeps the functions and the names of the source:

    - Python [int] is [Z]; Python [float] is an exact rational [Q] in the main
      development (prices, deltas, deviations: no rounding error, no
      infinity, no nan), and a binary64 number in [Module Binary64], which
      re-runs the two tick computations bit for bit;
    - a Python exception is a value of [exn], a loop that polls the exchange
      takes fuel, and running out of fuel is the outcome [Spinning];
    - the exchange is an oracle indexed by a call counter, so that any two
      reads may see different snapshots; the orders sent are logged in the
      world. *)

From Stdlib Require Import ZArith QArith Qround Qabs Lia Lqa Bool List.
From Stdlib Require Floats.
From stdpp Require Import gmap strings.
Import ListNotations.

Local Open Scope string_scope.
Local Open Scope Z_scope.

(* ===================================================================== *)
(** ** Python numbers *)
(* ===================================================================== *)

(** [math.floor] and [math.ceil] on a float give an [int]. *)
Definition floor (x : Q) : Z := Qfloor x.
Definition ceil (x : Q) : Z := Qceiling x.

(** [round(x)] with one argument: the nearest [int], a tie going to the even
    neighbour. *)
Definition round (x : Q) : Z :=
  let f := Qfloor x in
  match Qcompare (x - inject_Z f) (1 # 2) with
  | Lt => f
  | Gt => f + 1
  | Eq => if Z.even f then f else f + 1
  end.

(** [x % y] on floats, for a divisor that is not zero: the remainder has the
    sign of the divisor, [x - floor(x / y) * y]. *)
Definition float_mod (x y : Q) : Q := (x - inject_Z (Qfloor (x / y)) * y)%Q.

(** [>] and [<] on floats; [==] is [Qeq_bool]. *)
Definition Qgtb (x y : Q) : bool := negb (Qle_bool x y).
Definition Qltb (x y : Q) : bool := negb (Qle_bool y x).

(** [min(x, y)]: the first argument unless the second is smaller. *)
Definition float_min (x y : Q) : Q := if Qltb y x then y else x.

(* ===================================================================== *)
(** ** Exceptions and outcomes *)
(* ===================================================================== *)

(** The exceptions the module can meet.  [Exception] is the one [raise]
    statement of the source (in [calculate_option_delta]); the others are
    raised by the interpreter. *)
Inductive exn : Type :=
  | ZeroDivisionError
  | UnboundLocalError (name : string)
  | KeyError (key : string)
  | IndexError
  | AttributeError
  | Exception (msg : string).

Inductive result (A : Type) : Type :=
  | Return (a : A)
  | Raise (e : exn)
  | Spinning.
Arguments Return {A} a.
Arguments Raise {A} e.
Arguments Spinning {A}.

Definition result_bind {A B} (r : result A) (k : A -> result B) : result B :=
  match r with
  | Return a => k a
  | Raise e => Raise e
  | Spinning => Spinning
  end.

(** Reading a local variable that may not have been assigned yet. *)
Definition local {A} (name : string) (v : option A) : result A :=
  match v with
  | Some a => Return a
  | None => Raise (UnboundLocalError name)
  end.

(** [d[key]] on a dictionary keyed by instrument id. *)
Definition subscript {A} (d : gmap string A) (key : string) : result A :=
  match d !! key with
  | Some a => Return a
  | None => Raise (KeyError key)
  end.

(** Float division. *)
Definition divide (x y : Q) : result Q :=
  if Qeq_bool y 0 then Raise ZeroDivisionError else Return (x / y)%Q.

(* ===================================================================== *)
(** ** Data model (optibook.common_types) *)
(* ===================================================================== *)

Inductive Side : Type := bid | ask.

Definition Side_eqb (a b : Side) : bool :=
  match a, b with
  | bid, bid | ask, ask => true
  | _, _ => false
  end.

Inductive OrderType : Type := limit | ioc.

Inductive InstrumentType : Type :=
  | STOCK
  | STOCK_OPTION
  | STOCK_FUTURE
  | OTHER_INSTRUMENT.

(** The value found in an [option_kind] argument: one of the two members of
    [OptionKind], or anything else (an instrument that is not an option
    carries [None]), kept with its printed form. *)
Inductive OptionKind : Type :=
  | CALL
  | PUT
  | NotAKind (repr : string).

Record Instrument : Type := {
  instrument_id : string;
  instrument_type : InstrumentType;
  base_instrument_id : string;
  expiry : Z;
  strike : Q;
  option_kind : OptionKind
}.

Record PriceVolume : Type := { pv_price : Q; pv_volume : Z }.

Record PriceBook : Type := { bids : list PriceVolume; asks : list PriceVolume }.

Record OrderStatus : Type := {
  order_id : Z;
  side : Side;
  price : Q;
  volume : Z
}.

Record TradeTick : Type := {
  timestamp : Z;
  tick_price : Q;
  tick_volume : Z;
  aggressor_side : Side
}.

(** What the module asks the exchange to do. *)
Inductive Action : Type :=
  | insert_order_ (instrument : string) (p : Q) (v : Z) (s : Side) (t : OrderType)
  | amend_order_ (instrument : string) (id : option Z) (v : Z)
  | delete_order_ (instrument : string) (id : Z).

(* ===================================================================== *)
(** ** The exchange client and the imported libraries *)
(* ===================================================================== *)

(** The exchange answers a read with the snapshot of the moment; the moment
    is the number of calls made so far. *)
Record Exchange : Type := {
  instruments_at : nat -> gmap string Instrument;
  book_at : nat -> string -> option PriceBook;
  positions_at : nat -> gmap string Z;
  outstanding_at : nat -> string -> list (Z * OrderStatus);
  history_at : nat -> string -> list TradeTick
}.

(** The functions imported from [black_scholes], [libs] and [math]. *)
Record Libs : Type := {
  call_value : Q -> Q -> Q -> Q -> Q -> Q;
  put_value : Q -> Q -> Q -> Q -> Q -> Q;
  call_delta : Q -> Q -> Q -> Q -> Q -> Q;
  put_delta : Q -> Q -> Q -> Q -> Q -> Q;
  calculate_current_time_to_date : Z -> Q;
  sqrt : Q -> Q;
  exp : Q -> Q
}.

Record World : Type := { clock : nat; sent : list Action }.

Definition M (A : Type) : Type := World -> result A * World.

Definition ret {A} (a : A) : M A := fun w => (Return a, w).

Definition bind {A B} (m : M A) (k : A -> M B) : M B :=
  fun w =>
    match m w with
    | (Return a, w') => k a w'
    | (Raise e, w') => (Raise e, w')
    | (Spinning, w') => (Spinning, w')
    end.

Definition lift {A} (r : result A) : M A := fun w => (r, w).

Declare Scope py_scope.
Delimit Scope py_scope with py.
Notation "x <- m ;; k" := (bind m (fun x => k))
  (at level 100, m at next level, right associativity) : py_scope.
Notation "m ;;; k" := (bind m (fun _ => k))
  (at level 100, right associativity) : py_scope.
Local Open Scope py_scope.

(** A [for] loop whose body updates the local variables [s]. *)
Fixpoint for_loop {A S} (body : S -> A -> M S) (l : list A) (s : S) : M S :=
  match l with
  | [] => ret s
  | x :: rest => s' <- body s x ;; for_loop body rest s'
  end.

Definition for_each {A} (l : list A) (body : A -> M unit) : M unit :=
  for_loop (fun _ x => body x) l tt.

Definition tick (w : World) : World := {| clock := S (clock w); sent := sent w |}.

Definition emit (a : Action) : M unit :=
  fun w => (Return tt, {| clock := S (clock w); sent := sent w ++ [a] |}).

Section Engine.

Context (lib : Libs) (exchange : Exchange).

(** *** The calls of the exchange client *)

Definition get_instruments : M (gmap string Instrument) :=
  fun w => (Return (instruments_at exchange (clock w)), tick w).

Definition get_last_price_book (id : string) : M (option PriceBook) :=
  fun w => (Return (book_at exchange (clock w) id), tick w).

Definition get_positions : M (gmap string Z) :=
  fun w => (Return (positions_at exchange (clock w)), tick w).

Definition get_outstanding_orders (id : string) : M (list (Z * OrderStatus)) :=
  fun w => (Return (outstanding_at exchange (clock w) id), tick w).

Definition get_trade_tick_history (id : string) : M (list TradeTick) :=
  fun w => (Return (history_at exchange (clock w) id), tick w).

Definition insert_order (id : string) (p : Q) (v : Z) (s : Side) (t : OrderType) : M unit :=
  emit (insert_order_ id p v s t).

Definition amend_order (id : string) (oid : option Z) (v : Z) : M unit :=
  emit (amend_order_ id oid v).

Definition delete_order (id : string) (oid : Z) : M unit :=
  emit (delete_order_ id oid).

(* ===================================================================== *)
(** ** TickRounder *)
(* ===================================================================== *)

(** The two rounding functions, in exact arithmetic: the quotient, its floor
    or ceiling and the product carry no rounding error here.  On binary64
    the quotient and the product are rounded, and the result can lie an ulp
    beyond the price or a whole tick away from the exact one; [Module Binary64]
    has the bit-for-bit versions and [Binary64_facts] such inputs. *)
Definition round_down_to_tick (price tick_size : Q) : result Q :=
  result_bind (divide price tick_size) (fun q =>
  Return (inject_Z (floor q) * tick_size)%Q).

Definition round_up_to_tick (price tick_size : Q) : result Q :=
  result_bind (divide price tick_size) (fun q =>
  Return (inject_Z (ceil q) * tick_size)%Q).

(* ===================================================================== *)
(** ** ValuationEngine *)
(* ===================================================================== *)

(** No [else] branch: with another kind, [option_value] is read before it is
    assigned. *)
Definition calculate_theoretical_option_value
    (expiry : Z) (strike : Q) (option_kind : OptionKind)
    (stock_value interest_rate volatility : Q) : result Q :=
  let time_to_expiry := calculate_current_time_to_date lib expiry in
  let option_value :=
    match option_kind with
    | CALL => Some (call_value lib stock_value strike time_to_expiry interest_rate volatility)
    | PUT => Some (put_value lib stock_value strike time_to_expiry interest_rate volatility)
    | NotAKind _ => None
    end in
  local "option_value" option_value.

Definition unexpected_kind (repr : string) : string :=
  "Got unexpected value for option_kind argument, should be OptionKind.CALL or OptionKind.PUT but was "
  ++ repr ++ ".".

Definition calculate_option_delta
    (expiry_date : Z) (strike : Q) (option_kind : OptionKind)
    (stock_value interest_rate volatility : Q) : result Q :=
  let time_to_expiry := calculate_current_time_to_date lib expiry_date in
  match option_kind with
  | CALL => Return (call_delta lib stock_value strike time_to_expiry interest_rate volatility)
  | PUT => Return (put_delta lib stock_value strike time_to_expiry interest_rate volatility)
  | NotAKind repr => Raise (Exception (unexpected_kind repr))
  end.

(* ===================================================================== *)
(** ** QuoteSubmitter: [update_quotes] *)
(* ===================================================================== *)

Definition same_order (id : Z) (outstanding : option Z) : bool :=
  match outstanding with
  | Some o => Z.eqb id o
  | None => false
  end.

Definition update_quotes
    (instrument_id : string) (theoretical_price credit : Q)
    (optimal_ask_volume optimal_bid_volume position_limit : Z) (tick_size : Q)
    (update_ask_price : bool) (ask_order_id : option Z)
    (update_bid_price : bool) (bid_order_id : option Z)
    (update_ask_volume update_bid_volume : bool) : M unit :=
  let outstanding_ask_id := ask_order_id in
  let outstanding_bid_id := bid_order_id in
  (* Pull the orders whose price is about to change. *)
  orders <- get_outstanding_orders instrument_id ;;
  for_each orders (fun entry =>
    let '(key, order) := entry in
    if (update_ask_price && same_order (order_id order) outstanding_ask_id)
       || (update_bid_price && same_order (order_id order) outstanding_bid_id)
    then delete_order instrument_id key
    else ret tt) ;;;
  bid_price <- lift (round_down_to_tick (theoretical_price - credit) tick_size) ;;
  ask_price <- lift (round_up_to_tick (theoretical_price + credit) tick_size) ;;
  positions <- get_positions ;;
  position <- lift (subscript positions instrument_id) ;;
  let max_volume_to_buy := position_limit - position in
  let max_volume_to_sell := position_limit + position in
  let bid_volume := Z.min optimal_bid_volume max_volume_to_buy in
  let ask_volume := Z.min optimal_ask_volume max_volume_to_sell in
  (if (bid_volume >? 0) && update_bid_price then
     insert_order instrument_id bid_price bid_volume bid limit
   else if (bid_volume >? 0) && negb update_bid_price && update_bid_volume then
     amend_order instrument_id outstanding_bid_id bid_volume
   else ret tt) ;;;
  (if (ask_volume >? 0) && update_ask_price then
     insert_order instrument_id ask_price ask_volume ask limit
   else if (ask_volume >? 0) && negb update_ask_price && update_ask_volume then
     amend_order instrument_id outstanding_ask_id ask_volume
   else ret tt).

(* ===================================================================== *)
(** ** HedgeEngine: [hedge_delta_position] *)
(* ===================================================================== *)

(** The local variables the two loops of the NVDA branch work on.
    [positions] is assigned inside the loop over the options and nowhere
    else in that branch. *)
Definition hedge_locals : Type := (Q * option (gmap string Z))%type.

(** Body of the loop over the options.  The dictionary [options_deltas] is
    written and read back in the same iteration only, so the delta is kept in
    a variable. *)
Definition hedge_option (stock_value : Q) (st : hedge_locals)
    (entry : string * Instrument) : M hedge_locals :=
  let '(aggregate_position_delta, _) := st in
  let '(option_id, opt) := entry in
  positions <- get_positions ;;
  delta <- lift (calculate_option_delta (expiry opt) (strike opt) (option_kind opt)
                   stock_value (3 # 100) 3) ;;
  position <- lift (subscript positions option_id) ;;
  ret ((aggregate_position_delta + delta * inject_Z position)%Q, Some positions).

(** Body of the loop over the futures. *)
Definition hedge_future (st : hedge_locals) (entry : string * Instrument) : M hedge_locals :=
  let '(aggregate_position_delta, positions_var) := st in
  let '(future_id, _) := entry in
  positions <- lift (local "positions" positions_var) ;;
  position <- lift (subscript positions future_id) ;;
  ret ((aggregate_position_delta + inject_Z position)%Q, positions_var).

(** The aggregate delta of the NVDA branch, with the stock position read on
    the way. *)
Definition aggregate_NVDA (stock_id : string) (options futures : list (string * Instrument))
    (stock_value : Q) : M (Q * Z) :=
  st <- for_loop (hedge_option stock_value) options (0%Q, None) ;;
  st <- for_loop hedge_future futures st ;;
  let '(aggregate_position_delta, positions_var) := st in
  positions <- lift (local "positions" positions_var) ;;
  stock_position <- lift (subscript positions stock_id) ;;
  let aggregate_position_delta := (aggregate_position_delta + inject_Z stock_position)%Q in
  positions <- lift (local "positions" positions_var) ;;
  stock_dual_position <- lift (subscript positions "NVDA_DUAL") ;;
  let aggregate_position_delta := (aggregate_position_delta + inject_Z stock_dual_position)%Q in
  ret (aggregate_position_delta, stock_position).

(** The aggregate of the SAN branch is an [int]; it is carried as the
    rational of the same value. *)
Definition aggregate_SAN (stock_id : string) : M (Q * Z) :=
  positions <- get_positions ;;
  let aggregate_position_delta := 0 in
  stock_position <- lift (subscript positions stock_id) ;;
  let aggregate_position_delta := aggregate_position_delta + stock_position in
  stock_dual_position <- lift (subscript positions "SAN_DUAL") ;;
  let aggregate_position_delta := aggregate_position_delta + stock_dual_position in
  ret (inject_Z aggregate_position_delta, stock_position).

(** An attribute of a book the exchange did not deliver. *)
Definition attributes (book : option PriceBook) : result PriceBook :=
  match book with
  | Some b => Return b
  | None => Raise AttributeError
  end.

Definition is_empty {A} (l : list A) : bool :=
  match l with
  | [] => true
  | _ => false
  end.

(** [l[0]]. *)
Definition first_item {A} (l : list A) : result A :=
  match l with
  | x :: _ => Return x
  | [] => Raise IndexError
  end.

(** The [while] loop that polls the book again as long as one side is empty.
    [fuel] bounds the number of further polls. *)
Fixpoint await_two_sided (fuel : nat) (id : string)
    (underlying_order_book : option PriceBook) : M PriceBook :=
  book <- lift (attributes underlying_order_book) ;;
  if is_empty (bids book) || is_empty (asks book) then
    match fuel with
    | O => lift Spinning
    | S fuel' =>
        underlying_order_book <- get_last_price_book id ;;
        await_two_sided fuel' id underlying_order_book
    end
  else ret book.

(** The end of both branches: size both sides against the position limit
    of 100 and trade when the aggregate is beyond the threshold. *)
Definition place_hedge (id : string) (threshold : Q)
    (aggregate_position_delta : Q) (stock_position : Z)
    (underlying_order_book : PriceBook) : M unit :=
  let max_volume_to_buy := 100 - stock_position in
  let max_volume_to_sell := 100 + stock_position in
  let bid_volume := Z.min (Z.abs (round aggregate_position_delta)) max_volume_to_buy in
  let ask_volume := Z.min (Z.abs (round aggregate_position_delta)) max_volume_to_sell in
  if Qgtb aggregate_position_delta threshold && (ask_volume >? 0) then
    best <- lift (first_item (bids underlying_order_book)) ;;
    insert_order id (pv_price best) ask_volume ask ioc
  else if Qltb aggregate_position_delta (- threshold) && (bid_volume >? 0) then
    best <- lift (first_item (asks underlying_order_book)) ;;
    insert_order id (pv_price best) bid_volume bid ioc
  else ret tt.

(** What both branches do once the aggregate is known: poll the book until
    it has two sides, then hedge against it. *)
Definition hedge_underlying (fuel : nat) (id : string) (threshold : Q)
    (aggregate_position_delta : Q) (stock_position : Z) : M unit :=
  underlying_order_book <- get_last_price_book id ;;
  underlying_order_book <- await_two_sided fuel id underlying_order_book ;;
  place_hedge id threshold aggregate_position_delta stock_position underlying_order_book.

Definition hedge_delta_position (fuel : nat) (stock_id : string)
    (options futures : list (string * Instrument)) (stock_value : Q) : M unit :=
  if String.eqb stock_id "NVDA" then
    r <- aggregate_NVDA stock_id options futures stock_value ;;
    hedge_underlying fuel "NVDA" 35 (fst r) (snd r)
  else if String.eqb stock_id "SAN" then
    r <- aggregate_SAN stock_id ;;
    hedge_underlying fuel "SAN" 1 (fst r) (snd r)
  else ret tt.

(* ===================================================================== *)
(** ** DeviationEstimator: [get_quantified_data] *)
(* ===================================================================== *)

(** One underlying trade after the first, in the scan for the trade nearest
    in time: the locals are [minimum] and [traded_price_underlying].  The
    comparison is against the absolute difference; the assignment stores the
    signed one. *)
Definition nearest_step (timestamp_instrument : Z) (st : Z * Q) (line : TradeTick) : Z * Q :=
  let '(minimum, traded_price_underlying) := st in
  if minimum >? Z.abs (timestamp_instrument - timestamp line)
  then (timestamp_instrument - timestamp line, tick_price line)
  else (minimum, traded_price_underlying).

(** The inner loop.  [first_loop] is true for the first underlying trade
    only, which initialises both locals; with no underlying trade the locals
    keep what they had. *)
Definition nearest_scan (timestamp_instrument : Z) (data_underlying : list TradeTick)
    (st : option (Z * Q)) : option (Z * Q) :=
  match data_underlying with
  | [] => st
  | line :: rest =>
      Some (fold_left (nearest_step timestamp_instrument) rest
              (Z.abs (timestamp_instrument - timestamp line), tick_price line))
  end.

Record deviation_locals : Type := {
  total_ask_volume : Z;
  total_bid_volume : Z;
  aggregate_squared_deviation : Q;
  nearest : option (Z * Q)
}.

(** The theoretical value of the instrument at an underlying price.  The
    instrument is the same in every iteration, so with a type that no branch
    covers [theoretical_value] has never been assigned. *)
Definition implied_value (instrument : Instrument) (traded_price_underlying : option Q)
    : result Q :=
  match instrument_type instrument with
  | STOCK_OPTION =>
      result_bind (local "traded_price_underlying" traded_price_underlying) (fun p =>
      calculate_theoretical_option_value (expiry instrument) (strike instrument)
        (option_kind instrument) p (3 # 100) 3)
  | STOCK_FUTURE =>
      result_bind (local "traded_price_underlying" traded_price_underlying) (fun p =>
      Return (p * exp lib ((3 # 100) * calculate_current_time_to_date lib (expiry instrument)))%Q)
  | STOCK => local "traded_price_underlying" traded_price_underlying
  | OTHER_INSTRUMENT => Raise (UnboundLocalError "theoretical_value")
  end.

(** Body of the loop over the instrument's trades.  The two branches of the
    source differ in the volume total they add to, and in nothing else. *)
Definition deviation_step (instrument : Instrument) (data_underlying : list TradeTick)
    (st : deviation_locals) (line : TradeTick) : result deviation_locals :=
  let total_bid_volume' :=
    if Side_eqb (aggressor_side line) bid
    then total_bid_volume st + tick_volume line else total_bid_volume st in
  let total_ask_volume' :=
    if Side_eqb (aggressor_side line) bid
    then total_ask_volume st else total_ask_volume st + tick_volume line in
  let traded_price_instrument := tick_price line in
  let timestamp_instrument := timestamp line in
  let nearest' := nearest_scan timestamp_instrument data_underlying (nearest st) in
  result_bind (implied_value instrument (option_map snd nearest')) (fun theoretical_value =>
  Return {| total_ask_volume := total_ask_volume';
            total_bid_volume := total_bid_volume';
            aggregate_squared_deviation :=
              (aggregate_squared_deviation st
               + (theoretical_value - traded_price_instrument) ^ 2)%Q;
            nearest := nearest' |}).

Fixpoint deviation_loop (instrument : Instrument) (data_underlying data_instrument : list TradeTick)
    (st : deviation_locals) : result deviation_locals :=
  match data_instrument with
  | [] => Return st
  | line :: rest =>
      result_bind (deviation_step instrument data_underlying st line)
        (deviation_loop instrument data_underlying rest)
  end.

(** The histories the estimate is made from: for a stock, the dual listing
    is the instrument and the stock itself the underlying. *)
Definition quantified_histories (underlying : string) (instrument : Instrument)
    : M (Instrument * list TradeTick * list TradeTick) :=
  match instrument_type instrument with
  | STOCK =>
      if String.eqb underlying "NVDA" then
        all_instruments <- get_instruments ;;
        instrument <- lift (subscript all_instruments "NVDA_DUAL") ;;
        data_instrument <- get_trade_tick_history (instrument_id instrument) ;;
        data_underlying <- get_trade_tick_history "NVDA" ;;
        ret (instrument, data_instrument, data_underlying)
      else
        all_instruments <- get_instruments ;;
        instrument <- lift (subscript all_instruments "SAN_DUAL") ;;
        data_instrument <- get_trade_tick_history (instrument_id instrument) ;;
        data_underlying <- get_trade_tick_history "SAN" ;;
        ret (instrument, data_instrument, data_underlying)
  | _ =>
      data_instrument <- get_trade_tick_history (instrument_id instrument) ;;
      data_underlying <- get_trade_tick_history underlying ;;
      ret (instrument, data_instrument, data_underlying)
  end.

Definition len {A} (l : list A) : Q := inject_Z (Z.of_nat (length l)).

Definition get_quantified_data (underlying : string) (instrument : Instrument)
    : M (Q * Q * Q) :=
  h <- quantified_histories underlying instrument ;;
  let '(instrument, data_instrument, data_underlying) := h in
  st <- lift (deviation_loop instrument data_underlying data_instrument
                {| total_ask_volume := 0; total_bid_volume := 0;
                   aggregate_squared_deviation := 0; nearest := None |}) ;;
  average_squared_deviation <-
    lift (divide (aggregate_squared_deviation st) (len data_instrument)) ;;
  average_volume_ask <-
    lift (divide (inject_Z (total_ask_volume st)) (len data_instrument)) ;;
  average_volume_bid <-
    lift (divide (inject_Z (total_bid_volume st)) (len data_instrument)) ;;
  ret (average_squared_deviation, average_volume_ask, average_volume_bid).

(* ===================================================================== *)
(** ** OrderReconciler: [operational_optimazation] *)
(* ===================================================================== *)

(** The list the function returns, by position. *)
Record reconciliation : Type := {
  optimal_ask_volume : Z;
  optimal_bid_volume : Z;
  update_ask_price : bool;
  update_bid_price : bool;
  ask_order_id : option Z;
  bid_order_id : option Z;
  update_ask_volume : bool;
  update_bid_volume : bool;
  positions : gmap string Z
}.

(** First loop: the price of the resting order of each side, the later order
    winning; every order that is not an ask counts as a bid. *)
Definition existing_prices (outstanding_orders : list OrderStatus) : option Q * option Q :=
  fold_left (fun st order =>
    let '(existing_ask_price, existing_bid_price) := st in
    if Side_eqb (side order) ask
    then (Some (price order), existing_bid_price)
    else (existing_ask_price, Some (price order)))
    outstanding_orders (None, None).

(** Second loop: the ids of the resting orders, and the flags an order
    switches off.  The locals are [update_ask_price], [update_bid_price],
    [ask_order_id], [bid_order_id], [update_ask_volume], [update_bid_volume]. *)
Definition order_locals : Type := (bool * bool * option Z * option Z * bool * bool)%type.

Definition match_order (new_bid_price new_ask_price : Q)
    (optimal_ask_volume optimal_bid_volume : Z)
    (st : order_locals) (order : OrderStatus) : order_locals :=
  let '(update_ask_price, update_bid_price, ask_order_id, bid_order_id,
        update_ask_volume, update_bid_volume) := st in
  let '(update_ask_price, ask_order_id, update_ask_volume) :=
    if Side_eqb (side order) ask then
      (if Qeq_bool (price order) new_ask_price then false else update_ask_price,
       Some (order_id order),
       if Z.eqb (volume order) optimal_ask_volume then false else update_ask_volume)
    else (update_ask_price, ask_order_id, update_ask_volume) in
  let '(update_bid_price, bid_order_id, update_bid_volume) :=
    if Side_eqb (side order) bid then
      (if Qeq_bool (price order) new_bid_price then false else update_bid_price,
       Some (order_id order),
       if Z.eqb (volume order) optimal_bid_volume then false else update_bid_volume)
    else (update_bid_price, bid_order_id, update_bid_volume) in
  (update_ask_price, update_bid_price, ask_order_id, bid_order_id,
   update_ask_volume, update_bid_volume).

Definition operational_optimazation (instrument_id : string)
    (outstanding_orders : list OrderStatus) (suggested_volume : Z)
    (new_bid_price new_ask_price : Q) : M reconciliation :=
  let '(existing_ask_price, existing_bid_price) := existing_prices outstanding_orders in
  positions <- get_positions ;;
  inventory_instrument_id <- lift (subscript positions instrument_id) ;;
  let optimal_ask_volume :=
    if inventory_instrument_id >? 0
    then suggested_volume + inventory_instrument_id else suggested_volume in
  let optimal_bid_volume :=
    if inventory_instrument_id >? 0 then suggested_volume
    else if inventory_instrument_id <? 0
         then suggested_volume + Z.abs inventory_instrument_id else suggested_volume in
  let '(update_ask_price, update_bid_price, ask_order_id, bid_order_id,
        update_ask_volume, update_bid_volume) :=
    fold_left (match_order new_bid_price new_ask_price optimal_ask_volume optimal_bid_volume)
      outstanding_orders (true, true, None, None, true, true) in
  (* check if new prices would lead to a self-trade scenario *)
  flags <-
    (if update_ask_price && negb update_bid_price then
       existing_bid_price <- lift (local "existing_bid_price" existing_bid_price) ;;
       ret (if Qeq_bool new_ask_price existing_bid_price then false else update_ask_price,
            update_bid_price)
     else if update_bid_price && negb update_ask_price then
       existing_ask_price <- lift (local "existing_ask_price" existing_ask_price) ;;
       ret (update_ask_price,
            if Qeq_bool new_bid_price existing_ask_price then false else update_bid_price)
     else ret (update_ask_price, update_bid_price)) ;;
  ret {| optimal_ask_volume := optimal_ask_volume;
         optimal_bid_volume := optimal_bid_volume;
         update_ask_price := fst flags;
         update_bid_price := snd flags;
         ask_order_id := ask_order_id;
         bid_order_id := bid_order_id;
         update_ask_volume := update_ask_volume;
         update_bid_volume := update_bid_volume;
         positions := positions |}.

(* ===================================================================== *)
(** ** QuoteSizer: [run_market_making_strategy_for_options] *)
(* ===================================================================== *)

(** The credit: [sqrt(d) - (sqrt(d) % 0.1)], in exact arithmetic.  On
    binary64 the remainder of a square root that lies on the grid is just
    below a tick and the credit a tick lower (0.9 at [d = 1], where this
    definition gives 1): see [Binary64.optimal_credit]. *)
Definition optimal_credit (average_squared_deviation : Q) : Q :=
  (sqrt lib average_squared_deviation
   - float_mod (sqrt lib average_squared_deviation) (1 # 10))%Q.

(** The volume at the top of one side of the book, 0 for an empty side. *)
Definition current_volume (levels : list PriceVolume) : Z :=
  match levels with
  | best :: _ => pv_volume best
  | [] => 0
  end.

Definition run_market_making_strategy_for_options (option_id : string)
    (opt : Instrument) (stock_value : Q) : M unit :=
  theoretical_price <-
    lift (calculate_theoretical_option_value (expiry opt) (strike opt) (option_kind opt)
            stock_value (3 # 100) 3) ;;
  q <- get_quantified_data "NVDA" opt ;;
  let '(average_squared_deviation, average_volume_ask, average_volume_bid) := q in
  let average_traded_volume := round (float_min average_volume_ask average_volume_bid) in
  current_order_book <- get_last_price_book option_id ;;
  current_order_book <- lift (attributes current_order_book) ;;
  let current_bid_volume := current_volume (bids current_order_book) in
  let current_ask_volume := current_volume (asks current_order_book) in
  let excess_volume := Z.min current_ask_volume current_bid_volume - average_traded_volume in
  let optimal_volume :=
    if excess_volume >? 0
    then round (inject_Z average_traded_volume + (15 # 100) * inject_Z excess_volume)
    else average_traded_volume in
  let optimal_volume := if optimal_volume >? 45 then 45 else optimal_volume in
  let optimal_credit := optimal_credit average_squared_deviation in
  new_bid_price <- lift (round_down_to_tick (theoretical_price - optimal_credit) (1 # 10)) ;;
  new_ask_price <- lift (round_up_to_tick (theoretical_price + optimal_credit) (1 # 10)) ;;
  positions <- get_positions ;;
  instrument_position <- lift (subscript positions option_id) ;;
  (* emergency situations *)
  new_prices <-
    (if instrument_position >? 65 then
       b <- lift (round_down_to_tick (theoretical_price - (3 # 2) * optimal_credit) (1 # 10)) ;;
       a <- lift (round_up_to_tick (theoretical_price + (1 # 2) * optimal_credit) (1 # 10)) ;;
       ret (b, a)
     else if instrument_position <? -65 then
       b <- lift (round_down_to_tick (theoretical_price - (1 # 2) * optimal_credit) (1 # 10)) ;;
       a <- lift (round_up_to_tick (theoretical_price + (3 # 2) * optimal_credit) (1 # 10)) ;;
       ret (b, a)
     else ret (new_bid_price, new_ask_price)) ;;
  let '(new_bid_price, new_ask_price) := new_prices in
  orders <- get_outstanding_orders option_id ;;
  let outstanding_orders := map snd orders in
  arguments <- operational_optimazation option_id outstanding_orders optimal_volume
                 new_bid_price new_ask_price ;;
  update_quotes option_id theoretical_price optimal_credit
    (optimal_ask_volume arguments) (optimal_bid_volume arguments) 100 (1 # 10)
    (update_ask_price arguments) (ask_order_id arguments)
    (update_bid_price arguments) (bid_order_id arguments)
    (update_ask_volume arguments) (update_bid_volume arguments).

(** The lines the three strategies share, from the traded volume to the
    call of [update_quotes] (443-507 for the options, 517-588 for the
    futures, 596-664 for the dual listing): size the quote, price it around
    [theoretical_price], reconcile it with the resting orders and submit. *)
Definition quote_around (instrument_id : string) (theoretical_price : Q)
    (q : Q * Q * Q) : M unit :=
  let '(average_squared_deviation, average_volume_ask, average_volume_bid) := q in
  let average_traded_volume := round (float_min average_volume_ask average_volume_bid) in
  current_order_book <- get_last_price_book instrument_id ;;
  current_order_book <- lift (attributes current_order_book) ;;
  let current_bid_volume := current_volume (bids current_order_book) in
  let current_ask_volume := current_volume (asks current_order_book) in
  let excess_volume := Z.min current_ask_volume current_bid_volume - average_traded_volume in
  let optimal_volume :=
    if excess_volume >? 0
    then round (inject_Z average_traded_volume + (15 # 100) * inject_Z excess_volume)
    else average_traded_volume in
  let optimal_volume := if optimal_volume >? 45 then 45 else optimal_volume in
  let optimal_credit := optimal_credit average_squared_deviation in
  new_bid_price <- lift (round_down_to_tick (theoretical_price - optimal_credit) (1 # 10)) ;;
  new_ask_price <- lift (round_up_to_tick (theoretical_price + optimal_credit) (1 # 10)) ;;
  positions <- get_positions ;;
  instrument_position <- lift (subscript positions instrument_id) ;;
  (* emergency situations *)
  new_prices <-
    (if instrument_position >? 65 then
       b <- lift (round_down_to_tick (theoretical_price - (3 # 2) * optimal_credit) (1 # 10)) ;;
       a <- lift (round_up_to_tick (theoretical_price + (1 # 2) * optimal_credit) (1 # 10)) ;;
       ret (b, a)
     else if instrument_position <? -65 then
       b <- lift (round_down_to_tick (theoretical_price - (1 # 2) * optimal_credit) (1 # 10)) ;;
       a <- lift (round_up_to_tick (theoretical_price + (3 # 2) * optimal_credit) (1 # 10)) ;;
       ret (b, a)
     else ret (new_bid_price, new_ask_price)) ;;
  let '(new_bid_price, new_ask_price) := new_prices in
  orders <- get_outstanding_orders instrument_id ;;
  let outstanding_orders := map snd orders in
  arguments <- operational_optimazation instrument_id outstanding_orders optimal_volume
                 new_bid_price new_ask_price ;;
  update_quotes instrument_id theoretical_price optimal_credit
    (optimal_ask_volume arguments) (optimal_bid_volume arguments) 100 (1 # 10)
    (update_ask_price arguments) (ask_order_id arguments)
    (update_bid_price arguments) (bid_order_id arguments)
    (update_ask_volume arguments) (update_bid_volume arguments).

Definition run_market_making_strategy_for_futures (future_id : string)
    (future : Instrument) (stock_value : Q) : M unit :=
  let theoretical_price :=
    (stock_value
     * exp lib ((3 # 100) * calculate_current_time_to_date lib (expiry future)))%Q in
  q <- get_quantified_data "NVDA" future ;;
  quote_around future_id theoretical_price q.

Definition run_market_making_strategy_for_dual (stock_id : string)
    (instrument : Instrument) (stock_value : Q) : M unit :=
  let theoretical_price := stock_value in
  q <- get_quantified_data stock_id instrument ;;
  let stock_dual_id := if String.eqb stock_id "NVDA" then "NVDA_DUAL" else "SAN_DUAL" in
  quote_around stock_dual_id theoretical_price q.

(* ===================================================================== *)
(** ** [get_weighted_midpoint_value] and the trade loop *)
(* ===================================================================== *)

(** The quotient is exact here; on binary64 it is rounded, and can leave the
    interval of the two best prices by an ulp
    ([Binary64.weighted_midpoint]). *)
Definition get_weighted_midpoint_value (instrument_id : string) : M (option Q) :=
  order_book <- get_last_price_book instrument_id ;;
  match order_book with
  | Some book =>
      match bids book, asks book with
      | best_bid :: _, best_ask :: _ =>
          let total_best_volume := pv_volume best_ask + pv_volume best_bid in
          midpoint <-
            lift (divide (pv_price best_bid * inject_Z (pv_volume best_bid)
                          + pv_price best_ask * inject_Z (pv_volume best_ask))
                    (inject_Z total_best_volume)) ;;
          ret (Some midpoint)
      | _, _ => ret None
      end
  | None => ret None
  end.

(** The NVDA half of one pass of the trade loop (lines 687-696): the
    options, the futures, the dual listing, then the hedge. *)
Definition trade_NVDA (fuel : nat) (stock_NVDA : Instrument)
    (options futures : list (string * Instrument)) (stock_value : Q) : M unit :=
  for_each options (fun entry =>
    run_market_making_strategy_for_options (fst entry) (snd entry) stock_value) ;;;
  for_each futures (fun entry =>
    run_market_making_strategy_for_futures (fst entry) (snd entry) stock_value) ;;;
  run_market_making_strategy_for_dual "NVDA" stock_NVDA stock_value ;;;
  hedge_delta_position fuel "NVDA" options futures stock_value.

(** The SAN half (lines 705-707).  The hedge is called with [options == None]
    and [futures == None] for its two chains; the SAN branch reads neither,
    and they are passed as empty. *)
Definition trade_SAN (fuel : nat) (stock_SAN : Instrument) (stock_value : Q) : M unit :=
  run_market_making_strategy_for_dual "SAN" stock_SAN stock_value ;;;
  hedge_delta_position fuel "SAN" [] [] stock_value.

(** One pass of the [while True] loop (lines 674-711), pauses and prints
    left out.  [continue] ends the pass. *)
Definition trade_loop_iteration (fuel : nat) (stock_NVDA stock_SAN : Instrument)
    (options futures : list (string * Instrument)) : M unit :=
  stock_value <- get_weighted_midpoint_value "NVDA" ;;
  match stock_value with
  | None => ret tt
  | Some stock_value =>
      trade_NVDA fuel stock_NVDA options futures stock_value ;;;
      stock_value <- get_weighted_midpoint_value "SAN" ;;
      match stock_value with
      | None => ret tt
      | Some stock_value => trade_SAN fuel stock_SAN stock_value
      end
  end.

End Engine.

(* ===================================================================== *)
(** ** The tick computations on binary64 floats *)
(* ===================================================================== *)

(** The same two expressions as above, [round_down_to_tick] and the credit,
    on the floats Python computes with.  [/], [*], [-] and [sqrt] are the
    IEEE operations; [math.floor] and [%] are exact and are computed on the
    mantissa and exponent of their operands. *)
Module Binary64.

Import Floats.
Local Open Scope float_scope.

(** A finite float as [m * 2 ^ e]. *)
Definition to_dyadic (x : float) : option (Z * Z) :=
  match Prim2SF x with
  | S754_zero _ => Some (0, 0)%Z
  | S754_finite s m e => Some (if s then Z.neg m else Z.pos m, e)
  | _ => None
  end.

(** The float [m * 2 ^ e], for a mantissa below [2 ^ 53] in absolute value. *)
Definition of_dyadic (m e : Z) : float :=
  let f := Z.ldexp (of_uint63 (Uint63.of_Z (Z.abs m))) e in
  if (m <? 0)%Z then - f else f.

(** [math.floor]: an [int]; nothing for an infinity or a nan. *)
Definition floor (x : float) : option Z :=
  match to_dyadic x with
  | Some (m, e) => Some (if (0 <=? e)%Z then m * 2 ^ e else m / 2 ^ (- e))%Z
  | None => None
  end.

(** An [int] as a float, when the conversion is exact. *)
Definition of_int (n : Z) : option float :=
  if (Z.abs n <? 2 ^ 53)%Z then Some (of_dyadic n 0) else None.

(** C's [fmod] on finite operands: the exact remainder of the division
    truncated toward zero. *)
Definition fmod (x y : float) : float :=
  match to_dyadic x, to_dyadic y with
  | Some (mx, ex), Some (my, ey) =>
      if (my =? 0)%Z then nan else
      let e := Z.min ex ey in
      of_dyadic (Z.rem (mx * 2 ^ (ex - e)) (my * 2 ^ (ey - e))) e
  | _, _ => nan
  end.

(** [x % y] on floats: [fmod], moved to the sign of the divisor. *)
Definition float_mod (x y : float) : float :=
  let m := fmod x y in
  if PrimFloat.is_zero m then m
  else if Bool.eqb (y <? 0) (m <? 0) then m else m + y.

Definition round_down_to_tick (price tick_size : float) : option float :=
  match floor (price / tick_size) with
  | Some n =>
      match of_int n with
      | Some f => Some (f * tick_size)
      | None => None
      end
  | None => None
  end.

(** [math.ceil]. *)
Definition ceil (x : float) : option Z :=
  match floor (- x) with
  | Some n => Some (- n)%Z
  | None => None
  end.

Definition round_up_to_tick (price tick_size : float) : option float :=
  match ceil (price / tick_size) with
  | Some n =>
      match of_int n with
      | Some f => Some (f * tick_size)
      | None => None
      end
  | None => None
  end.

(** The float written [0.1]. *)
Definition tick : float := 0x1.999999999999ap-4.

(** The midpoint of [get_weighted_midpoint_value], for best volumes that do
    not add up to zero. *)
Definition weighted_midpoint (bid_price : float) (bid_volume : Z)
    (ask_price : float) (ask_volume : Z) : option float :=
  match of_int bid_volume, of_int ask_volume, of_int (ask_volume + bid_volume) with
  | Some vb, Some va, Some total =>
      if (ask_volume + bid_volume =? 0)%Z then None
      else Some ((bid_price * vb + ask_price * va) / total)
  | _, _, _ => None
  end.

Definition optimal_credit (average_squared_deviation : float) : float :=
  PrimFloat.sqrt average_squared_deviation
  - float_mod (PrimFloat.sqrt average_squared_deviation) tick.

End Binary64.

(* ===================================================================== *)
(** ** Notions the statements use *)
(* ===================================================================== *)

(** The nearest-neighbour match in the words of the specification: the
    underlying trade whose timestamp is closest to [ts] in absolute
    difference, the first one seen among the closest. *)
Definition nearer (ts : Z) (best line : TradeTick) : TradeTick :=
  if Z.abs (ts - timestamp line) <? Z.abs (ts - timestamp best) then line else best.

Definition nearest_first (ts : Z) (data_underlying : list TradeTick) : option TradeTick :=
  match data_underlying with
  | [] => None
  | line :: rest => Some (fold_left (nearer ts) rest line)
  end.

(** Trades in the order of their timestamps. *)
Fixpoint chronological (data : list TradeTick) : Prop :=
  match data with
  | [] => True
  | line :: rest =>
      (forall later, In later rest -> timestamp line <= timestamp later) /\ chronological rest
  end.

(** The price of the last order of a side in the list: the resting order of
    that side when there is one order a side. *)
Fixpoint resting_price (s : Side) (orders : list OrderStatus) : option Q :=
  match orders with
  | [] => None
  | order :: rest =>
      match resting_price s rest with
      | Some p => Some p
      | None => if Side_eqb (side order) s then Some (price order) else None
      end
  end.

(** Some order of side [s] rests at price [p]. *)
Definition quoted_at (s : Side) (p : Q) (orders : list OrderStatus) : bool :=
  existsb (fun order => Side_eqb (side order) s && Qeq_bool (price order) p) orders.

Definition is_insert_on (s : Side) (a : Action) : bool :=
  match a with
  | insert_order_ _ _ _ s' _ => Side_eqb s' s
  | _ => false
  end.

Definition is_delete (a : Action) : bool :=
  match a with
  | delete_order_ _ _ => true
  | _ => false
  end.

(** A book with an empty side. *)
Definition one_sided (book : PriceBook) : bool :=
  is_empty (bids book) || is_empty (asks book).

Definition one_sided_at (exchange : Exchange) (id : string) (t : nat) : Prop :=
  exists book, book_at exchange t id = Some book /\ one_sided book = true.

Definition two_sided_at (exchange : Exchange) (id : string) (t : nat)
    (book : PriceBook) : Prop :=
  book_at exchange t id = Some book /\ one_sided book = false.

(** The world after [actions] were sent and [reads] further calls made. *)
Definition after (w : World) (actions : list Action) (reads : nat) : World :=
  {| clock := clock w + reads + length actions; sent := (sent w ++ actions)%list |}.

(** The world [n] calls later, nothing sent in between. *)
Definition later (w : World) (n : nat) : World :=
  {| clock := clock w + n; sent := sent w |}.

(** A run that returns, having sent exactly [actions] since [w]. *)
Definition sends (run : result unit * World) (w : World) (actions : list Action) : Prop :=
  fst run = Return tt /\ sent (snd run) = (sent w ++ actions)%list.

(** The two branches of [hedge_delta_position], as one: the aggregate that
    was computed from [w], and the threshold it is held against. *)
Definition aggregated (lib : Libs) (exchange : Exchange) (stock_id : string) (threshold : Q)
    (options futures : list (string * Instrument)) (stock_value : Q)
    (w : World) (agg : Q) (sp : Z) (w1 : World) : Prop :=
  (stock_id = "NVDA" /\ threshold = 35%Q /\
   aggregate_NVDA lib exchange stock_id options futures stock_value w
   = (Return (agg, sp), w1))
  \/
  (stock_id = "SAN" /\ threshold = 1%Q /\
   aggregate_SAN exchange stock_id w = (Return (agg, sp), w1)).

(** The futures' positions, all read in one snapshot, added to [acc]. *)
Definition futures_total (snapshot : gmap string Z) (futures : list (string * Instrument))
    (acc : Q) : Q :=
  fold_left (fun a entry => (a + inject_Z (default 0%Z (snapshot !! fst entry)))%Q)
    futures acc.

(** The distance in time between a trade and [ts]. *)
Definition distance (ts : Z) (line : TradeTick) : Z := Z.abs (ts - timestamp line).

(** The deviation estimate in the words of the specification: for every
    trade of the instrument, the squared difference between its price and
    the value implied by the nearest underlying trade, added to [acc]. *)
Fixpoint total_squared_deviation (lib : Libs) (instrument : Instrument)
    (data_underlying data_instrument : list TradeTick) (acc : Q) : result Q :=
  match data_instrument with
  | [] => Return acc
  | line :: rest =>
      result_bind
        (implied_value lib instrument
           (option_map tick_price (nearest_first (timestamp line) data_underlying)))
        (fun theoretical_value =>
           total_squared_deviation lib instrument data_underlying rest
             (acc + (theoretical_value - tick_price line) ^ 2)%Q)
  end.

(** The volume traded with the aggressor on side [s]. *)
Definition aggressed_volume (s : Side) (data_instrument : list TradeTick) : Z :=
  fold_right (fun line acc =>
    if Side_eqb (aggressor_side line) s then tick_volume line + acc else acc)
    0 data_instrument.

(** The new price [p] is the price of the resting order of the other side. *)
Definition crosses (p : Q) (resting : option Q) : bool :=
  match resting with
  | Some q => Qeq_bool p q
  | None => false
  end.

(** The orders [update_quotes] pulls, and the deletions it sends for them. *)
Definition stale (update_ask_price : bool) (ask_order_id : option Z)
    (update_bid_price : bool) (bid_order_id : option Z) (entry : Z * OrderStatus) : bool :=
  (update_ask_price && same_order (order_id (snd entry)) ask_order_id)
  || (update_bid_price && same_order (order_id (snd entry)) bid_order_id).

Definition deletions (instrument_id : string) (update_ask_price : bool)
    (ask_order_id : option Z) (update_bid_price : bool) (bid_order_id : option Z)
    (orders : list (Z * OrderStatus)) : list Action :=
  map (fun entry => delete_order_ instrument_id (fst entry))
    (List.filter (stale update_ask_price ask_order_id update_bid_price bid_order_id) orders).

(** What one side of [update_quotes] sends. *)
Definition side_actions (instrument_id : string) (s : Side) (p : Q) (v : Z)
    (update_price : bool) (outstanding : option Z) (update_volume : bool) : list Action :=
  if (v >? 0) && update_price then [insert_order_ instrument_id p v s limit]
  else if (v >? 0) && negb update_price && update_volume
       then [amend_order_ instrument_id outstanding v]
       else [].

(** Every action of one side of [update_quotes] is an insert or an amend of
    that side's order, for a positive volume within the capacity. *)
Definition within_capacity (instrument_id : string) (s : Side) (outstanding : option Z)
    (capacity : Z) (actions : list Action) : Prop :=
  forall a, In a actions ->
    match a with
    | insert_order_ i _ v s' t =>
        i = instrument_id /\ s' = s /\ t = limit /\ 0 < v <= capacity
    | amend_order_ i o v => i = instrument_id /\ o = outstanding /\ 0 < v <= capacity
    | delete_order_ _ _ => False
    end.

(** [update_quotes], called with what the reconciler returned, inserts no
    order on side [s], whatever the other arguments and the outcome. *)
Definition submits_no_insert (exchange : Exchange) (instrument_id : string)
    (r : reconciliation) (s : Side) : Prop :=
  forall (theoretical_price credit : Q) (position_limit : Z) (tick_size : Q)
         (w w' : World) (res : result unit),
    update_quotes exchange instrument_id theoretical_price credit
      (optimal_ask_volume r) (optimal_bid_volume r) position_limit tick_size
      (update_ask_price r) (ask_order_id r) (update_bid_price r) (bid_order_id r)
      (update_ask_volume r) (update_bid_volume r) w = (res, w') ->
    exists new, sent w' = (sent w ++ new)%list /\
                forall a, In a new -> is_insert_on s a = false.

(** What a computation may send: every outcome of [m], from every world,
    leaves the orders sent before in place and adds only actions that
    satisfy [P]. *)
Definition emits {A} (P : Action -> Prop) (m : M A) : Prop :=
  forall (w w' : World) (r : result A),
    m w = (r, w') ->
    exists new, sent w' = (sent w ++ new)%list /\ forall a, In a new -> P a.

(** A computation that sends nothing, whatever its outcome. *)
Definition silent {A} (m : M A) : Prop :=
  forall (w w' : World) (r : result A), m w = (r, w') -> sent w' = sent w.

(** Some order of side [s] has volume [v]. *)
Definition volume_at (s : Side) (v : Z) (orders : list OrderStatus) : bool :=
  existsb (fun order => Side_eqb (side order) s && Z.eqb (volume order) v) orders.

(** The id of the last order of a side in the list. *)
Fixpoint resting_id (s : Side) (orders : list OrderStatus) : option Z :=
  match orders with
  | [] => None
  | order :: rest =>
      match resting_id s rest with
      | Some id => Some id
      | None => if Side_eqb (side order) s then Some (order_id order) else None
      end
  end.

(** The volumes the reconciler asks for, from the sizer's volume and the
    inventory [p]. *)
Definition wanted_ask (suggested_volume p : Z) : Z :=
  if p >? 0 then suggested_volume + p else suggested_volume.

Definition wanted_bid (suggested_volume p : Z) : Z :=
  if p >? 0 then suggested_volume
  else if p <? 0 then suggested_volume + Z.abs p else suggested_volume.

(** An action of a quoting function on instrument [id]: a deletion, an
    amendment or a limit order on [id], for a positive volume. *)
Definition quote_action (id : string) (a : Action) : Prop :=
  match a with
  | insert_order_ i _ v _ t => i = id /\ t = limit /\ 0 < v
  | amend_order_ i _ v => i = id /\ 0 < v
  | delete_order_ i _ => i = id
  end.

(** The action [a] when [b] holds, nothing otherwise. *)
Definition when (b : bool) (a : Action) : list Action := if b then [a] else [].

Definition or_else {A} (o d : option A) : option A :=
  match o with
  | Some x => Some x
  | None => d
  end.

(** [update_quotes] called with what the reconciler returned, as the
    strategies call it. *)
Definition submit (exchange : Exchange) (instrument_id : string)
    (theoretical_price credit : Q) (position_limit : Z) (tick_size : Q)
    (r : reconciliation) : M unit :=
  update_quotes exchange instrument_id theoretical_price credit
    (optimal_ask_volume r) (optimal_bid_volume r) position_limit tick_size
    (update_ask_price r) (ask_order_id r) (update_bid_price r) (bid_order_id r)
    (update_ask_volume r) (update_bid_volume r).

(** The prices [update_quotes] quotes at. *)
Definition bid_price_of (theoretical_price credit tick_size : Q) : Q :=
  (inject_Z (floor ((theoretical_price - credit) / tick_size)) * tick_size)%Q.

Definition ask_price_of (theoretical_price credit tick_size : Q) : Q :=
  (inject_Z (ceil ((theoretical_price + credit) / tick_size)) * tick_size)%Q.

(** A chain with an option whose kind is neither CALL nor PUT. *)
Definition has_unsupported_kind (options : list (string * Instrument)) : Prop :=
  exists entry repr, In entry options /\ option_kind (snd entry) = NotAKind repr.

(** The instrument the dual-listing strategy quotes. *)
Definition dual_listing (stock_id : string) : string :=
  if String.eqb stock_id "NVDA" then "NVDA_DUAL" else "SAN_DUAL".

(** A quote of one of the strategies: a limit order at the tick prices
    around the theoretical price, or an amendment, for at most 45 lots more
    than the inventory; or a deletion. *)
Definition sized_quote (id : string) (bid_price ask_price : Q) (inventory : Z)
    (a : Action) : Prop :=
  match a with
  | insert_order_ i p v s t =>
      i = id /\ t = limit /\ p = (if Side_eqb s bid then bid_price else ask_price) /\
      0 < v <= 45 + Z.abs inventory
  | amend_order_ i _ v => i = id /\ 0 < v <= 45 + Z.abs inventory
  | delete_order_ i _ => i = id
  end.

(** A hedge order on [id]: immediate-or-cancel, for a positive volume. *)
Definition hedge_action (id : string) (a : Action) : Prop :=
  exists p v s, 0 < v /\ a = insert_order_ id p v s ioc.

(** What one pass of the trade loop may send: quotes on the options, the
    futures and the two dual listings, and hedge orders on the two stocks. *)
Definition loop_action (options futures : list (string * Instrument)) (a : Action) : Prop :=
  (exists id, In id (map fst options ++ map fst futures ++ ["NVDA_DUAL"; "SAN_DUAL"])%list /\
              quote_action id a)
  \/ hedge_action "NVDA" a \/ hedge_action "SAN" a.

(* ===================================================================== *)
(** ** Sample market *)
(* ===================================================================== *)

Module Sample.

(** Stand-ins for the imported functions, for the examples only: the
    intrinsic value of the option, a delta of one half, no time to expiry,
    the integer square root and a first-order exponential. *)
Definition libs : Libs := {|
  call_value := fun S K _ _ _ => if Qltb K S then (S - K)%Q else 0%Q;
  put_value := fun S K _ _ _ => if Qltb S K then (K - S)%Q else 0%Q;
  call_delta := fun _ _ _ _ _ => (1 # 2)%Q;
  put_delta := fun _ _ _ _ _ => (- (1 # 2))%Q;
  calculate_current_time_to_date := fun _ => 0%Q;
  sqrt := fun d => inject_Z (Z.sqrt (Qfloor d));
  exp := fun x => (1 + x)%Q
|}.

Definition NVDA_call : Instrument := {|
  instrument_id := "NVDA_C";
  instrument_type := STOCK_OPTION;
  base_instrument_id := "NVDA";
  expiry := 30;
  strike := 100;
  option_kind := CALL
|}.

Definition NVDA_future : Instrument := {|
  instrument_id := "NVDA_F";
  instrument_type := STOCK_FUTURE;
  base_instrument_id := "NVDA";
  expiry := 30;
  strike := 0;
  option_kind := NotAKind "None"
|}.

Definition trade (t : Z) (p : Q) (v : Z) (s : Side) : TradeTick :=
  {| timestamp := t; tick_price := p; tick_volume := v; aggressor_side := s |}.

Definition resting (id : Z) (s : Side) (p : Q) (v : Z) : OrderStatus :=
  {| order_id := id; side := s; price := p; volume := v |}.

Definition level (p : Q) (v : Z) : PriceVolume := {| pv_price := p; pv_volume := v |}.

Definition two_sided : PriceBook :=
  {| bids := [level 99 50]; asks := [level 101 50] |}.

Definition no_bids : PriceBook := {| bids := []; asks := [level 101 50] |}.

(** An exchange that always answers the same. *)
Definition steady (pos : gmap string Z) (book : option PriceBook)
    (orders : list (Z * OrderStatus)) (history : string -> list TradeTick) : Exchange := {|
  instruments_at := fun _ => ∅;
  book_at := fun _ _ => book;
  positions_at := fun _ => pos;
  outstanding_at := fun _ _ => orders;
  history_at := fun _ => history
|}.

Definition start : World := {| clock := 0; sent := [] |}.

Definition holdings : gmap string Z :=
  list_to_map [("NVDA", 0); ("NVDA_DUAL", 0); ("NVDA_C", 80); ("SAN", 30); ("SAN_DUAL", 10)].

(** Two-sided books, no resting order, no trade yet. *)
Definition quiet : Exchange := steady holdings (Some two_sided) [] (fun _ => []).

(** The book has no bid at the first two calls and two sides from then on. *)
Definition thin_then_quoted : Exchange := {|
  instruments_at := fun _ => ∅;
  book_at := fun t _ => if (t <=? 1)%nat then Some no_bids else Some two_sided;
  positions_at := fun _ => holdings;
  outstanding_at := fun _ _ => [];
  history_at := fun _ _ => []
|}.

(** The book never has a bid. *)
Definition never_bid : Exchange := steady holdings (Some no_bids) [] (fun _ => []).

(** One trade in the option at time 10; three trades in the stock, the one
    nearest in time delivered last. *)
Definition unordered_stock : list TradeTick :=
  [trade 0 100 1 bid; trade 15 102 1 bid; trade 11 103 1 ask].

Definition unordered_history (id : string) : list TradeTick :=
  if String.eqb id "NVDA" then unordered_stock else [trade 10 3 5 bid].

Definition unordered : Exchange := steady holdings (Some two_sided) [] unordered_history.

(** A long position of 95 in the option, a bid resting at 100. *)
Definition near_limit : Exchange :=
  steady {[ "NVDA_C" := 95 ]} (Some two_sided) [(1, resting 1 bid 100 20)] (fun _ => []).

(** No position in the option; a bid of 8 lots rests at 11 and an ask of 8
    lots at 13. *)
Definition resting_bid : OrderStatus := resting 7 bid 11 8.

Definition resting_ask : OrderStatus := resting 8 ask 13 8.

Definition quoted : Exchange :=
  steady {[ "NVDA_C" := 0 ]} (Some two_sided) [(7, resting_bid); (8, resting_ask)]
    (fun _ => []).

(** The stock trades in the order of time, the option once at time 10. *)
Definition ordered_history (id : string) : list TradeTick :=
  if String.eqb id "NVDA"
  then [trade 0 100 1 bid; trade 11 103 1 ask; trade 15 102 1 bid]
  else [trade 10 3 5 bid].

Definition ordered : Exchange := steady holdings (Some two_sided) [] ordered_history.

(** The option has traded, the stock has not. *)
Definition untraded_stock : Exchange :=
  steady holdings (Some two_sided) []
    (fun id => if String.eqb id "NVDA" then [] else [trade 10 3 5 bid]).

End Sample.

(* ===================================================================== *)
(** * Properties *)
(* ===================================================================== *)

(** ** Rounding *)

Lemma Qfloor_unique (x : Q) (n : Z) :
  (inject_Z n <= x)%Q -> (x < inject_Z (n + 1))%Q -> Qfloor x = n.
Proof.
  intros Hle Hlt.
  pose proof (Qfloor_le x) as Hf1.
  pose proof (Qlt_floor x) as Hf2.
  assert (H1 : (inject_Z n < inject_Z (Qfloor x + 1))%Q) by (eapply Qle_lt_trans; eauto).
  assert (H2 : (inject_Z (Qfloor x) < inject_Z (n + 1))%Q) by (eapply Qle_lt_trans; eauto).
  rewrite <- Zlt_Qlt in H1, H2. lia.
Qed.

Lemma inject_Z_sub (a b : Z) : (inject_Z (a - b) == inject_Z a - inject_Z b)%Q.
Proof. unfold Qeq, Qminus, Qplus, Qopp, inject_Z. simpl. lia. Qed.

Lemma inject_Z_succ (a : Z) : (inject_Z (a + 1) == inject_Z a + 1)%Q.
Proof. unfold Qeq, Qplus, inject_Z. simpl. lia. Qed.

Lemma round_cases (x : Q) :
  let f := Qfloor x in
  let r := (x - inject_Z f)%Q in
  ((r < 1 # 2)%Q /\ round x = f) \/
  ((1 # 2 < r)%Q /\ round x = f + 1) \/
  ((r == 1 # 2)%Q /\ round x = if Z.even f then f else f + 1).
Proof.
  intros f r. unfold round. fold f. fold r.
  destruct (Qcompare_spec r (1 # 2)) as [H|H|H]; auto.
Qed.

Lemma round_bounds (x : Q) : Qfloor x <= round x <= Qfloor x + 1.
Proof.
  destruct (round_cases x) as [[_ ->]|[[_ ->]|[_ ->]]]; try lia.
  destruct (Z.even (Qfloor x)); lia.
Qed.

Lemma round_opp (x : Q) : round (- x) = - round x.
Proof.
  pose proof (Qfloor_le x) as Hf1.
  pose proof (Qlt_floor x) as Hf2.
  rewrite inject_Z_succ in Hf2.
  destruct (Qeq_dec x (inject_Z (Qfloor x))) as [Hint|Hfrac].
  - assert (Hn : Qfloor (- x) = - Qfloor x).
    { apply Qfloor_unique; rewrite ?inject_Z_succ, ?inject_Z_opp; lra. }
    destruct (round_cases x) as [[H ->]|[[H _]|[H _]]]; try lra.
    destruct (round_cases (- x)) as [[H' ->]|[[H' _]|[H' _]]];
      rewrite ?Hn, ?inject_Z_opp in *; try lra. lia.
  - assert (Hn : Qfloor (- x) = - Qfloor x - 1).
    { apply Qfloor_unique.
      - rewrite inject_Z_sub, inject_Z_opp. change (inject_Z 1) with 1%Q. lra.
      - replace (- Qfloor x - 1 + 1) with (- Qfloor x) by lia.
        rewrite inject_Z_opp.
        assert (inject_Z (Qfloor x) < x)%Q by (apply Qle_lteq in Hf1; destruct Hf1 as [?|E]; [assumption|symmetry in E; contradiction]).
        lra. }
    assert (Hi : (inject_Z (- Qfloor x - 1) == - inject_Z (Qfloor x) - 1)%Q).
    { rewrite inject_Z_sub, inject_Z_opp. change (inject_Z 1) with 1%Q. lra. }
    destruct (round_cases x) as [[H ->]|[[H ->]|[H ->]]];
    destruct (round_cases (- x)) as [[H' ->]|[[H' ->]|[H' ->]]];
      rewrite ?Hn in *; rewrite ?Hi in *; try lra; try lia.
    assert (He : Z.even (- Qfloor x - 1) = negb (Z.even (Qfloor x))).
    { rewrite Z.even_sub, Z.even_opp. destruct (Z.even (Qfloor x)); reflexivity. }
    rewrite He. destruct (Z.even (Qfloor x)); simpl; lia.
Qed.


Lemma round_ge (t : Z) (x : Q) : (inject_Z t <= x)%Q -> t <= round x.
Proof.
  intros H. pose proof (round_bounds x).
  pose proof (Qfloor_resp_le _ _ H) as Hm. rewrite Qfloor_Z in Hm. lia.
Qed.

Lemma round_inject_Z (z : Z) : round (inject_Z z) = z.
Proof.
  destruct (round_cases (inject_Z z)) as [[H ->]|[[H _]|[H _]]];
    rewrite Qfloor_Z in *; try reflexivity; lra.
Qed.


Lemma Qgtb_spec (x y : Q) : Qgtb x y = true <-> (y < x)%Q.
Proof.
  unfold Qgtb. rewrite negb_true_iff, <- not_true_iff_false, Qle_bool_iff.
  split; [apply Qnot_le_lt | apply Qlt_not_le].
Qed.

Lemma Qltb_spec (x y : Q) : Qltb x y = true <-> (x < y)%Q.
Proof. unfold Qltb. apply (Qgtb_spec y x). Qed.



(** Rounding down to a positive tick. *)
Lemma floor_to_tick (s t : Q) :
  (0 < t)%Q ->
  let c := (inject_Z (floor (s / t)) * t)%Q in
  (c <= s)%Q /\ (s < c + t)%Q /\
  (forall k : Z, (inject_Z k * t <= s)%Q -> (inject_Z k * t <= c)%Q).
Proof.
  intros Ht c. subst c. unfold floor.
  pose proof (Qfloor_le (s / t)) as H1.
  pose proof (Qlt_floor (s / t)) as H2.
  rewrite inject_Z_succ in H2.
  assert (Hs : (s == s / t * t)%Q) by (field; lra).
  set (q := (s / t)%Q) in *. set (f := Qfloor q) in *.
  repeat split.
  - rewrite Hs. apply Qmult_le_compat_r; lra.
  - assert (Hlt : (q * t < (inject_Z f + 1) * t)%Q) by (apply Qmult_lt_compat_r; lra).
    rewrite Hs. lra.
  - intros k Hk.
    apply Qmult_le_compat_r; [|lra].
    rewrite <- Zle_Qle.
    assert (Hkq : (inject_Z k <= q)%Q).
    { subst q. apply Qle_shift_div_l; assumption. }
    assert (Hlt : (inject_Z k < inject_Z (f + 1))%Q) by (rewrite inject_Z_succ; lra).
    rewrite <- Zlt_Qlt in Hlt. lia.
Qed.

(** ** Worlds *)

Lemma after_after (w : World) (a b : list Action) (n m : nat) :
  after (after w a n) b m = after w (a ++ b) (n + m).
Proof.
  unfold after. cbn. rewrite length_app, <- app_assoc. f_equal. lia.
Qed.

Lemma after_nil (w : World) : after w [] 0 = w.
Proof.
  destruct w. unfold after. cbn. rewrite app_nil_r. f_equal. lia.
Qed.

Lemma after_later (w : World) (n : nat) : after w [] n = later w n.
Proof. unfold after, later. cbn. rewrite app_nil_r. f_equal. lia. Qed.

Lemma emit_after (a : Action) (w : World) : emit a w = (Return tt, after w [a] 0).
Proof. unfold emit, after. cbn. do 2 f_equal. lia. Qed.

Lemma tick_after (w : World) : tick w = after w [] 1.
Proof. unfold tick, after. cbn. rewrite app_nil_r. f_equal. lia. Qed.


Lemma bind_assoc {A B C} (m : M A) (f : A -> M B) (g : B -> M C) (w : World) :
  bind (bind m f) g w = bind m (fun x => bind (f x) g) w.
Proof.
  unfold bind. destruct (m w) as [[a| |] w']; reflexivity.
Qed.

(** ** The scan for the nearest underlying trade *)



Lemma scan_chronological (ts : Z) (rest : list TradeTick) :
  forall (minimum : Z) (p : Q) (best : TradeTick),
  chronological rest ->
  (forall y, In y rest -> timestamp best <= timestamp y) ->
  p = tick_price best ->
  minimum = distance ts best \/ (minimum = ts - timestamp best /\ minimum < 0) ->
  snd (fold_left (nearest_step ts) rest (minimum, p))
  = tick_price (fold_left (nearer ts) rest best).
Proof.
  induction rest as [|x rest IH]; intros minimum p best Hchron Hafter Hp Hmin.
  - cbn. assumption.
  - destruct Hchron as [Hx Hchron].
    assert (Hbx : timestamp best <= timestamp x) by (apply Hafter; left; reflexivity).
    cbn [fold_left].
    change (nearer ts best x)
      with (if distance ts x <? distance ts best then x else best).
    change (nearest_step ts (minimum, p) x)
      with (if minimum >? distance ts x then (ts - timestamp x, tick_price x)
            else (minimum, p)).
    destruct Hmin as [Hmin|[Hmin Hneg]].
    + subst minimum. rewrite Z.gtb_ltb.
      destruct (Z.ltb_spec (distance ts x) (distance ts best)) as [Hlt|Hge].
      * apply IH; auto. unfold distance. lia.
      * apply IH; auto. intros y Hy. apply Hafter. right. assumption.
    + assert (Hd : (minimum >? distance ts x) = false) by (unfold distance; lia).
      assert (Hs : (distance ts x <? distance ts best) = false) by (unfold distance; lia).
      rewrite Hd, Hs.
      apply IH; auto. intros y Hy. apply Hafter. right. assumption.
Qed.

(** On a history in the order of time the scan finds the price of the
    nearest trade, the first seen among the nearest. *)
Lemma nearest_scan_chronological (ts : Z) (data_underlying : list TradeTick)
    (st : option (Z * Q)) :
  chronological data_underlying ->
  data_underlying <> [] ->
  option_map snd (nearest_scan ts data_underlying st)
  = option_map tick_price (nearest_first ts data_underlying).
Proof.
  destruct data_underlying as [|line rest]; [congruence|].
  intros [Hline Hchron] _. cbn. f_equal.
  apply scan_chronological; auto.
Qed.

Section Properties.

Context (lib : Libs) (exchange : Exchange).

(** ** The reconciler *)

Lemma existing_prices_from (orders : list OrderStatus) (a b : option Q) :
  fold_left (fun st order =>
    let '(existing_ask_price, existing_bid_price) := st in
    if Side_eqb (side order) ask
    then (Some (price order), existing_bid_price)
    else (existing_ask_price, Some (price order))) orders (a, b)
  = (match resting_price ask orders with Some p => Some p | None => a end,
     match resting_price bid orders with Some p => Some p | None => b end).
Proof.
  revert a b. induction orders as [|o rest IH]; intros a b; simpl; [reflexivity|].
  destruct (side o); simpl; rewrite IH;
    destruct (resting_price ask rest), (resting_price bid rest); reflexivity.
Qed.

Lemma existing_prices_resting (orders : list OrderStatus) :
  existing_prices orders = (resting_price ask orders, resting_price bid orders).
Proof.
  unfold existing_prices. rewrite existing_prices_from.
  destruct (resting_price ask orders), (resting_price bid orders); reflexivity.
Qed.

Lemma quoted_resting (s : Side) (p : Q) (orders : list OrderStatus) :
  quoted_at s p orders = true -> exists q, resting_price s orders = Some q.
Proof.
  induction orders as [|o rest IH]; simpl; [discriminate|].
  intros H. apply orb_true_iff in H as [H|H].
  - apply andb_true_iff in H as [Hs _]. rewrite Hs.
    destruct (resting_price s rest); eauto.
  - destruct (IH H) as [q ->]. eauto.
Qed.

Lemma match_order_step (nb na : Q) (va vb : Z) (o : OrderStatus)
    (ua ub : bool) (ia ib : option Z) (uav ubv : bool) :
  exists ia' ib' uav' ubv',
    match_order nb na va vb (ua, ub, ia, ib, uav, ubv) o
    = (ua && negb (Side_eqb (side o) ask && Qeq_bool (price o) na),
       ub && negb (Side_eqb (side o) bid && Qeq_bool (price o) nb),
       ia', ib', uav', ubv').
Proof.
  unfold match_order.
  destruct (side o); simpl;
    destruct (Qeq_bool (price o) na), (Qeq_bool (price o) nb), ua, ub; simpl; eauto 10.
Qed.

Lemma match_order_flags (nb na : Q) (va vb : Z) (orders : list OrderStatus) :
  forall (ua ub : bool) (ia ib : option Z) (uav ubv : bool),
  exists ia' ib' uav' ubv',
    fold_left (match_order nb na va vb) orders (ua, ub, ia, ib, uav, ubv)
    = (ua && negb (quoted_at ask na orders), ub && negb (quoted_at bid nb orders),
       ia', ib', uav', ubv').
Proof.
  induction orders as [|o rest IH]; intros ua ub ia ib uav ubv.
  - simpl. rewrite !andb_true_r. eauto 10.
  - cbn [fold_left].
    destruct (match_order_step nb na va vb o ua ub ia ib uav ubv)
      as (ia1 & ib1 & uav1 & ubv1 & ->).
    destruct (IH (ua && negb (Side_eqb (side o) ask && Qeq_bool (price o) na))
                 (ub && negb (Side_eqb (side o) bid && Qeq_bool (price o) nb))
                 ia1 ib1 uav1 ubv1) as (ia' & ib' & uav' & ubv' & ->).
    exists ia', ib', uav', ubv'. unfold quoted_at. cbn [existsb].
    rewrite !negb_orb, !andb_assoc. reflexivity.
Qed.

Lemma operational_optimazation_run (instrument_id : string)
    (outstanding_orders : list OrderStatus) (suggested_volume : Z)
    (new_bid_price new_ask_price : Q) (w : World) (p : Z) :
  positions_at exchange (clock w) !! instrument_id = Some p ->
  exists ia ib uav ubv,
    operational_optimazation exchange instrument_id outstanding_orders suggested_volume
      new_bid_price new_ask_price w
    = (Return {|
         optimal_ask_volume := if p >? 0 then suggested_volume + p else suggested_volume;
         optimal_bid_volume :=
           if p >? 0 then suggested_volume
           else if p <? 0 then suggested_volume + Z.abs p else suggested_volume;
         update_ask_price :=
           negb (quoted_at ask new_ask_price outstanding_orders)
           && negb (quoted_at bid new_bid_price outstanding_orders
                    && crosses new_ask_price (resting_price bid outstanding_orders));
         update_bid_price :=
           negb (quoted_at bid new_bid_price outstanding_orders)
           && negb (quoted_at ask new_ask_price outstanding_orders
                    && crosses new_bid_price (resting_price ask outstanding_orders));
         ask_order_id := ia;
         bid_order_id := ib;
         update_ask_volume := uav;
         update_bid_volume := ubv;
         positions := positions_at exchange (clock w) |},
       tick w).
Proof.
  intros Hp. unfold operational_optimazation.
  rewrite existing_prices_resting.
  unfold bind, get_positions, lift, subscript, ret. rewrite Hp.
  set (va := if p >? 0 then suggested_volume + p else suggested_volume).
  set (vb := if p >? 0 then suggested_volume
             else if p <? 0 then suggested_volume + Z.abs p else suggested_volume).
  destruct (match_order_flags new_bid_price new_ask_price va vb outstanding_orders
              true true None None true true) as (ia & ib & uav & ubv & ->).
  exists ia, ib, uav, ubv. cbn [andb].
  destruct (quoted_at ask new_ask_price outstanding_orders) eqn:Ha;
    destruct (quoted_at bid new_bid_price outstanding_orders) eqn:Hb; cbn.
  - reflexivity.
  - destruct (quoted_resting _ _ _ Ha) as [q ->]. cbn.
    destruct (Qeq_bool new_bid_price q); reflexivity.
  - destruct (quoted_resting _ _ _ Hb) as [q ->]. cbn.
    destruct (Qeq_bool new_ask_price q); reflexivity.
  - reflexivity.
Qed.

(** ** The submitter *)

Lemma pull_stale_orders (instrument_id : string) (ua : bool) (ia : option Z)
    (ub : bool) (ib : option Z) (orders : list (Z * OrderStatus)) (w : World) :
  for_each orders (fun entry =>
    let '(key, order) := entry in
    if (ua && same_order (order_id order) ia) || (ub && same_order (order_id order) ib)
    then delete_order instrument_id key
    else ret tt) w
  = (Return tt, after w (deletions instrument_id ua ia ub ib orders) 0).
Proof.
  unfold for_each. revert w.
  induction orders as [|[key order] rest IH]; intros w.
  - cbn. rewrite after_nil. reflexivity.
  - cbn [for_loop]. unfold bind at 1. unfold deletions. cbn [List.filter].
    unfold stale at 1. cbn [snd].
    destruct ((ua && same_order (order_id order) ia) || (ub && same_order (order_id order) ib)).
    + unfold delete_order. rewrite emit_after, IH. cbn [map fst].
      rewrite after_after. reflexivity.
    + unfold ret at 1. rewrite IH. reflexivity.
Qed.

Lemma side_actions_run (instrument_id : string) (s : Side) (p : Q) (v : Z)
    (update_price : bool) (outstanding : option Z) (update_volume : bool) (w : World) :
  (if (v >? 0) && update_price then insert_order instrument_id p v s limit
   else if (v >? 0) && negb update_price && update_volume
        then amend_order instrument_id outstanding v
        else ret tt) w
  = (Return tt, after w (side_actions instrument_id s p v update_price outstanding update_volume) 0).
Proof.
  unfold side_actions, insert_order, amend_order.
  destruct ((v >? 0) && update_price); [apply emit_after|].
  destruct ((v >? 0) && negb update_price && update_volume); [apply emit_after|].
  unfold ret. rewrite after_nil. reflexivity.
Qed.

Lemma update_quotes_run (instrument_id : string) (theoretical_price credit : Q)
    (optimal_ask_volume optimal_bid_volume position_limit : Z) (tick_size : Q)
    (update_ask_price : bool) (ask_order_id : option Z)
    (update_bid_price : bool) (bid_order_id : option Z)
    (update_ask_volume update_bid_volume : bool) (w : World) (position : Z) :
  let pulled := deletions instrument_id update_ask_price ask_order_id
                  update_bid_price bid_order_id
                  (outstanding_at exchange (clock w) instrument_id) in
  Qeq_bool tick_size 0 = false ->
  positions_at exchange (clock w + 1 + length pulled) !! instrument_id = Some position ->
  update_quotes exchange instrument_id theoretical_price credit
    optimal_ask_volume optimal_bid_volume position_limit tick_size
    update_ask_price ask_order_id update_bid_price bid_order_id
    update_ask_volume update_bid_volume w
  = (Return tt,
     after w
       (pulled
        ++ side_actions instrument_id bid
             (inject_Z (floor ((theoretical_price - credit) / tick_size)) * tick_size)%Q
             (Z.min optimal_bid_volume (position_limit - position))
             update_bid_price bid_order_id update_bid_volume
        ++ side_actions instrument_id ask
             (inject_Z (ceil ((theoretical_price + credit) / tick_size)) * tick_size)%Q
             (Z.min optimal_ask_volume (position_limit + position))
             update_ask_price ask_order_id update_ask_volume) 2).
Proof.
  intros pulled Htick Hpos. unfold update_quotes.
  unfold bind at 1. unfold get_outstanding_orders at 1.
  unfold bind at 1. rewrite pull_stale_orders. fold pulled.
  unfold round_down_to_tick, round_up_to_tick, divide. rewrite Htick.
  unfold bind at 1. unfold lift at 1. cbn [result_bind].
  unfold bind at 1. unfold lift at 1.
  unfold bind at 1. unfold get_positions at 1.
  rewrite tick_after, after_after, !tick_after, !after_after. cbn [app Nat.add].
  replace (clock (after w pulled 1)) with (clock w + 1 + length pulled)%nat by reflexivity.
  unfold bind at 1. unfold lift at 1, subscript. rewrite Hpos.
  unfold bind at 1. rewrite side_actions_run, side_actions_run, !after_after.
  rewrite app_nil_r. reflexivity.
Qed.


Lemma deletions_are_deletes (instrument_id : string) (ua : bool) (ia : option Z)
    (ub : bool) (ib : option Z) (orders : list (Z * OrderStatus)) (a : Action) :
  In a (deletions instrument_id ua ia ub ib orders) -> is_delete a = true.
Proof.
  unfold deletions. rewrite in_map_iff. intros (e & <- & _). reflexivity.
Qed.

Lemma side_actions_insert (instrument_id : string) (s s' : Side) (p : Q) (v : Z)
    (update_price : bool) (outstanding : option Z) (update_volume : bool) (a : Action) :
  In a (side_actions instrument_id s p v update_price outstanding update_volume) ->
  is_insert_on s' a = true -> s = s' /\ update_price = true.
Proof.
  unfold side_actions.
  destruct ((v >? 0) && update_price) eqn:E.
  - intros [<-|[]]. cbn. apply andb_true_iff in E as [_ ->].
    destruct s, s'; cbn; intros; try discriminate; auto.
  - destruct ((v >? 0) && negb update_price && update_volume).
    + intros [<-|[]]. discriminate.
    + intros [].
Qed.

(** Whatever the outcome of [update_quotes], an order is inserted on a side
    only when the price flag of that side is set. *)
Lemma update_quotes_inserts (instrument_id : string) (theoretical_price credit : Q)
    (optimal_ask_volume optimal_bid_volume position_limit : Z) (tick_size : Q)
    (update_ask_price : bool) (ask_order_id : option Z)
    (update_bid_price : bool) (bid_order_id : option Z)
    (update_ask_volume update_bid_volume : bool) (w w' : World) (res : result unit) :
  update_quotes exchange instrument_id theoretical_price credit
    optimal_ask_volume optimal_bid_volume position_limit tick_size
    update_ask_price ask_order_id update_bid_price bid_order_id
    update_ask_volume update_bid_volume w = (res, w') ->
  exists new,
    sent w' = (sent w ++ new)%list /\
    forall a, In a new ->
      (is_insert_on ask a = true -> update_ask_price = true) /\
      (is_insert_on bid a = true -> update_bid_price = true).
Proof.
  set (pulled := deletions instrument_id update_ask_price ask_order_id
                   update_bid_price bid_order_id
                   (outstanding_at exchange (clock w) instrument_id)).
  assert (Hpulled : forall a, In a pulled ->
            (is_insert_on ask a = true -> update_ask_price = true) /\
            (is_insert_on bid a = true -> update_bid_price = true)).
  { intros a Ha. apply deletions_are_deletes in Ha.
    destruct a; try discriminate. split; discriminate. }
  destruct (Qeq_bool tick_size 0) eqn:Htick.
  - unfold update_quotes.
    unfold bind at 1. unfold get_outstanding_orders at 1.
    unfold bind at 1. rewrite pull_stale_orders. fold pulled.
    unfold round_down_to_tick, divide. rewrite Htick.
    unfold bind at 1. unfold lift at 1. cbn [result_bind].
    intros [= <- <-]. exists pulled. split; [reflexivity | assumption].
  - destruct (positions_at exchange (clock w + 1 + length pulled) !! instrument_id)
      as [position|] eqn:Hpos.
    + rewrite (update_quotes_run _ _ _ _ _ _ _ _ _ _ _ _ _ _ position Htick Hpos).
      fold pulled. intros [= <- <-]. eexists. split; [reflexivity|].
      intros a Ha. apply in_app_or in Ha as [Ha|Ha]; [auto|].
      apply in_app_or in Ha as [Ha|Ha]; split; intros Hi;
        destruct (side_actions_insert _ _ _ _ _ _ _ _ _ Ha Hi) as [Hs Hu];
        try discriminate; assumption.
    + unfold update_quotes.
      unfold bind at 1. unfold get_outstanding_orders at 1.
      unfold bind at 1. rewrite pull_stale_orders. fold pulled.
      unfold round_down_to_tick, round_up_to_tick, divide. rewrite Htick.
      unfold bind at 1. unfold lift at 1. cbn [result_bind].
      unfold bind at 1. unfold lift at 1.
      unfold bind at 1. unfold get_positions at 1.
      rewrite tick_after, after_after, !tick_after, !after_after. cbn [app Nat.add].
      replace (clock (after w pulled 1)) with (clock w + 1 + length pulled)%nat by reflexivity.
      unfold bind at 1. unfold lift at 1, subscript. rewrite Hpos.
      intros [= <- <-]. exists pulled. cbn. rewrite app_nil_r.
      split; [reflexivity | assumption].
Qed.

Lemma side_actions_within (instrument_id : string) (s : Side) (p : Q)
    (optimal capacity : Z) (update_price : bool) (outstanding : option Z)
    (update_volume : bool) :
  within_capacity instrument_id s outstanding capacity
    (side_actions instrument_id s p (Z.min optimal capacity)
       update_price outstanding update_volume) /\
  (Z.min optimal capacity <= 0 ->
   side_actions instrument_id s p (Z.min optimal capacity)
     update_price outstanding update_volume = []).
Proof.
  unfold side_actions, within_capacity.
  destruct (Z.gtb_spec (Z.min optimal capacity) 0) as [Hpos|Hneg]; cbn [andb].
  - split; [|lia].
    destruct update_price; cbn [negb andb].
    + intros a [<-|[]]. repeat split; lia.
    + destruct update_volume; [|intros a []].
      intros a [<-|[]]. repeat split; lia.
  - split; [intros a []|reflexivity].
Qed.

(** C6.  [update_quotes] caps the volume of the bid it inserts or amends at
    [position_limit - position] and the volume of the ask at
    [position_limit + position], [position] being the inventory it reads after
    pulling the stale orders; a side whose capped volume is not positive gets
    neither an insert nor an amend. *)
Theorem quotes_capped_by_position_limit
    (instrument_id : string) (theoretical_price credit : Q)
    (optimal_ask_volume optimal_bid_volume position_limit : Z) (tick_size : Q)
    (update_ask_price : bool) (ask_order_id : option Z)
    (update_bid_price : bool) (bid_order_id : option Z)
    (update_ask_volume update_bid_volume : bool) (w : World) (position : Z) :
  let pulled := deletions instrument_id update_ask_price ask_order_id
                  update_bid_price bid_order_id
                  (outstanding_at exchange (clock w) instrument_id) in
  Qeq_bool tick_size 0 = false ->
  positions_at exchange (clock w + 1 + length pulled) !! instrument_id = Some position ->
  exists (w' : World) (bid_side ask_side : list Action),
    update_quotes exchange instrument_id theoretical_price credit
      optimal_ask_volume optimal_bid_volume position_limit tick_size
      update_ask_price ask_order_id update_bid_price bid_order_id
      update_ask_volume update_bid_volume w = (Return tt, w') /\
    sent w' = (sent w ++ pulled ++ bid_side ++ ask_side)%list /\
    (forall a, In a pulled -> is_delete a = true) /\
    within_capacity instrument_id bid bid_order_id (position_limit - position) bid_side /\
    within_capacity instrument_id ask ask_order_id (position_limit + position) ask_side /\
    (Z.min optimal_bid_volume (position_limit - position) <= 0 -> bid_side = []) /\
    (Z.min optimal_ask_volume (position_limit + position) <= 0 -> ask_side = []).
Proof.
  intros pulled Htick Hpos.
  rewrite (update_quotes_run _ _ _ _ _ _ _ _ _ _ _ _ _ _ position Htick Hpos).
  fold pulled.
  destruct (side_actions_within instrument_id bid
              (inject_Z (floor ((theoretical_price - credit) / tick_size)) * tick_size)%Q
              optimal_bid_volume (position_limit - position)
              update_bid_price bid_order_id update_bid_volume) as [Hb Hb0].
  destruct (side_actions_within instrument_id ask
              (inject_Z (ceil ((theoretical_price + credit) / tick_size)) * tick_size)%Q
              optimal_ask_volume (position_limit + position)
              update_ask_price ask_order_id update_ask_volume) as [Ha Ha0].
  eexists _, _, _. split; [reflexivity|].
  split; [reflexivity|].
  split; [apply deletions_are_deletes|].
  auto.
Qed.

(** C9.  In [operational_optimazation], with inventory [p]: when [p > 0] the
    ask volume is the suggested volume plus [p] and the bid volume is the
    suggested volume; when [p < 0] the bid volume is the suggested volume plus
    [|p|] and the ask volume is the suggested volume; when [p = 0] both are the
    suggested volume. *)
Theorem inventory_added_to_flattening_side (instrument_id : string)
    (outstanding_orders : list OrderStatus) (suggested_volume : Z)
    (new_bid_price new_ask_price : Q) (w : World) (p : Z) :
  positions_at exchange (clock w) !! instrument_id = Some p ->
  exists r : reconciliation,
    operational_optimazation exchange instrument_id outstanding_orders suggested_volume
      new_bid_price new_ask_price w = (Return r, tick w) /\
    (0 < p -> optimal_ask_volume r = suggested_volume + p /\
              optimal_bid_volume r = suggested_volume) /\
    (p < 0 -> optimal_bid_volume r = suggested_volume + Z.abs p /\
              optimal_ask_volume r = suggested_volume) /\
    (p = 0 -> optimal_ask_volume r = suggested_volume /\
              optimal_bid_volume r = suggested_volume).
Proof.
  intros Hp.
  destruct (operational_optimazation_run instrument_id outstanding_orders
              suggested_volume new_bid_price new_ask_price w p Hp)
    as (ia & ib & uav & ubv & ->).
  eexists. split; [reflexivity|]. cbn.
  destruct (Z.gtb_spec p 0), (Z.ltb_spec p 0); repeat split; lia.
Qed.

(** C7.  When the price of one side only is changing (no resting order of
    that side is at its new price, while an order of the other side rests at
    that side's new price), and the new price of the changing side is the
    price of the resting order of the other side, [operational_optimazation]
    clears the price flag of the changing side, and [update_quotes] called
    with its result inserts no order on that side. *)
Theorem self_trade_guard (instrument_id : string)
    (outstanding_orders : list OrderStatus) (suggested_volume : Z)
    (new_bid_price new_ask_price : Q) (w : World) (p : Z) :
  positions_at exchange (clock w) !! instrument_id = Some p ->
  exists r : reconciliation,
    operational_optimazation exchange instrument_id outstanding_orders suggested_volume
      new_bid_price new_ask_price w = (Return r, tick w) /\
    (quoted_at ask new_ask_price outstanding_orders = false ->
     quoted_at bid new_bid_price outstanding_orders = true ->
     crosses new_ask_price (resting_price bid outstanding_orders) = true ->
     update_ask_price r = false /\ submits_no_insert exchange instrument_id r ask) /\
    (quoted_at bid new_bid_price outstanding_orders = false ->
     quoted_at ask new_ask_price outstanding_orders = true ->
     crosses new_bid_price (resting_price ask outstanding_orders) = true ->
     update_bid_price r = false /\ submits_no_insert exchange instrument_id r bid).
Proof.
  intros Hp.
  destruct (operational_optimazation_run instrument_id outstanding_orders
              suggested_volume new_bid_price new_ask_price w p Hp)
    as (ia & ib & uav & ubv & ->).
  eexists. split; [reflexivity|].
  split; intros Hchanging Hkept Hcross; cbn [update_ask_price update_bid_price];
    rewrite Hchanging, Hkept, Hcross; (split; [reflexivity|]);
    intros tp credit lim tk w1 w2 res Hrun;
    destruct (update_quotes_inserts _ _ _ _ _ _ _ _ _ _ _ _ _ _ _ _ Hrun)
      as (new & Hsent & Hnew);
    exists new; (split; [assumption|]);
    intros a Ha; destruct (Hnew a Ha) as [Hask Hbid];
    cbn in Hask, Hbid; rewrite ?Hchanging, ?Hkept, ?Hcross in Hask, Hbid;
    cbn in Hask, Hbid.
  - destruct (is_insert_on ask a); [|reflexivity]. discriminate (Hask eq_refl).
  - destruct (is_insert_on bid a); [|reflexivity]. discriminate (Hbid eq_refl).
Qed.

(** ** The hedge *)

Lemma poll_returns (id : string) (k : nat) :
  forall (fuel : nat) (w : World) (book : PriceBook),
  (k <= fuel)%nat ->
  (forall j, (j < k)%nat -> one_sided_at exchange id (clock w + j)) ->
  two_sided_at exchange id (clock w + k) book ->
  (underlying_order_book <- get_last_price_book exchange id ;;
   await_two_sided exchange fuel id underlying_order_book) w
  = (Return book, after w [] (k + 1)).
Proof.
  induction k as [|k IH]; intros fuel w book Hfuel Hone [Hbook Htwo].
  - rewrite Nat.add_0_r in Hbook.
    unfold bind at 1. unfold get_last_price_book at 1. rewrite Hbook.
    destruct fuel; cbn [await_two_sided];
      unfold bind, lift, attributes; unfold one_sided in Htwo; rewrite Htwo;
      unfold ret; rewrite tick_after; reflexivity.
  - destruct (Hone 0%nat ltac:(lia)) as (b0 & Hb0 & Hs0).
    rewrite Nat.add_0_r in Hb0.
    destruct fuel as [|fuel]; [lia|].
    unfold bind at 1. unfold get_last_price_book at 1. rewrite Hb0.
    cbn [await_two_sided]. unfold bind at 1. unfold lift at 1, attributes.
    unfold one_sided in Hs0. rewrite Hs0.
    rewrite (IH fuel (tick w) book).
    + rewrite tick_after, after_after. reflexivity.
    + lia.
    + intros j Hj. replace (clock (tick w) + j)%nat with (clock w + S j)%nat by (cbn; lia).
      apply Hone. lia.
    + replace (clock (tick w) + k)%nat with (clock w + S k)%nat by (cbn; lia).
      split; assumption.
Qed.

Lemma poll_spins (id : string) (fuel : nat) :
  forall (w : World),
  (forall j, (j <= fuel)%nat -> one_sided_at exchange id (clock w + j)) ->
  (underlying_order_book <- get_last_price_book exchange id ;;
   await_two_sided exchange fuel id underlying_order_book) w
  = (Spinning, after w [] (fuel + 1)).
Proof.
  induction fuel as [|fuel IH]; intros w Hone;
    destruct (Hone 0%nat ltac:(lia)) as (b0 & Hb0 & Hs0);
    rewrite Nat.add_0_r in Hb0;
    unfold bind at 1; unfold get_last_price_book at 1; rewrite Hb0;
    cbn [await_two_sided]; unfold bind at 1; unfold lift at 1, attributes;
    unfold one_sided in Hs0; rewrite Hs0.
  - unfold lift. rewrite tick_after. reflexivity.
  - rewrite (IH (tick w)).
    + rewrite tick_after, after_after. reflexivity.
    + intros j Hj. replace (clock (tick w) + j)%nat with (clock w + S j)%nat by (cbn; lia).
      apply Hone. lia.
Qed.




Lemma options_loop_snapshot (stock_value : Q) (options : list (string * Instrument)) :
  forall (st st' : hedge_locals) (w w' : World),
  for_loop (hedge_option lib exchange stock_value) options st w = (Return st', w') ->
  w' = later w (length options) /\
  (options = [] -> st' = st) /\
  (options <> [] ->
   snd st' = Some (positions_at exchange (clock w + length options - 1))).
Proof.
  induction options as [|[option_id opt] rest IH]; intros [agg pv] st' w w'.
  - cbn. intros [= <- <-]. repeat split; [|congruence].
    destruct w. unfold later. cbn. f_equal. lia.
  - cbn [for_loop]. unfold bind at 1.
    unfold hedge_option at 1.
    unfold bind at 1. unfold get_positions at 1.
    unfold bind at 1. unfold lift at 1.
    destruct (calculate_option_delta lib (expiry opt) (strike opt) (option_kind opt)
                stock_value (3 # 100) 3) as [delta| |]; try discriminate.
    unfold bind at 1. unfold lift at 1.
    destruct (subscript (positions_at exchange (clock w)) option_id) as [position| |];
      try discriminate.
    unfold ret at 1. intros Hrest.
    destruct (IH _ _ _ _ Hrest) as (Hw & Hnil & Hcons).
    split; [|split].
    + rewrite Hw. unfold later. cbn. f_equal. lia.
    + discriminate.
    + intros _. destruct rest as [|next rest'].
      * rewrite (Hnil eq_refl). cbn. do 2 f_equal. lia.
      * rewrite Hcons by discriminate. cbn [tick clock length]. do 2 f_equal. lia.
Qed.

Lemma futures_loop_reads (futures : list (string * Instrument)) (snapshot : gmap string Z) :
  forall (acc : Q) (st' : hedge_locals) (w w' : World),
  for_loop hedge_future futures (acc, Some snapshot) w = (Return st', w') ->
  w' = w /\ st' = (futures_total snapshot futures acc, Some snapshot).
Proof.
  induction futures as [|[future_id future] rest IH]; intros acc st' w w'.
  - cbn. intros [= <- <-]. auto.
  - cbn [for_loop]. unfold bind at 1. unfold hedge_future at 1.
    unfold bind at 1. unfold lift at 1, local.
    unfold bind at 1. unfold lift at 1, subscript.
    destruct (snapshot !! future_id) as [position|] eqn:Hp; try discriminate.
    unfold ret at 1. intros Hrest.
    destruct (IH _ _ _ _ Hrest) as [-> ->]. split; [reflexivity|].
    unfold futures_total. cbn [fold_left fst]. rewrite Hp. reflexivity.
Qed.



Lemma hedge_delta_position_aggregated (fuel : nat) (stock_id : string) (threshold : Q)
    (options futures : list (string * Instrument)) (stock_value : Q)
    (w : World) (agg : Q) (sp : Z) (w1 : World) :
  aggregated lib exchange stock_id threshold options futures stock_value w agg sp w1 ->
  (1 <= threshold)%Q /\
  hedge_delta_position lib exchange fuel stock_id options futures stock_value w
  = hedge_underlying exchange fuel stock_id threshold agg sp w1.
Proof.
  intros [(-> & -> & H)|(-> & -> & H)]; (split; [lra|]);
    unfold hedge_delta_position; cbn [String.eqb Ascii.eqb Bool.eqb];
    unfold bind at 1; rewrite H; reflexivity.
Qed.

Lemma hedge_underlying_polled (fuel : nat) (id : string) (threshold agg : Q) (sp : Z)
    (w w' : World) (r : result PriceBook) :
  (underlying_order_book <- get_last_price_book exchange id ;;
   await_two_sided exchange fuel id underlying_order_book) w = (r, w') ->
  hedge_underlying exchange fuel id threshold agg sp w
  = match r with
    | Return book => place_hedge id threshold agg sp book w'
    | Raise e => (Raise e, w')
    | Spinning => (Spinning, w')
    end.
Proof.
  intros H.
  assert (H' : bind (get_last_price_book exchange id) (await_two_sided exchange fuel id) w
               = (r, w')) by exact H.
  unfold hedge_underlying.
  rewrite <- (bind_assoc (get_last_price_book exchange id) (await_two_sided exchange fuel id)).
  unfold bind at 1. rewrite H'. reflexivity.
Qed.


(** C2, amended.  [hedge_delta_position] does not put the decision off when a
    side of the book is empty: it polls the book again within the same call.
    As long as every poll shows an empty side it does not return, whatever
    the fuel, and it sends nothing; at the first poll that shows two sides it
    hedges against that book, in the same call. *)
Theorem hedge_polls_until_book_has_two_sides (stock_id : string) (threshold : Q)
    (options futures : list (string * Instrument)) (stock_value : Q)
    (w w1 : World) (agg : Q) (sp : Z) :
  aggregated lib exchange stock_id threshold options futures stock_value w agg sp w1 ->
  ((forall j, one_sided_at exchange stock_id (clock w1 + j)) ->
   forall fuel,
     hedge_delta_position lib exchange fuel stock_id options futures stock_value w
     = (Spinning, later w1 (fuel + 1))) /\
  (forall (k fuel : nat) (book : PriceBook),
     (k <= fuel)%nat ->
     (forall j, (j < k)%nat -> one_sided_at exchange stock_id (clock w1 + j)) ->
     two_sided_at exchange stock_id (clock w1 + k) book ->
     hedge_delta_position lib exchange fuel stock_id options futures stock_value w
     = place_hedge stock_id threshold agg sp book (later w1 (k + 1))).
Proof.
  intros Hagg. split.
  - intros Hone fuel.
    destruct (hedge_delta_position_aggregated fuel _ _ _ _ _ _ _ _ _ Hagg) as [_ ->].
    assert (Hpoll := poll_spins stock_id fuel w1 (fun j _ => Hone j)).
    rewrite (hedge_underlying_polled _ _ _ _ _ _ _ _ Hpoll), after_later. reflexivity.
  - intros k fuel book Hk Hone Htwo.
    destruct (hedge_delta_position_aggregated fuel _ _ _ _ _ _ _ _ _ Hagg) as [_ ->].
    assert (Hpoll := poll_returns stock_id k fuel w1 book Hk Hone Htwo).
    rewrite (hedge_underlying_polled _ _ _ _ _ _ _ _ Hpoll), after_later. reflexivity.
Qed.

(** C10.  With no option, the NVDA branch of [hedge_delta_position] raises
    [UnboundLocalError] on [positions] before any call to the exchange.  With
    at least one option, the positions of the futures, of the stock and of
    the dual listing are all read in the snapshot fetched in the last
    iteration over the options; no snapshot is fetched after that loop. *)
Theorem hedge_reads_positions_of_last_option :
  (forall (fuel : nat) (futures : list (string * Instrument)) (stock_value : Q) (w : World),
     hedge_delta_position lib exchange fuel "NVDA" [] futures stock_value w
     = (Raise (UnboundLocalError "positions"), w)) /\
  (forall (options futures : list (string * Instrument)) (stock_value : Q)
          (w w1 : World) (agg : Q) (sp : Z),
     options <> [] ->
     aggregate_NVDA lib exchange "NVDA" options futures stock_value w
     = (Return (agg, sp), w1) ->
     let last := positions_at exchange (clock w + length options - 1) in
     w1 = later w (length options) /\
     exists (agg_options : Q) (dual : Z),
       for_loop (hedge_option lib exchange stock_value) options (0%Q, None) w
       = (Return (agg_options, Some last), w1) /\
       last !! "NVDA" = Some sp /\
       last !! "NVDA_DUAL" = Some dual /\
       agg = (futures_total last futures agg_options + inject_Z sp + inject_Z dual)%Q).
Proof.
  split.
  - intros fuel futures stock_value w.
    unfold hedge_delta_position. cbn [String.eqb Ascii.eqb Bool.eqb].
    unfold bind at 1. unfold aggregate_NVDA.
    unfold bind at 1. cbn [for_loop]. unfold ret at 1.
    destruct futures as [|[future_id future] rest]; reflexivity.
  - intros options futures stock_value w w1 agg sp Hne. unfold aggregate_NVDA.
    unfold bind at 1.
    destruct (for_loop (hedge_option lib exchange stock_value) options (0%Q, None) w)
      as [[[agg_options pv]| |] w0] eqn:Hloop; try discriminate.
    destruct (options_loop_snapshot _ _ _ _ _ _ Hloop) as (Hw0 & _ & Hlast).
    specialize (Hlast Hne). cbn [snd] in Hlast. subst pv.
    set (last := positions_at exchange (clock w + length options - 1)) in *.
    unfold bind at 1.
    destruct (for_loop hedge_future futures (agg_options, Some last) w0)
      as [[st'| |] w0'] eqn:Hfut; try discriminate.
    destruct (futures_loop_reads _ _ _ _ _ _ Hfut) as [-> ->].
    unfold bind at 1. unfold lift at 1, local.
    unfold bind at 1. unfold lift at 1, subscript.
    destruct (last !! "NVDA") as [stock_position|] eqn:Hs; try discriminate.
    unfold bind at 1. unfold lift at 1.
    unfold bind at 1. unfold lift at 1.
    destruct (last !! "NVDA_DUAL") as [dual|] eqn:Hd; try discriminate.
    unfold ret. intros [= <- <- <-].
    split; [assumption|].
    exists agg_options, dual. rewrite Hw0. auto.
Qed.

(** ** The deviation estimate and the valuation *)

(** On an underlying history in the order of time the loop computes the
    estimate of the specification: every trade of the instrument adds the
    squared deviation from the value implied by the nearest underlying trade,
    and its volume to the total of its aggressor side. *)
Lemma deviation_loop_chronological (instrument : Instrument)
    (data_underlying : list TradeTick) :
  chronological data_underlying ->
  data_underlying <> [] ->
  forall (data_instrument : list TradeTick) (st st' : deviation_locals),
  deviation_loop lib instrument data_underlying data_instrument st = Return st' ->
  total_squared_deviation lib instrument data_underlying data_instrument
    (aggregate_squared_deviation st) = Return (aggregate_squared_deviation st') /\
  total_bid_volume st' = total_bid_volume st + aggressed_volume bid data_instrument /\
  total_ask_volume st' = total_ask_volume st + aggressed_volume ask data_instrument.
Proof.
  intros Hchron Hne.
  induction data_instrument as [|line rest IH]; intros st st'.
  - cbn. intros [= <-]. repeat split; lia.
  - cbn [deviation_loop total_squared_deviation]. unfold deviation_step.
    rewrite (nearest_scan_chronological _ _ (nearest st) Hchron Hne).
    destruct (implied_value lib instrument
                (option_map tick_price (nearest_first (timestamp line) data_underlying)))
      as [theoretical_value| |]; cbn [result_bind]; try discriminate.
    intros Hrest. destruct (IH _ _ Hrest) as (Hdev & Hbid & Hask).
    cbn in Hdev, Hbid, Hask. split; [exact Hdev|].
    cbn [aggressed_volume fold_right].
    fold (aggressed_volume bid rest). fold (aggressed_volume ask rest).
    destruct (aggressor_side line); cbn in *; lia.
Qed.

(** C4, amended.  When the history of the instrument is empty,
    [get_quantified_data] raises [ZeroDivisionError]: the loop does not run and
    the first division by the length of the history is reached unguarded. *)
Theorem empty_history_divides_by_zero (underlying : string) (instrument instrument' : Instrument)
    (data_underlying : list TradeTick) (w w1 : World) :
  quantified_histories exchange underlying instrument w
  = (Return (instrument', [], data_underlying), w1) ->
  get_quantified_data lib exchange underlying instrument w = (Raise ZeroDivisionError, w1).
Proof.
  intros H. unfold get_quantified_data. unfold bind at 1. rewrite H. reflexivity.
Qed.

(** C5.  With an option kind that is neither CALL nor PUT,
    [calculate_option_delta] raises the exception of its [else] branch, while
    [calculate_theoretical_option_value], which has no such branch, fails on
    the unassigned [option_value].  With CALL or PUT both return the value of
    the Black-Scholes function of that kind. *)
Theorem unsupported_option_kind (expiry : Z) (strike : Q) (repr : string)
    (stock_value interest_rate volatility : Q) :
  let T := calculate_current_time_to_date lib expiry in
  calculate_option_delta lib expiry strike (NotAKind repr) stock_value interest_rate volatility
  = Raise (Exception (unexpected_kind repr)) /\
  calculate_theoretical_option_value lib expiry strike (NotAKind repr)
    stock_value interest_rate volatility
  = Raise (UnboundLocalError "option_value") /\
  calculate_option_delta lib expiry strike CALL stock_value interest_rate volatility
  = Return (call_delta lib stock_value strike T interest_rate volatility) /\
  calculate_option_delta lib expiry strike PUT stock_value interest_rate volatility
  = Return (put_delta lib stock_value strike T interest_rate volatility) /\
  calculate_theoretical_option_value lib expiry strike CALL stock_value interest_rate volatility
  = Return (call_value lib stock_value strike T interest_rate volatility) /\
  calculate_theoretical_option_value lib expiry strike PUT stock_value interest_rate volatility
  = Return (put_value lib stock_value strike T interest_rate volatility).
Proof. repeat split. Qed.

(** C8, amended.  In exact arithmetic the credit
    [sqrt(d) - (sqrt(d) % 0.1)] is [round_down_to_tick(sqrt(d), 0.1)], the
    largest multiple of the tick that is at most [sqrt(d)]: it is cut down to
    the grid, not rounded to the nearest tick. *)
Theorem credit_floors_to_tick (average_squared_deviation : Q) :
  let s := sqrt lib average_squared_deviation in
  exists c : Q,
    round_down_to_tick s (1 # 10) = Return c /\
    (optimal_credit lib average_squared_deviation == c)%Q /\
    (c <= s)%Q /\ (s < c + (1 # 10))%Q /\
    (exists k : Z, c = (inject_Z k * (1 # 10))%Q) /\
    (forall k : Z, (inject_Z k * (1 # 10) <= s)%Q -> (inject_Z k * (1 # 10) <= c)%Q).
Proof.
  intros s.
  exists (inject_Z (floor (s / (1 # 10))) * (1 # 10))%Q.
  destruct (floor_to_tick s (1 # 10) ltac:(reflexivity)) as (Hle & Hlt & Hmax).
  repeat split; try assumption.
  - unfold optimal_credit, float_mod, floor. fold s. ring.
  - eexists. reflexivity.
Qed.

End Properties.

(* ===================================================================== *)
(** * What the calls send *)
(* ===================================================================== *)

(** The three outcomes of a sequence: the first part returns, raises, or
    is still polling. *)
Lemma bind_inv {A B} (m : M A) (k : A -> M B) (w w' : World) (r : result B) :
  bind m k w = (r, w') ->
  (exists a w1, m w = (Return a, w1) /\ k a w1 = (r, w')) \/
  (exists e, m w = (Raise e, w') /\ r = Raise e) \/
  (m w = (Spinning, w') /\ r = Spinning).
Proof.
  unfold bind. destruct (m w) as [[a|e|] w1]; intros H.
  - left. eauto.
  - injection H as <- <-. right. left. eauto.
  - injection H as <- <-. right. right. auto.
Qed.

Lemma silent_emits {A} (P : Action -> Prop) (m : M A) : silent m -> emits P m.
Proof.
  intros H w w' r Hrun. exists []. rewrite app_nil_r.
  split; [eauto|]. intros a [].
Qed.

Lemma emits_silent {A} (m : M A) : emits (fun _ => False) m -> silent m.
Proof.
  intros H w w' r Hrun. destruct (H _ _ _ Hrun) as (new & Hs & Hn).
  destruct new as [|a new]; [rewrite app_nil_r in Hs; assumption|].
  destruct (Hn a (or_introl eq_refl)).
Qed.

Lemma emits_weaken {A} (P Q : Action -> Prop) (m : M A) :
  (forall a, P a -> Q a) -> emits P m -> emits Q m.
Proof.
  intros HPQ H w w' r Hrun. destruct (H _ _ _ Hrun) as (new & Hs & Hn).
  exists new. auto.
Qed.

Lemma emits_bind {A B} (P : Action -> Prop) (m : M A) (k : A -> M B) :
  emits P m -> (forall a, emits P (k a)) -> emits P (bind m k).
Proof.
  intros Hm Hk w w' r Hrun.
  destruct (bind_inv _ _ _ _ _ Hrun) as [(a & w1 & Hma & Hka)|[(e & Hme & _)|[Hms _]]].
  - destruct (Hm _ _ _ Hma) as (n1 & Hs1 & Hn1).
    destruct (Hk a _ _ _ Hka) as (n2 & Hs2 & Hn2).
    exists (n1 ++ n2)%list. rewrite Hs2, Hs1, app_assoc. split; [reflexivity|].
    intros x Hx. apply in_app_or in Hx as [Hx|Hx]; auto.
  - exact (Hm _ _ _ Hme).
  - exact (Hm _ _ _ Hms).
Qed.

Lemma silent_bind {A B} (m : M A) (k : A -> M B) :
  silent m -> (forall a, silent (k a)) -> silent (bind m k).
Proof.
  intros Hm Hk. apply emits_silent. apply emits_bind.
  - apply silent_emits, Hm.
  - intros a. apply silent_emits, Hk.
Qed.

Lemma silent_ret {A} (a : A) : silent (ret a).
Proof. intros w w' r [= _ <-]. reflexivity. Qed.

Lemma silent_lift {A} (r : result A) : silent (lift r).
Proof. intros w w' r' [= _ <-]. reflexivity. Qed.

Lemma emits_for_loop {A S} (P : Action -> Prop) (body : S -> A -> M S) (l : list A) :
  (forall s x, emits P (body s x)) -> forall s, emits P (for_loop body l s).
Proof.
  intros Hbody. induction l as [|x rest IH]; intros s; cbn [for_loop].
  - apply silent_emits, silent_ret.
  - apply emits_bind; [apply Hbody | apply IH].
Qed.

Section Reads.
Context (exchange : Exchange).

Lemma silent_get_instruments : silent (get_instruments exchange).
Proof. intros w w' r [= _ <-]. reflexivity. Qed.

Lemma silent_get_last_price_book (id : string) : silent (get_last_price_book exchange id).
Proof. intros w w' r [= _ <-]. reflexivity. Qed.

Lemma silent_get_positions : silent (get_positions exchange).
Proof. intros w w' r [= _ <-]. reflexivity. Qed.

Lemma silent_get_trade_tick_history (id : string) :
  silent (get_trade_tick_history exchange id).
Proof. intros w w' r [= _ <-]. reflexivity. Qed.

End Reads.

(* ===================================================================== *)
(** * TickRounder and the weighted midpoint *)
(* ===================================================================== *)

Lemma Qeq_bool_false_pos (t : Q) : (0 < t)%Q -> Qeq_bool t 0 = false.
Proof.
  intros Ht. destruct (Qeq_bool t 0) eqn:E; [|reflexivity].
  apply Qeq_bool_eq in E. lra.
Qed.

Lemma ceil_to_tick (s t : Q) :
  (0 < t)%Q ->
  let c := (inject_Z (ceil (s / t)) * t)%Q in
  (s <= c)%Q /\ (c - t < s)%Q.
Proof.
  intros Ht c. subst c. unfold ceil.
  pose proof (Qle_ceiling (s / t)) as H1.
  pose proof (Qceiling_lt (s / t)) as H2.
  rewrite inject_Z_sub in H2. change (inject_Z 1) with 1%Q in H2.
  assert (Hs : (s == s / t * t)%Q) by (field; lra).
  set (q := (s / t)%Q) in *. set (f := Qceiling q) in *.
  split.
  - rewrite Hs. apply Qmult_le_compat_r; lra.
  - assert (Hlt : ((inject_Z f - 1) * t < q * t)%Q) by (apply Qmult_lt_compat_r; lra).
    rewrite Hs. lra.
Qed.

Lemma round_near (x : Q) :
  (inject_Z (round x) <= x + (1 # 2))%Q /\ (x - (1 # 2) <= inject_Z (round x))%Q.
Proof.
  pose proof (Qfloor_le x) as Hf1.
  pose proof (Qlt_floor x) as Hf2.
  rewrite inject_Z_succ in Hf2.
  destruct (round_cases x) as [[H ->]|[[H ->]|[H ->]]]; rewrite ?inject_Z_succ.
  - split; lra.
  - split; lra.
  - destruct (Z.even (Qfloor x)); rewrite ?inject_Z_succ; split; lra.
Qed.

(** X1.  With a tick size of zero both rounding functions raise
    [ZeroDivisionError].  With a positive tick size both return a whole
    multiple of the tick, and the two bracket the price: the price rounded
    down is at most the price and less than one tick below it, the price
    rounded up is at least the price and less than one tick above it, and the
    two multiples are equal or neighbours. *)
Theorem tick_rounding_brackets_price (price tick_size : Q) :
  (tick_size == 0 ->
   round_down_to_tick price tick_size = Raise ZeroDivisionError /\
   round_up_to_tick price tick_size = Raise ZeroDivisionError)%Q /\
  (0 < tick_size ->
   exists (down up : Z),
     round_down_to_tick price tick_size = Return (inject_Z down * tick_size) /\
     round_up_to_tick price tick_size = Return (inject_Z up * tick_size) /\
     inject_Z down * tick_size <= price /\ price < inject_Z down * tick_size + tick_size /\
     inject_Z up * tick_size - tick_size < price /\ price <= inject_Z up * tick_size /\
     (down <= up <= down + 1)%Z)%Q.
Proof.
  split.
  - intros Hz. unfold round_down_to_tick, round_up_to_tick, divide.
    apply Qeq_bool_iff in Hz. rewrite Hz. split; reflexivity.
  - intros Ht. unfold round_down_to_tick, round_up_to_tick, divide.
    rewrite (Qeq_bool_false_pos _ Ht). cbn [result_bind].
    destruct (floor_to_tick price tick_size Ht) as (Hd1 & Hd2 & _).
    destruct (ceil_to_tick price tick_size Ht) as (Hu1 & Hu2).
    exists (floor (price / tick_size)), (ceil (price / tick_size)).
    repeat split; try assumption.
    + unfold floor, ceil. pose proof (Qle_floor_ceiling (price / tick_size)) as H.
      rewrite <- Zle_Qle in H. exact H.
    + unfold floor, ceil.
      pose proof (Qlt_floor (price / tick_size)) as H1.
      pose proof (Qceiling_lt (price / tick_size)) as H2.
      assert (H : (inject_Z (Qceiling (price / tick_size) - 1)
                   < inject_Z (Qfloor (price / tick_size) + 1))%Q)
        by (eapply Qlt_trans; eassumption).
      rewrite <- Zlt_Qlt in H. lia.
Qed.

Section Midpoint.
Context (exchange : Exchange).

(** X2.  [get_weighted_midpoint_value] makes one call to the exchange,
    whatever its outcome.  It returns [None] exactly when the exchange has no
    book for the instrument or the book has an empty side.  On a two-sided
    book it raises [ZeroDivisionError] when the two best volumes add up to
    zero, and returns a midpoint otherwise. *)
Theorem weighted_midpoint_outcomes (instrument_id : string) (w : World) :
  (forall (r : result (option Q)) (w' : World),
     get_weighted_midpoint_value exchange instrument_id w = (r, w') -> w' = tick w) /\
  (get_weighted_midpoint_value exchange instrument_id w = (Return None, tick w) <->
   match book_at exchange (clock w) instrument_id with
   | Some book => one_sided book = true
   | None => True
   end) /\
  (forall (book : PriceBook) (best_bid best_ask : PriceVolume)
          (other_bids other_asks : list PriceVolume),
     book_at exchange (clock w) instrument_id = Some book ->
     bids book = best_bid :: other_bids ->
     asks book = best_ask :: other_asks ->
     (pv_volume best_bid + pv_volume best_ask = 0 ->
      get_weighted_midpoint_value exchange instrument_id w
      = (Raise ZeroDivisionError, tick w)) /\
     (pv_volume best_bid + pv_volume best_ask <> 0 ->
      exists midpoint : Q,
        get_weighted_midpoint_value exchange instrument_id w
        = (Return (Some midpoint), tick w))).
Proof.
  unfold get_weighted_midpoint_value, bind, get_last_price_book, lift, ret, divide.
  split; [|split].
  - intros r w'.
    destruct (book_at exchange (clock w) instrument_id) as [book|]; [|intros [= _ <-]; reflexivity].
    destruct (bids book) as [|bb bs]; [intros [= _ <-]; reflexivity|].
    destruct (asks book) as [|ba bs']; [intros [= _ <-]; reflexivity|].
    destruct (Qeq_bool _ 0); intros [= _ <-]; reflexivity.
  - destruct (book_at exchange (clock w) instrument_id) as [book|]; [|tauto].
    unfold one_sided.
    destruct (bids book) as [|bb bs]; [cbn; tauto|].
    destruct (asks book) as [|ba bs']; [cbn; tauto|].
    cbn. destruct (Qeq_bool _ 0); split; intros H; discriminate H.
  - intros book best_bid best_ask other_bids other_asks -> -> ->. split.
    + intros Hz.
      assert (Hq : Qeq_bool (inject_Z (pv_volume best_ask + pv_volume best_bid)) 0 = true).
      { apply Qeq_bool_iff. replace (pv_volume best_ask + pv_volume best_bid) with 0 by lia.
        reflexivity. }
      rewrite Hq. reflexivity.
    + intros Hnz.
      assert (Hq : Qeq_bool (inject_Z (pv_volume best_ask + pv_volume best_bid)) 0 = false).
      { apply not_true_is_false. intros E. apply Qeq_bool_iff in E.
        unfold Qeq in E. cbn [Qnum Qden inject_Z] in E. lia. }
      rewrite Hq. eexists. reflexivity.
Qed.

(** X20.  In exact arithmetic: on a two-sided book with positive best
    volumes and a best bid that is not above the best ask, the midpoint
    [get_weighted_midpoint_value] returns lies between the two best prices.
    (On binary64 the rounded quotient can leave the interval by an ulp:
    [Binary64_facts.midpoint_leaves_the_best_prices].) *)
Theorem weighted_midpoint_between_best_prices (instrument_id : string) (w : World)
    (book : PriceBook) (best_bid best_ask : PriceVolume)
    (other_bids other_asks : list PriceVolume) :
  book_at exchange (clock w) instrument_id = Some book ->
  bids book = best_bid :: other_bids ->
  asks book = best_ask :: other_asks ->
  0 < pv_volume best_bid -> 0 < pv_volume best_ask ->
  (pv_price best_bid <= pv_price best_ask)%Q ->
  exists midpoint : Q,
    get_weighted_midpoint_value exchange instrument_id w
    = (Return (Some midpoint), tick w) /\
    (pv_price best_bid <= midpoint)%Q /\ (midpoint <= pv_price best_ask)%Q.
Proof.
  unfold get_weighted_midpoint_value, bind, get_last_price_book, lift, ret, divide.
  intros -> -> -> Hb Ha Hle.
  assert (Hpos : (0 < inject_Z (pv_volume best_ask + pv_volume best_bid))%Q).
  { change 0%Q with (inject_Z 0). rewrite <- Zlt_Qlt. lia. }
  rewrite (Qeq_bool_false_pos _ Hpos).
  eexists. split; [reflexivity|].
  assert (Hvb : (0 < inject_Z (pv_volume best_bid))%Q)
    by (change 0%Q with (inject_Z 0); rewrite <- Zlt_Qlt; lia).
  assert (Hva : (0 < inject_Z (pv_volume best_ask))%Q)
    by (change 0%Q with (inject_Z 0); rewrite <- Zlt_Qlt; lia).
  rewrite inject_Z_plus in *.
  set (vb := inject_Z (pv_volume best_bid)) in *.
  set (va := inject_Z (pv_volume best_ask)) in *.
  split.
  - apply Qle_shift_div_l; [assumption|]. nra.
  - apply Qle_shift_div_r; [assumption|]. nra.
Qed.

End Midpoint.

(* ===================================================================== *)
(** * OrderReconciler and QuoteSubmitter, together *)
(* ===================================================================== *)

Lemma match_order_components (nb na : Q) (va vb : Z) (o : OrderStatus)
    (ua ub : bool) (ia ib : option Z) (uav ubv : bool) :
  match_order nb na va vb (ua, ub, ia, ib, uav, ubv) o
  = (ua && negb (Side_eqb (side o) ask && Qeq_bool (price o) na),
     ub && negb (Side_eqb (side o) bid && Qeq_bool (price o) nb),
     if Side_eqb (side o) ask then Some (order_id o) else ia,
     if Side_eqb (side o) bid then Some (order_id o) else ib,
     uav && negb (Side_eqb (side o) ask && Z.eqb (volume o) va),
     ubv && negb (Side_eqb (side o) bid && Z.eqb (volume o) vb)).
Proof.
  unfold match_order.
  destruct (side o); cbn;
    destruct (Qeq_bool (price o) na), (Qeq_bool (price o) nb),
             (Z.eqb (volume o) va), (Z.eqb (volume o) vb), ua, ub, uav, ubv; reflexivity.
Qed.

Lemma match_order_all (nb na : Q) (va vb : Z) (orders : list OrderStatus) :
  forall (ua ub : bool) (ia ib : option Z) (uav ubv : bool),
  fold_left (match_order nb na va vb) orders (ua, ub, ia, ib, uav, ubv)
  = (ua && negb (quoted_at ask na orders), ub && negb (quoted_at bid nb orders),
     or_else (resting_id ask orders) ia, or_else (resting_id bid orders) ib,
     uav && negb (volume_at ask va orders), ubv && negb (volume_at bid vb orders)).
Proof.
  induction orders as [|o rest IH]; intros ua ub ia ib uav ubv.
  - cbn. rewrite !andb_true_r. reflexivity.
  - cbn [fold_left]. rewrite match_order_components, IH.
    unfold quoted_at, volume_at. cbn [existsb resting_id].
    rewrite !negb_orb, !andb_assoc.
    destruct (resting_id ask rest), (resting_id bid rest), (side o); reflexivity.
Qed.

Section Reconciled.
Context (exchange : Exchange).

Lemma operational_optimazation_all (instrument_id : string)
    (outstanding_orders : list OrderStatus) (suggested_volume : Z)
    (new_bid_price new_ask_price : Q) (w : World) (p : Z) :
  positions_at exchange (clock w) !! instrument_id = Some p ->
  operational_optimazation exchange instrument_id outstanding_orders suggested_volume
    new_bid_price new_ask_price w
  = (Return {|
       optimal_ask_volume := wanted_ask suggested_volume p;
       optimal_bid_volume := wanted_bid suggested_volume p;
       update_ask_price :=
         negb (quoted_at ask new_ask_price outstanding_orders)
         && negb (quoted_at bid new_bid_price outstanding_orders
                  && crosses new_ask_price (resting_price bid outstanding_orders));
       update_bid_price :=
         negb (quoted_at bid new_bid_price outstanding_orders)
         && negb (quoted_at ask new_ask_price outstanding_orders
                  && crosses new_bid_price (resting_price ask outstanding_orders));
       ask_order_id := resting_id ask outstanding_orders;
       bid_order_id := resting_id bid outstanding_orders;
       update_ask_volume :=
         negb (volume_at ask (wanted_ask suggested_volume p) outstanding_orders);
       update_bid_volume :=
         negb (volume_at bid (wanted_bid suggested_volume p) outstanding_orders);
       positions := positions_at exchange (clock w) |},
     tick w).
Proof.
  intros Hp. unfold operational_optimazation.
  rewrite existing_prices_resting.
  unfold bind, get_positions, lift, subscript, ret. rewrite Hp.
  fold (wanted_ask suggested_volume p). fold (wanted_bid suggested_volume p).
  rewrite match_order_all. cbn [andb].
  destruct (resting_id ask outstanding_orders), (resting_id bid outstanding_orders);
    cbn [or_else];
  destruct (quoted_at ask new_ask_price outstanding_orders) eqn:Ha;
    destruct (quoted_at bid new_bid_price outstanding_orders) eqn:Hb; cbn;
    try reflexivity;
    try (destruct (quoted_resting _ _ _ Ha) as [q ->]; cbn;
         destruct (Qeq_bool new_bid_price q); reflexivity);
    try (destruct (quoted_resting _ _ _ Hb) as [q ->]; cbn;
         destruct (Qeq_bool new_ask_price q); reflexivity).
Qed.

Lemma operational_optimazation_missing (instrument_id : string)
    (outstanding_orders : list OrderStatus) (suggested_volume : Z)
    (new_bid_price new_ask_price : Q) (w : World) :
  positions_at exchange (clock w) !! instrument_id = None ->
  operational_optimazation exchange instrument_id outstanding_orders suggested_volume
    new_bid_price new_ask_price w
  = (Raise (KeyError instrument_id), tick w).
Proof.
  intros Hp. unfold operational_optimazation.
  destruct (existing_prices outstanding_orders) as [ea eb].
  unfold bind, get_positions, lift, subscript. rewrite Hp. reflexivity.
Qed.

Lemma deletions_none (instrument_id : string) (ia ib : option Z)
    (orders : list (Z * OrderStatus)) :
  deletions instrument_id false ia false ib orders = [].
Proof.
  unfold deletions. induction orders as [|e rest IH]; [reflexivity|].
  cbn [List.filter]. unfold stale at 1. cbn. exact IH.
Qed.

Lemma deletions_no_id (instrument_id : string) (ua ub : bool)
    (orders : list (Z * OrderStatus)) :
  deletions instrument_id ua None ub None orders = [].
Proof.
  unfold deletions. induction orders as [|e rest IH]; [reflexivity|].
  cbn [List.filter]. unfold stale at 1. cbn. rewrite !andb_false_r. exact IH.
Qed.

Lemma update_quotes_outcome (instrument_id : string) (theoretical_price credit : Q)
    (optimal_ask_volume optimal_bid_volume position_limit : Z) (tick_size : Q)
    (update_ask_price : bool) (ask_order_id : option Z)
    (update_bid_price : bool) (bid_order_id : option Z)
    (update_ask_volume update_bid_volume : bool) (w : World) :
  let pulled := deletions instrument_id update_ask_price ask_order_id
                  update_bid_price bid_order_id
                  (outstanding_at exchange (clock w) instrument_id) in
  update_quotes exchange instrument_id theoretical_price credit
    optimal_ask_volume optimal_bid_volume position_limit tick_size
    update_ask_price ask_order_id update_bid_price bid_order_id
    update_ask_volume update_bid_volume w
  = if Qeq_bool tick_size 0 then (Raise ZeroDivisionError, after w pulled 1)
    else match positions_at exchange (clock w + 1 + length pulled) !! instrument_id with
         | None => (Raise (KeyError instrument_id), after w pulled 2)
         | Some position =>
             (Return tt,
              after w
                (pulled
                 ++ side_actions instrument_id bid
                      (inject_Z (floor ((theoretical_price - credit) / tick_size)) * tick_size)%Q
                      (Z.min optimal_bid_volume (position_limit - position))
                      update_bid_price bid_order_id update_bid_volume
                 ++ side_actions instrument_id ask
                      (inject_Z (ceil ((theoretical_price + credit) / tick_size)) * tick_size)%Q
                      (Z.min optimal_ask_volume (position_limit + position))
                      update_ask_price ask_order_id update_ask_volume) 2)
         end.
Proof.
  intros pulled.
  destruct (Qeq_bool tick_size 0) eqn:Htick.
  - unfold update_quotes.
    unfold bind at 1. unfold get_outstanding_orders at 1.
    unfold bind at 1. rewrite pull_stale_orders. fold pulled.
    unfold round_down_to_tick, divide. rewrite Htick.
    unfold bind at 1. unfold lift at 1. cbn [result_bind].
    rewrite tick_after, after_after. reflexivity.
  - destruct (positions_at exchange (clock w + 1 + length pulled) !! instrument_id)
      as [position|] eqn:Hpos.
    + apply update_quotes_run; assumption.
    + unfold update_quotes.
      unfold bind at 1. unfold get_outstanding_orders at 1.
      unfold bind at 1. rewrite pull_stale_orders. fold pulled.
      unfold round_down_to_tick, round_up_to_tick, divide. rewrite Htick.
      unfold bind at 1. unfold lift at 1. cbn [result_bind].
      unfold bind at 1. unfold lift at 1.
      unfold bind at 1. unfold get_positions at 1.
      rewrite tick_after, after_after, !tick_after, !after_after. cbn [app Nat.add].
      replace (clock (after w pulled 1)) with (clock w + 1 + length pulled)%nat by reflexivity.
      unfold bind at 1. unfold lift at 1, subscript. rewrite Hpos.
      rewrite app_nil_r. reflexivity.
Qed.

End Reconciled.

Ltac submit_fields :=
  unfold submit;
  cbn [optimal_ask_volume optimal_bid_volume update_ask_price update_bid_price
       ask_order_id bid_order_id update_ask_volume update_bid_volume].

Section Submit.
Context (exchange : Exchange).

Lemma side_actions_quote (instrument_id : string) (s : Side) (p : Q) (v : Z)
    (update_price : bool) (outstanding : option Z) (update_volume : bool) :
  (length (side_actions instrument_id s p v update_price outstanding update_volume) <= 1)%nat /\
  forall a, In a (side_actions instrument_id s p v update_price outstanding update_volume) ->
    0 < v /\
    (a = insert_order_ instrument_id p v s limit \/ a = amend_order_ instrument_id outstanding v).
Proof.
  unfold side_actions.
  destruct (Z.gtb_spec v 0) as [Hv|Hv]; cbn [andb].
  - destruct update_price; cbn [negb andb].
    + split; [cbn; lia|]. intros a [<-|[]]. auto.
    + destruct update_volume; (split; [cbn; lia|]); [|intros a []].
      intros a [<-|[]]. auto.
  - split; [cbn; lia|]. intros a [].
Qed.

Lemma side_actions_kept (instrument_id : string) (s : Side) (p : Q) (v : Z)
    (outstanding : option Z) :
  side_actions instrument_id s p v false outstanding false = [].
Proof. unfold side_actions. rewrite !andb_false_r. reflexivity. Qed.

(** X3.  When [update_quotes] fails, on a tick size of zero or on an
    instrument that is missing from the positions, the deletions of the stale
    orders have been sent already, and nothing else: the quotes are pulled
    and not replaced. *)
Theorem update_quotes_fails_after_pulling
    (instrument_id : string) (theoretical_price credit : Q)
    (optimal_ask_volume optimal_bid_volume position_limit : Z) (tick_size : Q)
    (update_ask_price : bool) (ask_order_id : option Z)
    (update_bid_price : bool) (bid_order_id : option Z)
    (update_ask_volume update_bid_volume : bool) (w : World) :
  let pulled := deletions instrument_id update_ask_price ask_order_id
                  update_bid_price bid_order_id
                  (outstanding_at exchange (clock w) instrument_id) in
  let run := update_quotes exchange instrument_id theoretical_price credit
               optimal_ask_volume optimal_bid_volume position_limit tick_size
               update_ask_price ask_order_id update_bid_price bid_order_id
               update_ask_volume update_bid_volume w in
  ((tick_size == 0)%Q ->
   fst run = Raise ZeroDivisionError /\ sent (snd run) = (sent w ++ pulled)%list) /\
  (~ (tick_size == 0)%Q ->
   positions_at exchange (clock w + 1 + length pulled) !! instrument_id = None ->
   fst run = Raise (KeyError instrument_id) /\ sent (snd run) = (sent w ++ pulled)%list).
Proof.
  intros pulled run. subst run. rewrite update_quotes_outcome. fold pulled. split.
  - intros Hz. apply Qeq_bool_iff in Hz. rewrite Hz. split; reflexivity.
  - intros Hnz Hpos.
    destruct (Qeq_bool tick_size 0) eqn:E; [apply Qeq_bool_iff in E; contradiction|].
    rewrite Hpos. split; reflexivity.
Qed.

(** X4.  In exact arithmetic: with a positive tick size and a credit that is
    not negative, every limit order [update_quotes] inserts, whatever its
    outcome, is priced away from the theoretical price: a bid at most
    [theoretical_price - credit] and less than one tick below it, an ask at
    least [theoretical_price + credit] and less than one tick above it; so no
    bid is above the theoretical price and no ask below it.  (On binary64 the
    rounded price can lie an ulp on the other side, or a tick farther:
    [Binary64_facts.rounding_leaves_the_exact_tick].) *)
Theorem quotes_straddle_theoretical_price
    (instrument_id : string) (theoretical_price credit : Q)
    (optimal_ask_volume optimal_bid_volume position_limit : Z) (tick_size : Q)
    (update_ask_price : bool) (ask_order_id : option Z)
    (update_bid_price : bool) (bid_order_id : option Z)
    (update_ask_volume update_bid_volume : bool) (w w' : World) (res : result unit) :
  (0 < tick_size)%Q -> (0 <= credit)%Q ->
  update_quotes exchange instrument_id theoretical_price credit
    optimal_ask_volume optimal_bid_volume position_limit tick_size
    update_ask_price ask_order_id update_bid_price bid_order_id
    update_ask_volume update_bid_volume w = (res, w') ->
  exists new,
    sent w' = (sent w ++ new)%list /\
    forall id p v s t, In (insert_order_ id p v s t) new ->
      (s = bid -> p <= theoretical_price - credit /\ theoretical_price - credit < p + tick_size
                  /\ p <= theoretical_price)%Q /\
      (s = ask -> theoretical_price + credit <= p /\ p - tick_size < theoretical_price + credit
                  /\ theoretical_price <= p)%Q.
Proof.
  intros Htick Hcredit. rewrite update_quotes_outcome.
  set (pulled := deletions instrument_id update_ask_price ask_order_id
                   update_bid_price bid_order_id
                   (outstanding_at exchange (clock w) instrument_id)).
  assert (Hpulled : forall id p v s t, ~ In (insert_order_ id p v s t) pulled).
  { intros id p v s t Ha. unfold pulled, deletions in Ha.
    apply in_map_iff in Ha as (e & He & _). discriminate He. }
  rewrite (Qeq_bool_false_pos _ Htick).
  destruct (positions_at exchange (clock w + 1 + length pulled) !! instrument_id) as [position|].
  2:{ intros [= <- <-]. exists pulled. split; [reflexivity|].
      intros id p v s t Hin. destruct (Hpulled _ _ _ _ _ Hin). }
  destruct (floor_to_tick (theoretical_price - credit) tick_size Htick) as (Hd1 & Hd2 & _).
  destruct (ceil_to_tick (theoretical_price + credit) tick_size Htick) as (Hu1 & Hu2).
  set (pb := (inject_Z (floor ((theoretical_price - credit) / tick_size)) * tick_size)%Q) in *.
  set (pa := (inject_Z (ceil ((theoretical_price + credit) / tick_size)) * tick_size)%Q) in *.
  clearbody pb pa.
  intros [= <- <-]. eexists. split; [reflexivity|].
  intros id p v s t Hin.
  apply in_app_or in Hin as [Hin|Hin]; [destruct (Hpulled _ _ _ _ _ Hin)|].
  apply in_app_or in Hin as [Hin|Hin];
    apply side_actions_quote in Hin as [_ [Heq|Heq]]; try discriminate Heq;
    injection Heq as -> -> -> -> ->; split; intros Hs; try discriminate Hs;
    repeat split; try assumption; lra.
Qed.

(** X5.  [operational_optimazation] makes one call to the exchange, for the
    positions, and sends nothing.  It raises [KeyError] exactly when the
    instrument is missing from the positions; otherwise it returns, with that
    snapshot of the positions and, as order ids, the ids of the last resting
    order of each side. *)
Theorem reconciler_fails_only_on_missing_position (instrument_id : string)
    (outstanding_orders : list OrderStatus) (suggested_volume : Z)
    (new_bid_price new_ask_price : Q) (w : World) :
  let run := operational_optimazation exchange instrument_id outstanding_orders
               suggested_volume new_bid_price new_ask_price w in
  snd run = tick w /\
  match positions_at exchange (clock w) !! instrument_id with
  | Some p =>
      exists r, fst run = Return r /\ positions r = positions_at exchange (clock w) /\
                ask_order_id r = resting_id ask outstanding_orders /\
                bid_order_id r = resting_id bid outstanding_orders
  | None => fst run = Raise (KeyError instrument_id)
  end.
Proof.
  intros run. subst run.
  destruct (positions_at exchange (clock w) !! instrument_id) as [p|] eqn:Hp.
  - rewrite (operational_optimazation_all _ _ _ _ _ _ _ _ Hp). split; [reflexivity|].
    eexists. split; [reflexivity|]. cbn. auto.
  - rewrite (operational_optimazation_missing _ _ _ _ _ _ _ Hp). split; reflexivity.
Qed.

(** X6.  When an order rests on each side at the new price of that side and
    for the volume wanted there, [update_quotes], called with what the
    reconciler returned, sends nothing, whatever its other arguments and its
    outcome: the resting quotes are kept. *)
Theorem matching_quote_is_kept (instrument_id : string)
    (outstanding_orders : list OrderStatus) (suggested_volume : Z)
    (new_bid_price new_ask_price : Q) (w : World) (p : Z) :
  positions_at exchange (clock w) !! instrument_id = Some p ->
  quoted_at bid new_bid_price outstanding_orders = true ->
  quoted_at ask new_ask_price outstanding_orders = true ->
  volume_at bid (wanted_bid suggested_volume p) outstanding_orders = true ->
  volume_at ask (wanted_ask suggested_volume p) outstanding_orders = true ->
  exists r,
    operational_optimazation exchange instrument_id outstanding_orders suggested_volume
      new_bid_price new_ask_price w = (Return r, tick w) /\
    forall (theoretical_price credit : Q) (position_limit : Z) (tick_size : Q)
           (w1 w2 : World) (res : result unit),
      submit exchange instrument_id theoretical_price credit position_limit tick_size r w1
      = (res, w2) ->
      sent w2 = sent w1.
Proof.
  intros Hp Hb Ha Hvb Hva.
  rewrite (operational_optimazation_all _ _ _ _ _ _ _ _ Hp).
  eexists. split; [reflexivity|].
  intros tp credit lim tk w1 w2 res. submit_fields.
  rewrite update_quotes_outcome. rewrite Hb, Ha, Hvb, Hva. cbn [negb andb].
  rewrite deletions_none.
  intros H. apply (f_equal snd) in H. cbn [snd] in H. rewrite <- H.
  destruct (Qeq_bool tk 0); [cbn; apply app_nil_r|].
  destruct (positions_at exchange (clock w1 + 1 + length []) !! instrument_id);
    rewrite ?side_actions_kept; cbn; apply app_nil_r.
Qed.

(** X7.  When an order rests on each side at the new price but no order of
    either side has the wanted volume, [update_quotes], called with what the
    reconciler returned, on a tick size that is not zero and with the
    position of the instrument present, amends the resting order of each side
    whose capped volume is positive to that volume, and sends nothing else:
    no order is deleted or inserted, and a side whose capped volume is not
    positive is left as it is. *)
Theorem volume_change_is_amended_in_place (instrument_id : string)
    (outstanding_orders : list OrderStatus) (suggested_volume : Z)
    (new_bid_price new_ask_price : Q) (w : World) (p : Z) :
  positions_at exchange (clock w) !! instrument_id = Some p ->
  quoted_at bid new_bid_price outstanding_orders = true ->
  quoted_at ask new_ask_price outstanding_orders = true ->
  volume_at bid (wanted_bid suggested_volume p) outstanding_orders = false ->
  volume_at ask (wanted_ask suggested_volume p) outstanding_orders = false ->
  exists r,
    operational_optimazation exchange instrument_id outstanding_orders suggested_volume
      new_bid_price new_ask_price w = (Return r, tick w) /\
    forall (theoretical_price credit : Q) (position_limit : Z) (tick_size : Q)
           (w1 : World) (position : Z),
      ~ (tick_size == 0)%Q ->
      positions_at exchange (clock w1 + 1) !! instrument_id = Some position ->
      let bid_volume := Z.min (wanted_bid suggested_volume p) (position_limit - position) in
      let ask_volume := Z.min (wanted_ask suggested_volume p) (position_limit + position) in
      sends (submit exchange instrument_id theoretical_price credit position_limit
               tick_size r w1) w1
        (when (bid_volume >? 0)
           (amend_order_ instrument_id (resting_id bid outstanding_orders) bid_volume)
         ++ when (ask_volume >? 0)
              (amend_order_ instrument_id (resting_id ask outstanding_orders) ask_volume)).
Proof.
  intros Hp Hb Ha Hvb Hva.
  rewrite (operational_optimazation_all _ _ _ _ _ _ _ _ Hp).
  eexists. split; [reflexivity|].
  intros tp credit lim tk w1 position Htk Hpos bid_volume ask_volume. submit_fields.
  rewrite update_quotes_outcome. rewrite Hb, Ha, Hvb, Hva. cbn [negb andb].
  rewrite deletions_none. cbn [length]. rewrite Nat.add_0_r, Hpos.
  destruct (Qeq_bool tk 0) eqn:E; [apply Qeq_bool_iff in E; contradiction|].
  unfold side_actions. rewrite !andb_false_r. fold bid_volume ask_volume.
  destruct (bid_volume >? 0), (ask_volume >? 0); split; reflexivity.
Qed.

(** X8.  With no resting order, [update_quotes], called with what the
    reconciler returned, on a tick size that is not zero and with the
    position of the instrument present, inserts a limit order on each side
    whose capped volume is positive: a bid at the price [round_down_to_tick]
    returns for [theoretical_price - credit], an ask at the price
    [round_up_to_tick] returns for [theoretical_price + credit], each for the
    capped volume of its side; and it sends nothing else.  The prices are
    named by the calls they come from, which the model evaluates in exact
    arithmetic. *)
Theorem first_quote_is_inserted_on_each_side (instrument_id : string)
    (suggested_volume : Z) (new_bid_price new_ask_price : Q) (w : World) (p : Z) :
  positions_at exchange (clock w) !! instrument_id = Some p ->
  exists r,
    operational_optimazation exchange instrument_id [] suggested_volume
      new_bid_price new_ask_price w = (Return r, tick w) /\
    forall (theoretical_price credit : Q) (position_limit : Z) (tick_size : Q)
           (w1 : World) (position : Z),
      ~ (tick_size == 0)%Q ->
      positions_at exchange (clock w1 + 1) !! instrument_id = Some position ->
      let bid_volume := Z.min (wanted_bid suggested_volume p) (position_limit - position) in
      let ask_volume := Z.min (wanted_ask suggested_volume p) (position_limit + position) in
      exists bid_price ask_price : Q,
        round_down_to_tick (theoretical_price - credit) tick_size = Return bid_price /\
        round_up_to_tick (theoretical_price + credit) tick_size = Return ask_price /\
        sends (submit exchange instrument_id theoretical_price credit position_limit
                 tick_size r w1) w1
          (when (bid_volume >? 0)
             (insert_order_ instrument_id bid_price bid_volume bid limit)
           ++ when (ask_volume >? 0)
                (insert_order_ instrument_id ask_price ask_volume ask limit)).
Proof.
  intros Hp.
  rewrite (operational_optimazation_all _ _ _ _ _ _ _ _ Hp).
  eexists. split; [reflexivity|].
  intros tp credit lim tk w1 position Htk Hpos bid_volume ask_volume. submit_fields.
  rewrite update_quotes_outcome.
  rewrite deletions_no_id. cbn [length]. rewrite Nat.add_0_r, Hpos.
  unfold round_down_to_tick, round_up_to_tick, divide.
  destruct (Qeq_bool tk 0) eqn:E; [apply Qeq_bool_iff in E; contradiction|].
  cbn [result_bind]. eexists _, _. split; [reflexivity|]. split; [reflexivity|].
  unfold side_actions. fold bid_volume ask_volume.
  destruct (bid_volume >? 0), (ask_volume >? 0); split; reflexivity.
Qed.

(** X9.  With a bid and an ask resting at prices other than the new ones,
    [update_quotes], called with what the reconciler returned, on a tick size
    that is not zero and with the position of the instrument present,
    deletes both orders and then inserts a limit order on each side whose
    capped volume is positive: a bid at the price [round_down_to_tick]
    returns for [theoretical_price - credit], an ask at the price
    [round_up_to_tick] returns for [theoretical_price + credit], each for the
    capped volume of its side.  A side whose capped volume is not positive
    loses its order and gets none.  The prices are named by the calls they
    come from, which the model evaluates in exact arithmetic. *)
Theorem repricing_cancels_then_replaces (instrument_id : string)
    (resting_bid resting_ask : OrderStatus) (suggested_volume : Z)
    (new_bid_price new_ask_price : Q) (w : World) (p : Z) :
  positions_at exchange (clock w) !! instrument_id = Some p ->
  side resting_bid = bid -> side resting_ask = ask ->
  ~ (price resting_bid == new_bid_price)%Q ->
  ~ (price resting_ask == new_ask_price)%Q ->
  exists r,
    operational_optimazation exchange instrument_id [resting_bid; resting_ask]
      suggested_volume new_bid_price new_ask_price w = (Return r, tick w) /\
    forall (theoretical_price credit : Q) (position_limit : Z) (tick_size : Q)
           (w1 : World) (position : Z) (bid_key ask_key : Z),
      ~ (tick_size == 0)%Q ->
      outstanding_at exchange (clock w1) instrument_id
      = [(bid_key, resting_bid); (ask_key, resting_ask)] ->
      positions_at exchange (clock w1 + 1 + 2) !! instrument_id = Some position ->
      let bid_volume := Z.min (wanted_bid suggested_volume p) (position_limit - position) in
      let ask_volume := Z.min (wanted_ask suggested_volume p) (position_limit + position) in
      exists bid_price ask_price : Q,
        round_down_to_tick (theoretical_price - credit) tick_size = Return bid_price /\
        round_up_to_tick (theoretical_price + credit) tick_size = Return ask_price /\
        sends (submit exchange instrument_id theoretical_price credit position_limit
                 tick_size r w1) w1
          ([delete_order_ instrument_id bid_key; delete_order_ instrument_id ask_key]
           ++ when (bid_volume >? 0)
                (insert_order_ instrument_id bid_price bid_volume bid limit)
           ++ when (ask_volume >? 0)
                (insert_order_ instrument_id ask_price ask_volume ask limit)).
Proof.
  intros Hp Hsb Hsa Hpb Hpa.
  rewrite (operational_optimazation_all _ _ _ _ _ _ _ _ Hp).
  eexists. split; [reflexivity|].
  intros tp credit lim tk w1 position kb ka Htk Hout Hpos bid_volume ask_volume.
  submit_fields.
  rewrite update_quotes_outcome. rewrite Hout.
  assert (Eb : Qeq_bool (price resting_bid) new_bid_price = false).
  { apply not_true_is_false. intros E. apply Qeq_bool_iff in E. contradiction. }
  assert (Ea : Qeq_bool (price resting_ask) new_ask_price = false).
  { apply not_true_is_false. intros E. apply Qeq_bool_iff in E. contradiction. }
  unfold quoted_at. cbn. rewrite Hsb, Hsa. cbn. rewrite Eb, Ea. cbn.
  unfold deletions, stale. cbn. rewrite !Z.eqb_refl, !orb_true_r. cbn.
  rewrite Hpos.
  unfold round_down_to_tick, round_up_to_tick, divide.
  destruct (Qeq_bool tk 0) eqn:E; [apply Qeq_bool_iff in E; contradiction|].
  cbn [result_bind]. eexists _, _. split; [reflexivity|]. split; [reflexivity|].
  unfold side_actions. fold bid_volume ask_volume.
  destruct (bid_volume >? 0), (ask_volume >? 0); split; reflexivity.
Qed.

End Submit.

(* ===================================================================== *)
(** * HedgeEngine *)
(* ===================================================================== *)

Section Hedge_steps.
Context (lib : Libs) (exchange : Exchange).

Lemma silent_hedge_option (stock_value : Q) (st : hedge_locals) (entry : string * Instrument) :
  silent (hedge_option lib exchange stock_value st entry).
Proof.
  destruct st as [agg pv], entry as [option_id opt]. unfold hedge_option.
  apply silent_bind; [apply silent_get_positions|]. intros positions.
  apply silent_bind; [apply silent_lift|]. intros delta.
  apply silent_bind; [apply silent_lift|]. intros position.
  apply silent_ret.
Qed.

Lemma silent_hedge_future (st : hedge_locals) (entry : string * Instrument) :
  silent (hedge_future st entry).
Proof.
  destruct st as [agg pv], entry as [future_id fut]. unfold hedge_future.
  apply silent_bind; [apply silent_lift|]. intros positions.
  apply silent_bind; [apply silent_lift|]. intros position.
  apply silent_ret.
Qed.

Lemma silent_for_loop {A S} (body : S -> A -> M S) (l : list A) :
  (forall s x, silent (body s x)) -> forall s, silent (for_loop body l s).
Proof.
  intros Hbody s. apply emits_silent. apply emits_for_loop.
  intros s' x. apply silent_emits, Hbody.
Qed.

Lemma silent_aggregate_NVDA (stock_id : string) (options futures : list (string * Instrument))
    (stock_value : Q) :
  silent (aggregate_NVDA lib exchange stock_id options futures stock_value).
Proof.
  unfold aggregate_NVDA.
  apply silent_bind; [apply silent_for_loop; intros; apply silent_hedge_option|]. intros st.
  apply silent_bind; [apply silent_for_loop; intros; apply silent_hedge_future|].
  intros [agg pv].
  apply silent_bind; [apply silent_lift|]. intros positions.
  apply silent_bind; [apply silent_lift|]. intros sp.
  apply silent_bind; [apply silent_lift|]. intros positions'.
  apply silent_bind; [apply silent_lift|]. intros dual.
  apply silent_ret.
Qed.

Lemma silent_aggregate_SAN (stock_id : string) : silent (aggregate_SAN exchange stock_id).
Proof.
  unfold aggregate_SAN.
  apply silent_bind; [apply silent_get_positions|]. intros positions.
  apply silent_bind; [apply silent_lift|]. intros sp.
  apply silent_bind; [apply silent_lift|]. intros dual.
  apply silent_ret.
Qed.

Lemma silent_await_two_sided (fuel : nat) (id : string) :
  forall book, silent (await_two_sided exchange fuel id book).
Proof.
  induction fuel as [|fuel IH]; intros book; cbn [await_two_sided].
  - apply silent_bind; [apply silent_lift|]. intros b.
    destruct (is_empty (bids b) || is_empty (asks b)); [apply silent_lift|apply silent_ret].
  - apply silent_bind; [apply silent_lift|]. intros b.
    destruct (is_empty (bids b) || is_empty (asks b)); [|apply silent_ret].
    apply silent_bind; [apply silent_get_last_price_book|]. apply IH.
Qed.

(** What [place_hedge] can do: nothing, or one order. *)
Lemma place_hedge_outcome (id : string) (threshold agg : Q) (sp : Z) (book : PriceBook)
    (w w' : World) (r : result unit) :
  place_hedge id threshold agg sp book w = (r, w') ->
  sent w' = sent w \/
  (r = Return tt /\
   exists best,
     (threshold < agg)%Q /\ In best (bids book) /\
     0 < Z.min (Z.abs (round agg)) (100 + sp) /\
     sent w' = (sent w ++ [insert_order_ id (pv_price best)
                             (Z.min (Z.abs (round agg)) (100 + sp)) ask ioc])%list) \/
  (r = Return tt /\
   exists best,
     (agg < - threshold)%Q /\ In best (asks book) /\
     0 < Z.min (Z.abs (round agg)) (100 - sp) /\
     sent w' = (sent w ++ [insert_order_ id (pv_price best)
                             (Z.min (Z.abs (round agg)) (100 - sp)) bid ioc])%list).
Proof.
  unfold place_hedge.
  destruct (Qgtb agg threshold && (Z.min (Z.abs (round agg)) (100 + sp) >? 0)) eqn:Hsell.
  - apply andb_true_iff in Hsell as [Hg Hv]. apply Qgtb_spec in Hg. apply Z.gtb_lt in Hv.
    unfold bind, lift, first_item, insert_order.
    destruct (bids book) as [|best others]; [intros [= _ <-]; left; reflexivity|].
    rewrite emit_after. intros [= <- <-]. right. left. split; [reflexivity|].
    exists best. repeat split; auto. left. reflexivity.
  - destruct (Qltb agg (- threshold) && (Z.min (Z.abs (round agg)) (100 - sp) >? 0)) eqn:Hbuy.
    + apply andb_true_iff in Hbuy as [Hl Hv]. apply Qltb_spec in Hl. apply Z.gtb_lt in Hv.
      unfold bind, lift, first_item, insert_order.
      destruct (asks book) as [|best others]; [intros [= _ <-]; left; reflexivity|].
      rewrite emit_after. intros [= <- <-]. right. right. split; [reflexivity|].
      exists best. repeat split; auto. left. reflexivity.
    + intros [= _ <-]. left. reflexivity.
Qed.

(** The same through [hedge_underlying]: the polls send nothing. *)
Lemma hedge_underlying_outcome (fuel : nat) (id : string) (threshold agg : Q) (sp : Z)
    (w w' : World) (r : result unit) :
  hedge_underlying exchange fuel id threshold agg sp w = (r, w') ->
  sent w' = sent w \/
  (r = Return tt /\
   exists p,
     (threshold < agg)%Q /\ 0 < Z.min (Z.abs (round agg)) (100 + sp) /\
     sent w' = (sent w ++ [insert_order_ id p
                             (Z.min (Z.abs (round agg)) (100 + sp)) ask ioc])%list) \/
  (r = Return tt /\
   exists p,
     (agg < - threshold)%Q /\ 0 < Z.min (Z.abs (round agg)) (100 - sp) /\
     sent w' = (sent w ++ [insert_order_ id p
                             (Z.min (Z.abs (round agg)) (100 - sp)) bid ioc])%list).
Proof.
  unfold hedge_underlying. intros H.
  apply bind_inv in H as [(b0 & w1 & Hpoll & H)|[(e & H & _)|[H _]]].
  2:{ left. exact (silent_get_last_price_book exchange id _ _ _ H). }
  2:{ left. exact (silent_get_last_price_book exchange id _ _ _ H). }
  apply (silent_get_last_price_book exchange id) in Hpoll.
  apply bind_inv in H as [(book & w2 & Hawait & H)|[(e & H & _)|[H _]]].
  2:{ left. apply silent_await_two_sided in H. congruence. }
  2:{ left. apply silent_await_two_sided in H. congruence. }
  apply silent_await_two_sided in Hawait.
  assert (Hs : sent w2 = sent w) by congruence.
  apply place_hedge_outcome in H. rewrite Hs in H.
  destruct H as [H|[(-> & best & ? & ? & ? & ?)|(-> & best & ? & ? & ? & ?)]].
  - left. assumption.
  - right. left. split; [reflexivity|]. exists (pv_price best). auto.
  - right. right. split; [reflexivity|]. exists (pv_price best). auto.
Qed.

End Hedge_steps.

Section Hedge.
Context (lib : Libs) (exchange : Exchange).

Lemma hedge_delta_position_outcome (fuel : nat) (stock_id : string)
    (options futures : list (string * Instrument)) (stock_value : Q)
    (w w' : World) (r : result unit) :
  hedge_delta_position lib exchange fuel stock_id options futures stock_value w = (r, w') ->
  sent w' = sent w \/
  (r = Return tt /\
   exists p v s, 0 < v /\
     sent w' = (sent w ++ [insert_order_ stock_id p v s ioc])%list).
Proof.
  unfold hedge_delta_position.
  destruct (String.eqb stock_id "NVDA") eqn:HN.
  - apply String.eqb_eq in HN. subst stock_id. intros H.
    apply bind_inv in H as [(x & w1 & Hagg & H)|[(e & H & _)|[H _]]].
    2,3: left; exact (silent_aggregate_NVDA lib exchange _ _ _ _ _ _ _ H).
    apply silent_aggregate_NVDA in Hagg.
    apply hedge_underlying_outcome in H. rewrite Hagg in H.
    destruct H as [H|[(-> & p & _ & Hv & H)|(-> & p & _ & Hv & H)]].
    + left. assumption.
    + right. split; [reflexivity|]. eauto.
    + right. split; [reflexivity|]. eauto.
  - destruct (String.eqb stock_id "SAN") eqn:HS; [|intros [= _ <-]; left; reflexivity].
    apply String.eqb_eq in HS. subst stock_id. intros H.
    apply bind_inv in H as [(x & w1 & Hagg & H)|[(e & H & _)|[H _]]].
    2,3: left; exact (silent_aggregate_SAN exchange _ _ _ _ H).
    apply silent_aggregate_SAN in Hagg.
    apply hedge_underlying_outcome in H. rewrite Hagg in H.
    destruct H as [H|[(-> & p & _ & Hv & H)|(-> & p & _ & Hv & H)]].
    + left. assumption.
    + right. split; [reflexivity|]. eauto.
    + right. split; [reflexivity|]. eauto.
Qed.

(** X10.  Whatever its outcome, a call of [hedge_delta_position] sends
    nothing, or it sends exactly one order and returns: an immediate-or-cancel
    order on the stock, for a positive volume.  For a stock other than NVDA
    and SAN it returns at once, without a call to the exchange. *)
Theorem hedge_is_at_most_one_ioc_order (fuel : nat) (stock_id : string)
    (options futures : list (string * Instrument)) (stock_value : Q) (w : World) :
  let run := hedge_delta_position lib exchange fuel stock_id options futures stock_value w in
  (sent (snd run) = sent w \/
   (fst run = Return tt /\
    exists p v s, 0 < v /\
      sent (snd run) = (sent w ++ [insert_order_ stock_id p v s ioc])%list)) /\
  (stock_id <> "NVDA" -> stock_id <> "SAN" -> run = (Return tt, w)).
Proof.
  intros run. split.
  - destruct run as [r w'] eqn:H. cbn [fst snd].
    exact (hedge_delta_position_outcome _ _ _ _ _ _ _ _ H).
  - intros HN HS. subst run. unfold hedge_delta_position.
    apply String.eqb_neq in HN, HS. rewrite HN, HS. reflexivity.
Qed.

Lemma hedge_delta_position_from (fuel : nat) (stock_id : string) (threshold : Q)
    (options futures : list (string * Instrument)) (stock_value : Q)
    (w w1 : World) (agg : Q) (sp : Z) :
  aggregated lib exchange stock_id threshold options futures stock_value w agg sp w1 ->
  hedge_delta_position lib exchange fuel stock_id options futures stock_value w
  = hedge_underlying exchange fuel stock_id threshold agg sp w1 /\ sent w1 = sent w.
Proof.
  intros [(-> & -> & H)|(-> & -> & H)]; unfold hedge_delta_position; cbn [String.eqb Ascii.eqb Bool.eqb andb].
  - split; [|exact (silent_aggregate_NVDA lib exchange _ _ _ _ _ _ _ H)].
    unfold bind at 1. rewrite H. reflexivity.
  - split; [|exact (silent_aggregate_SAN exchange _ _ _ _ H)].
    unfold bind at 1. rewrite H. reflexivity.
Qed.

(** X11.  From the aggregate delta and the stock position a branch of
    [hedge_delta_position] computed: an order the call sends is a sell only
    when the aggregate is above the threshold, for a volume that leaves the
    stock position at -100 or above and is at most the aggregate plus one
    half; or a buy only when the aggregate is below minus the threshold, for a
    volume that leaves the stock position at 100 or below and is at most the
    aggregate's size plus one half.  The hedge trades neither past the
    position limit nor past the rounded delta. *)
Theorem hedge_stays_within_limit_and_delta (fuel : nat) (stock_id : string) (threshold : Q)
    (options futures : list (string * Instrument)) (stock_value : Q)
    (w w1 : World) (agg : Q) (sp : Z) (a : Action) :
  aggregated lib exchange stock_id threshold options futures stock_value w agg sp w1 ->
  In a (skipn (length (sent w))
          (sent (snd (hedge_delta_position lib exchange fuel stock_id options futures
                        stock_value w)))) ->
  exists p v,
    (a = insert_order_ stock_id p v ask ioc /\
     (threshold < agg)%Q /\ - 100 <= sp - v /\ (inject_Z v <= agg + (1 # 2))%Q) \/
    (a = insert_order_ stock_id p v bid ioc /\
     (agg < - threshold)%Q /\ sp + v <= 100 /\ (inject_Z v <= - agg + (1 # 2))%Q).
Proof.
  intros Hagg Ha.
  assert (Hthr : (0 < threshold)%Q) by (destruct Hagg as [(_ & -> & _)|(_ & -> & _)]; reflexivity).
  destruct (hedge_delta_position_from fuel _ _ _ _ _ _ _ _ _ Hagg) as [Heq Hs].
  rewrite Heq in Ha.
  destruct (hedge_underlying exchange fuel stock_id threshold agg sp w1) as [r w'] eqn:H.
  cbn [snd] in Ha.
  apply hedge_underlying_outcome in H. rewrite Hs in H.
  pose proof (round_near agg) as [Hup Hdown].
  destruct H as [H|[(_ & p & Hg & Hv & H)|(_ & p & Hg & Hv & H)]]; rewrite H in Ha.
  - rewrite skipn_all in Ha. destruct Ha.
  - rewrite skipn_app, skipn_all, Nat.sub_diag in Ha. cbn in Ha.
    destruct Ha as [<-|[]]. exists p, (Z.min (Z.abs (round agg)) (100 + sp)). left.
    assert (0 <= round agg) by (apply (round_ge 0); change (inject_Z 0) with 0%Q; lra).
    repeat split; auto; try lia.
    apply Qle_trans with (inject_Z (round agg)); [|assumption].
    rewrite <- Zle_Qle. lia.
  - rewrite skipn_app, skipn_all, Nat.sub_diag in Ha. cbn in Ha.
    destruct Ha as [<-|[]]. exists p, (Z.min (Z.abs (round agg)) (100 - sp)). right.
    assert (0 <= round (- agg)) by (apply (round_ge 0); change (inject_Z 0) with 0%Q; lra).
    pose proof (round_near (- agg)) as [Hup' _].
    rewrite round_opp in *.
    repeat split; auto; try lia.
    apply Qle_trans with (inject_Z (- round agg)); [|assumption].
    rewrite <- Zle_Qle. lia.
Qed.

Lemma options_loop_unsupported (stock_value : Q) (options : list (string * Instrument)) :
  has_unsupported_kind options ->
  forall st w, exists e w',
    for_loop (hedge_option lib exchange stock_value) options st w = (Raise e, w') /\
    sent w' = sent w /\ (clock w' <= clock w + length options)%nat.
Proof.
  intros (entry & repr & Hin & Hkind).
  induction options as [|first rest IH]; [destruct Hin|]. intros [agg pv] w.
  cbn [for_loop length].
  destruct first as [option_id opt].
  unfold bind at 1. unfold hedge_option at 1.
  unfold bind at 1. unfold get_positions at 1. cbn [fst snd].
  unfold bind at 1. unfold lift at 1.
  destruct (calculate_option_delta lib (expiry opt) (strike opt) (option_kind opt)
              stock_value (3 # 100) 3) as [delta|e|] eqn:Hdelta.
  - unfold bind at 1. unfold lift at 1.
    destruct (subscript (positions_at exchange (clock w)) option_id) as [position|e|] eqn:Hpos.
    + unfold ret.
      destruct Hin as [<-|Hin].
      { cbn [snd] in Hkind. rewrite Hkind in Hdelta. discriminate Hdelta. }
      destruct (IH Hin (agg + delta * inject_Z position, Some (positions_at exchange (clock w)))%Q
                  (tick w)) as (e & w' & -> & Hs & Hc).
      exists e, w'. cbn [tick sent clock] in *. repeat split; auto. lia.
    + exists e, (tick w). cbn. repeat split; auto. lia.
    + unfold subscript in Hpos. destruct (_ !! _); discriminate Hpos.
  - exists e, (tick w). cbn. repeat split; auto. lia.
  - unfold calculate_option_delta in Hdelta. destruct (option_kind opt); discriminate Hdelta.
Qed.

(** X12.  When the chain holds an option whose kind is neither CALL nor PUT,
    the NVDA hedge raises an exception, having sent nothing and made at most
    one call to the exchange for each option: no order book is polled. *)
Theorem hedge_fails_on_unsupported_kind (fuel : nat)
    (options futures : list (string * Instrument)) (stock_value : Q) (w : World) :
  has_unsupported_kind options ->
  exists e w',
    hedge_delta_position lib exchange fuel "NVDA" options futures stock_value w = (Raise e, w') /\
    sent w' = sent w /\ (clock w' <= clock w + length options)%nat.
Proof.
  intros H.
  destruct (options_loop_unsupported stock_value options H (0%Q, None) w)
    as (e & w' & Hloop & Hs & Hc).
  exists e, w'. split; [|auto].
  unfold hedge_delta_position. cbn [String.eqb Ascii.eqb Bool.eqb andb].
  unfold bind at 1. unfold aggregate_NVDA. unfold bind at 1. rewrite Hloop. reflexivity.
Qed.

End Hedge.

(* ===================================================================== *)
(** * DeviationEstimator *)
(* ===================================================================== *)

Lemma len_positive {A} (l : list A) : l <> [] -> (0 < len l)%Q.
Proof.
  intros H. unfold len. destruct l as [|x rest]; [contradiction|].
  change 0%Q with (inject_Z 0). rewrite <- Zlt_Qlt. cbn [length]. lia.
Qed.

Lemma len_divides {A} (x : Q) (l : list A) :
  l <> [] -> divide x (len l) = Return (x / len l)%Q.
Proof.
  intros H. unfold divide. rewrite Qeq_bool_false_pos; [reflexivity|].
  apply len_positive, H.
Qed.

Lemma divide_returns (x y q : Q) : divide x y = Return q -> ~ (y == 0)%Q /\ q = (x / y)%Q.
Proof.
  unfold divide. destruct (Qeq_bool y 0) eqn:E; [discriminate|]. intros [= <-].
  split; [|reflexivity]. intros H. apply Qeq_bool_iff in H. congruence.
Qed.

Lemma square_nonneg (x : Q) : (0 <= x ^ 2)%Q.
Proof. change (x ^ 2)%Q with (x * x)%Q. nra. Qed.

Section Deviation.
Context (lib : Libs) (exchange : Exchange).

Lemma silent_quantified_histories (underlying : string) (instrument : Instrument) :
  silent (quantified_histories exchange underlying instrument).
Proof.
  unfold quantified_histories.
  destruct (instrument_type instrument); [destruct (String.eqb underlying "NVDA")| | |];
    repeat first
      [ apply silent_ret | apply silent_lift
      | apply silent_get_instruments | apply silent_get_trade_tick_history
      | apply silent_bind; [|intros ?] ].
Qed.

Lemma silent_get_quantified_data (underlying : string) (instrument : Instrument) :
  silent (get_quantified_data lib exchange underlying instrument).
Proof.
  unfold get_quantified_data.
  apply silent_bind; [apply silent_quantified_histories|]. intros [[i di] du].
  repeat first [ apply silent_ret | apply silent_lift | apply silent_bind; [|intros ?] ].
Qed.

(** The running total only grows, and the loop needs the underlying's price
    for every trade of the instrument. *)
Lemma deviation_loop_grows (instrument : Instrument) (data_underlying : list TradeTick) :
  forall (data_instrument : list TradeTick) (st st' : deviation_locals),
  deviation_loop lib instrument data_underlying data_instrument st = Return st' ->
  (aggregate_squared_deviation st <= aggregate_squared_deviation st')%Q.
Proof.
  induction data_instrument as [|line rest IH]; intros st st'; cbn [deviation_loop].
  - intros [= <-]. lra.
  - unfold deviation_step.
    destruct (implied_value lib instrument _) as [theoretical_value| |];
      cbn [result_bind]; try discriminate.
    intros Hrest. apply IH in Hrest. cbn [aggregate_squared_deviation] in Hrest.
    pose proof (square_nonneg (theoretical_value - tick_price line)). lra.
Qed.

Lemma deviation_loop_chronological_returns (instrument : Instrument)
    (data_underlying : list TradeTick) :
  chronological data_underlying ->
  data_underlying <> [] ->
  forall (data_instrument : list TradeTick) (st : deviation_locals) (total : Q),
  total_squared_deviation lib instrument data_underlying data_instrument
    (aggregate_squared_deviation st) = Return total ->
  exists st', deviation_loop lib instrument data_underlying data_instrument st = Return st'.
Proof.
  intros Hchron Hne.
  induction data_instrument as [|line rest IH]; intros st total.
  - cbn. eauto.
  - cbn [deviation_loop total_squared_deviation]. unfold deviation_step.
    rewrite (nearest_scan_chronological _ _ (nearest st) Hchron Hne).
    destruct (implied_value lib instrument
                (option_map tick_price (nearest_first (timestamp line) data_underlying)))
      as [theoretical_value| |]; cbn [result_bind]; try discriminate.
    intros Hrest. eapply IH. cbn [aggregate_squared_deviation]. exact Hrest.
Qed.


(** X13.  On a history of the underlying that is not empty and in the order
    of time, and a history of the instrument that is not empty,
    [get_quantified_data] returns the mean, over the instrument's trades, of
    the squared difference between the traded price and the value implied by
    the underlying trade nearest in time, with the mean volumes traded by
    aggressor side, whenever every one of these values is defined. *)
Theorem deviation_estimate_on_chronological_history (underlying : string)
    (instrument instrument' : Instrument) (data_instrument data_underlying : list TradeTick)
    (w w1 : World) (total : Q) :
  quantified_histories exchange underlying instrument w
  = (Return (instrument', data_instrument, data_underlying), w1) ->
  data_instrument <> [] ->
  data_underlying <> [] ->
  chronological data_underlying ->
  total_squared_deviation lib instrument' data_underlying data_instrument 0 = Return total ->
  get_quantified_data lib exchange underlying instrument w
  = (Return ((total / len data_instrument)%Q,
             (inject_Z (aggressed_volume ask data_instrument) / len data_instrument)%Q,
             (inject_Z (aggressed_volume bid data_instrument) / len data_instrument)%Q), w1).
Proof.
  intros Hh Hdi Hdu Hchron Htotal.
  set (st0 := {| total_ask_volume := 0; total_bid_volume := 0;
                 aggregate_squared_deviation := 0; nearest := None |}).
  destruct (deviation_loop_chronological_returns instrument' data_underlying Hchron Hdu
              data_instrument st0 total Htotal) as [st' Hloop].
  destruct (deviation_loop_chronological lib instrument' data_underlying Hchron Hdu
              data_instrument st0 st' Hloop) as (Hdev & Hbid & Hask).
  cbn [st0 aggregate_squared_deviation total_bid_volume total_ask_volume] in Hdev, Hbid, Hask.
  rewrite Htotal in Hdev. injection Hdev as Hdev.
  unfold get_quantified_data. unfold bind at 1. rewrite Hh.
  unfold bind at 1. unfold lift at 1. fold st0. rewrite Hloop.
  unfold bind, lift, ret. rewrite !len_divides by assumption.
  rewrite Hbid, Hask, <- Hdev. reflexivity.
Qed.

(** X14.  [get_quantified_data] sends nothing, whatever its outcome, and the
    mean squared deviation it returns is never negative, whatever the
    histories and their order. *)
Theorem deviation_estimate_is_not_negative (underlying : string) (instrument : Instrument)
    (w w' : World) (r : result (Q * Q * Q)) :
  get_quantified_data lib exchange underlying instrument w = (r, w') ->
  sent w' = sent w /\
  forall d va vb, r = Return (d, va, vb) -> (0 <= d)%Q.
Proof.
  intros H. split; [exact (silent_get_quantified_data _ _ _ _ _ H)|].
  intros d va vb ->. unfold get_quantified_data in H.
  apply bind_inv in H as [([[i di] du] & w1 & _ & H)|[(e & _ & [=])|[_ [=]]]].
  apply bind_inv in H as [(st & w2 & Hloop & H)|[(e & _ & [=])|[_ [=]]]].
  injection Hloop as Hloop _. apply deviation_loop_grows in Hloop.
  cbn [aggregate_squared_deviation] in Hloop.
  apply bind_inv in H as [(d' & w3 & Hd & H)|[(e & _ & [=])|[_ [=]]]].
  injection Hd as Hd _. apply divide_returns in Hd as [Hnz ->].
  apply bind_inv in H as [(va' & w4 & _ & H)|[(e & _ & [=])|[_ [=]]]].
  apply bind_inv in H as [(vb' & w5 & _ & H)|[(e & _ & [=])|[_ [=]]]].
  injection H as <- _ _ _.
  assert (Hlen : (0 <= len di)%Q).
  { unfold len. change 0%Q with (inject_Z 0). rewrite <- Zle_Qle. lia. }
  apply Qle_shift_div_l; [|lra].
  destruct (Qlt_le_dec 0 (len di)) as [Hp|Hn]; [assumption|].
  exfalso. apply Hnz. lra.
Qed.

(** X15.  When the instrument has traded and the history of the underlying
    is empty, [get_quantified_data] raises [UnboundLocalError] at the first
    trade of the instrument: [traded_price_underlying] has never been
    assigned ([theoretical_value] for an instrument of a type that no branch
    covers). *)
Theorem trade_without_underlying_trade_fails (underlying : string)
    (instrument instrument' : Instrument) (data_instrument : list TradeTick) (w w1 : World) :
  quantified_histories exchange underlying instrument w
  = (Return (instrument', data_instrument, []), w1) ->
  data_instrument <> [] ->
  get_quantified_data lib exchange underlying instrument w
  = (Raise (UnboundLocalError
              (match instrument_type instrument' with
               | OTHER_INSTRUMENT => "theoretical_value"
               | _ => "traded_price_underlying"
               end)), w1).
Proof.
  intros Hh Hdi. destruct data_instrument as [|line rest]; [contradiction|].
  unfold get_quantified_data. unfold bind at 1. rewrite Hh.
  unfold bind at 1. unfold lift at 1. cbn [deviation_loop]. unfold deviation_step.
  cbn [nearest_scan nearest option_map]. unfold implied_value.
  destruct (instrument_type instrument'); reflexivity.
Qed.

End Deviation.

(* ===================================================================== *)
(** * The strategies and the trade loop *)
(* ===================================================================== *)

Section Strategies.
Context (lib : Libs) (exchange : Exchange).

Lemma emits_update_quotes (instrument_id : string) (theoretical_price credit : Q)
    (optimal_ask_volume optimal_bid_volume position_limit : Z) (tick_size : Q)
    (update_ask_price : bool) (ask_order_id : option Z)
    (update_bid_price : bool) (bid_order_id : option Z)
    (update_ask_volume update_bid_volume : bool) (inventory : Z) :
  optimal_ask_volume <= 45 + Z.abs inventory ->
  optimal_bid_volume <= 45 + Z.abs inventory ->
  emits (sized_quote instrument_id
           (bid_price_of theoretical_price credit tick_size)
           (ask_price_of theoretical_price credit tick_size) inventory)
    (update_quotes exchange instrument_id theoretical_price credit
       optimal_ask_volume optimal_bid_volume position_limit tick_size
       update_ask_price ask_order_id update_bid_price bid_order_id
       update_ask_volume update_bid_volume).
Proof.
  intros Hask Hbid w w' r H. rewrite update_quotes_outcome in H.
  set (pulled := deletions instrument_id update_ask_price ask_order_id
                   update_bid_price bid_order_id
                   (outstanding_at exchange (clock w) instrument_id)) in *.
  assert (Hpulled : forall a, In a pulled ->
            sized_quote instrument_id (bid_price_of theoretical_price credit tick_size)
              (ask_price_of theoretical_price credit tick_size) inventory a).
  { intros a Ha. unfold pulled, deletions in Ha. apply in_map_iff in Ha as (e & <- & _).
    reflexivity. }
  destruct (Qeq_bool tick_size 0).
  { injection H as _ <-. exists pulled. auto. }
  destruct (positions_at exchange (clock w + 1 + length pulled) !! instrument_id) as [position|].
  2:{ injection H as _ <-. exists pulled. auto. }
  injection H as _ <-. eexists. split; [reflexivity|].
  intros a Ha. apply in_app_or in Ha as [Ha|Ha]; [auto|].
  apply in_app_or in Ha as [Ha|Ha];
    apply side_actions_quote in Ha as [Hv [-> | ->]]; cbn; repeat split; auto; lia.
Qed.

Lemma wanted_ask_bound (sv p : Z) : sv <= 45 -> wanted_ask sv p <= 45 + Z.abs p.
Proof. unfold wanted_ask. destruct (p >? 0) eqn:E; lia. Qed.

Lemma wanted_bid_bound (sv p : Z) : sv <= 45 -> wanted_bid sv p <= 45 + Z.abs p.
Proof. unfold wanted_bid. destruct (p >? 0), (p <? 0); lia. Qed.

Lemma capped_at_45 (v : Z) : (if v >? 45 then 45 else v) <= 45.
Proof. destruct (v >? 45) eqn:E; lia. Qed.

Lemma quote_around_sized (instrument_id : string) (theoretical_price : Q)
    (d va vb : Q) (w w' : World) (r : result unit) :
  quote_around lib exchange instrument_id theoretical_price (d, va, vb) w = (r, w') ->
  exists new, sent w' = (sent w ++ new)%list /\
    forall a, In a new ->
      exists inventory,
        positions_at exchange (clock w + 3) !! instrument_id = Some inventory /\
        sized_quote instrument_id
          (bid_price_of theoretical_price (optimal_credit lib d) (1 # 10))
          (ask_price_of theoretical_price (optimal_credit lib d) (1 # 10)) inventory a.
Proof.
  intros H.
  assert (Hfail : sent w' = sent w -> exists new, sent w' = (sent w ++ new)%list /\
    forall a, In a new ->
      exists inventory,
        positions_at exchange (clock w + 3) !! instrument_id = Some inventory /\
        sized_quote instrument_id
          (bid_price_of theoretical_price (optimal_credit lib d) (1 # 10))
          (ask_price_of theoretical_price (optimal_credit lib d) (1 # 10)) inventory a).
  { intros ->. exists []. rewrite app_nil_r. split; [reflexivity|]. intros a []. }
  unfold quote_around in H.
  set (credit := optimal_credit lib d) in *. clearbody credit.
  unfold bind at 1 in H. unfold get_last_price_book at 1 in H. cbn [fst snd] in H.
  unfold bind at 1 in H. unfold lift at 1 in H.
  destruct (attributes (book_at exchange (clock w) instrument_id)) as [book|e|];
    [|injection H as _ <-; apply Hfail; reflexivity..].
  match type of H with
  | context [operational_optimazation _ _ _ ?sv] =>
      set (suggested := sv) in H;
      assert (Hsv : suggested <= 45) by apply capped_at_45;
      clearbody suggested
  end.
  unfold bind at 1 in H. unfold lift at 1 in H.
  destruct (round_down_to_tick (theoretical_price - credit) (1 # 10)) as [nb|e|];
    [|injection H as _ <-; apply Hfail; reflexivity..].
  unfold bind at 1 in H. unfold lift at 1 in H.
  destruct (round_up_to_tick (theoretical_price + credit) (1 # 10)) as [na|e|];
    [|injection H as _ <-; apply Hfail; reflexivity..].
  unfold bind at 1 in H. unfold get_positions at 1 in H. cbn [fst snd] in H.
  unfold bind at 1 in H. unfold lift at 1 in H.
  destruct (subscript (positions_at exchange (clock (tick w))) instrument_id)
    as [instrument_position|e|];
    [|injection H as _ <-; apply Hfail; reflexivity..].
  assert (Hprices : exists res,
            (if instrument_position >? 65
             then b <- lift (round_down_to_tick (theoretical_price - (3 # 2) * credit) (1 # 10)) ;;
                  a <- lift (round_up_to_tick (theoretical_price + (1 # 2) * credit) (1 # 10)) ;;
                  ret (b, a)
             else if instrument_position <? -65
             then b <- lift (round_down_to_tick (theoretical_price - (1 # 2) * credit) (1 # 10)) ;;
                  a <- lift (round_up_to_tick (theoretical_price + (3 # 2) * credit) (1 # 10)) ;;
                  ret (b, a)
             else ret (nb, na)) (tick (tick w)) = (res, tick (tick w))).
  { destruct (instrument_position >? 65); [|destruct (instrument_position <? -65)];
      unfold bind, lift, ret;
      repeat match goal with
             | |- context [round_down_to_tick ?p ?t] => destruct (round_down_to_tick p t)
             | |- context [round_up_to_tick ?p ?t] => destruct (round_up_to_tick p t)
             end; eauto. }
  destruct Hprices as [res Hprices].
  unfold bind at 1 in H. rewrite Hprices in H.
  destruct res as [[nb' na']|e|];
    [|injection H as _ <-; apply Hfail; reflexivity..].
  unfold bind at 1 in H. unfold get_outstanding_orders at 1 in H. cbn [fst snd] in H.
  set (w3 := tick (tick (tick w))) in *.
  set (orders := map snd _) in H. clearbody orders.
  unfold bind at 1 in H.
  destruct (positions_at exchange (clock w3) !! instrument_id) as [inventory|] eqn:Hinv.
  2:{ rewrite (operational_optimazation_missing exchange _ _ _ _ _ _ Hinv) in H.
      injection H as _ <-. apply Hfail. reflexivity. }
  rewrite (operational_optimazation_all exchange _ _ _ _ _ _ _ Hinv) in H.
  cbn [optimal_ask_volume optimal_bid_volume update_ask_price update_bid_price
       ask_order_id bid_order_id update_ask_volume update_bid_volume] in H.
  apply (emits_update_quotes _ _ _ _ _ _ _ _ _ _ _ _ _ inventory
           (wanted_ask_bound _ _ Hsv) (wanted_bid_bound _ _ Hsv)) in H.
  destruct H as (new & Hs & Hnew). exists new. split; [exact Hs|].
  intros a Ha. exists inventory. split; [|auto].
  replace (clock w + 3)%nat with (clock w3) by (cbn; lia). exact Hinv.
Qed.

Lemma options_strategy_steps (option_id : string) (opt : Instrument) (stock_value : Q) :
  run_market_making_strategy_for_options lib exchange option_id opt stock_value
  = (theoretical_price <-
       lift (calculate_theoretical_option_value lib (expiry opt) (strike opt) (option_kind opt)
               stock_value (3 # 100) 3) ;;
     q <- get_quantified_data lib exchange "NVDA" opt ;;
     quote_around lib exchange option_id theoretical_price q).
Proof. reflexivity. Qed.

Lemma emits_quote_around (instrument_id : string) (theoretical_price : Q) (q : Q * Q * Q) :
  emits (quote_action instrument_id)
    (quote_around lib exchange instrument_id theoretical_price q).
Proof.
  destruct q as [[d va] vb]. intros w w' r H.
  apply quote_around_sized in H as (new & Hs & Hnew).
  exists new. split; [exact Hs|]. intros a Ha.
  destruct (Hnew a Ha) as (inventory & _ & Hq).
  destruct a; cbn in *; intuition.
Qed.

(** X16.  Every action the quoting lines of the three strategies send,
    whatever the outcome, is on the instrument quoted.  The price of a limit
    order is the one [round_down_to_tick] (for a bid) or [round_up_to_tick]
    (for an ask) returns for the theoretical price less or plus the whole
    credit, the value first given to [new_bid_price] and [new_ask_price]: the
    prices skewed for a position beyond 65 lots are compared with the resting
    orders, and never reach an order.  The volume of an insert or an
    amendment is positive and at most 45 lots more than the size of the
    inventory the reconciler read, at the fourth call to the exchange. *)
Theorem quotes_are_unskewed_and_sized (instrument_id : string) (theoretical_price : Q)
    (d va vb : Q) (w : World) (a : Action) :
  let run := quote_around lib exchange instrument_id theoretical_price (d, va, vb) w in
  In a (skipn (length (sent w)) (sent (snd run))) ->
  exists (inventory : Z) (bid_price ask_price : Q),
    positions_at exchange (clock w + 3) !! instrument_id = Some inventory /\
    round_down_to_tick (theoretical_price - optimal_credit lib d) (1 # 10)
    = Return bid_price /\
    round_up_to_tick (theoretical_price + optimal_credit lib d) (1 # 10)
    = Return ask_price /\
    sized_quote instrument_id bid_price ask_price inventory a.
Proof.
  intros run Ha. destruct run as [r w'] eqn:H. cbn [snd] in Ha.
  apply quote_around_sized in H as (new & Hs & Hnew).
  rewrite Hs, skipn_app, skipn_all, Nat.sub_diag in Ha.
  destruct (Hnew a Ha) as (inventory & Hinv & Hq).
  exists inventory, (bid_price_of theoretical_price (optimal_credit lib d) (1 # 10)),
    (ask_price_of theoretical_price (optimal_credit lib d) (1 # 10)).
  split; [exact Hinv|]. split; [reflexivity|]. split; [reflexivity|]. exact Hq.
Qed.

(** X17.  Each of the three strategies, whatever its outcome, sends only
    deletions, amendments and limit orders of positive volume, all on the
    instrument it quotes: the option, the future, or the dual listing of the
    stock (NVDA_DUAL for NVDA, SAN_DUAL for any other). *)
Theorem strategies_quote_only_their_instrument (stock_value : Q) :
  (forall option_id opt,
     emits (quote_action option_id)
       (run_market_making_strategy_for_options lib exchange option_id opt stock_value)) /\
  (forall future_id future,
     emits (quote_action future_id)
       (run_market_making_strategy_for_futures lib exchange future_id future stock_value)) /\
  (forall stock_id instrument,
     emits (quote_action (dual_listing stock_id))
       (run_market_making_strategy_for_dual lib exchange stock_id instrument stock_value)).
Proof.
  split; [|split].
  - intros option_id opt. rewrite options_strategy_steps.
    apply emits_bind; [apply silent_emits, silent_lift|]. intros theoretical_price.
    apply emits_bind; [apply silent_emits, silent_get_quantified_data|]. intros q.
    apply emits_quote_around.
  - intros future_id future. unfold run_market_making_strategy_for_futures.
    apply emits_bind; [apply silent_emits, silent_get_quantified_data|]. intros q.
    apply emits_quote_around.
  - intros stock_id instrument. unfold run_market_making_strategy_for_dual.
    apply emits_bind; [apply silent_emits, silent_get_quantified_data|]. intros q.
    apply emits_quote_around.
Qed.

End Strategies.

Lemma emits_for_each {A} (P : Action -> Prop) (l : list A) (body : A -> M unit) :
  (forall x, In x l -> emits P (body x)) -> emits P (for_each l body).
Proof.
  unfold for_each. generalize tt.
  induction l as [|x rest IH]; intros u Hbody; cbn [for_loop].
  - apply silent_emits, silent_ret.
  - apply emits_bind; [apply Hbody; left; reflexivity|].
    intros u'. apply IH. intros y Hy. apply Hbody. right. exact Hy.
Qed.

Section Loop.
Context (lib : Libs) (exchange : Exchange).

Lemma silent_get_weighted_midpoint_value (instrument_id : string) :
  silent (get_weighted_midpoint_value exchange instrument_id).
Proof.
  unfold get_weighted_midpoint_value.
  apply silent_bind; [apply silent_get_last_price_book|]. intros [book|]; [|apply silent_ret].
  destruct (bids book); [apply silent_ret|]. destruct (asks book); [apply silent_ret|].
  apply silent_bind; [apply silent_lift|]. intros m. apply silent_ret.
Qed.

Lemma emits_options_strategy (option_id : string) (opt : Instrument) (stock_value : Q) :
  emits (quote_action option_id)
    (run_market_making_strategy_for_options lib exchange option_id opt stock_value).
Proof.
  rewrite options_strategy_steps.
  apply emits_bind; [apply silent_emits, silent_lift|]. intros theoretical_price.
  apply emits_bind; [apply silent_emits, silent_get_quantified_data|]. intros q.
  apply emits_quote_around.
Qed.

Lemma emits_futures_strategy (future_id : string) (future : Instrument) (stock_value : Q) :
  emits (quote_action future_id)
    (run_market_making_strategy_for_futures lib exchange future_id future stock_value).
Proof.
  unfold run_market_making_strategy_for_futures.
  apply emits_bind; [apply silent_emits, silent_get_quantified_data|]. intros q.
  apply emits_quote_around.
Qed.

Lemma emits_dual_strategy (stock_id : string) (instrument : Instrument) (stock_value : Q) :
  emits (quote_action (dual_listing stock_id))
    (run_market_making_strategy_for_dual lib exchange stock_id instrument stock_value).
Proof.
  unfold run_market_making_strategy_for_dual.
  apply emits_bind; [apply silent_emits, silent_get_quantified_data|]. intros q.
  apply emits_quote_around.
Qed.

Lemma emits_hedge_delta_position (fuel : nat) (stock_id : string)
    (options futures : list (string * Instrument)) (stock_value : Q) :
  emits (hedge_action stock_id)
    (hedge_delta_position lib exchange fuel stock_id options futures stock_value).
Proof.
  intros w w' r H.
  destruct (hedge_delta_position_outcome lib exchange _ _ _ _ _ _ _ _ H)
    as [Hs|(_ & p & v & s & Hv & Hs)].
  - exists []. rewrite app_nil_r. split; [exact Hs|]. intros a [].
  - eexists. split; [exact Hs|]. intros a [<-|[]]. exists p, v, s. auto.
Qed.

(** X18.  One pass of the trade loop, whatever its outcome, sends only quotes
    (deletions, amendments, limit orders of positive volume) on the options
    and futures of the chains and on the two dual listings, and
    immediate-or-cancel orders of positive volume on NVDA and SAN. *)
Theorem trade_loop_actions (fuel : nat) (stock_NVDA stock_SAN : Instrument)
    (options futures : list (string * Instrument)) :
  emits (loop_action options futures)
    (trade_loop_iteration lib exchange fuel stock_NVDA stock_SAN options futures).
Proof.
  assert (Hquote : forall id a,
            In id (map fst options ++ map fst futures ++ ["NVDA_DUAL"; "SAN_DUAL"])%list ->
            quote_action id a -> loop_action options futures a).
  { intros id a Hin Hq. left. eauto. }
  unfold trade_loop_iteration.
  apply emits_bind; [apply silent_emits, silent_get_weighted_midpoint_value|].
  intros [stock_value|]; [|apply silent_emits, silent_ret].
  apply emits_bind.
  { unfold trade_NVDA.
    apply emits_bind.
    { apply emits_for_each. intros [option_id opt] Hin.
      apply (emits_weaken (quote_action option_id)); [|apply emits_options_strategy].
      intros a. apply Hquote. apply in_or_app. left.
      apply (in_map fst) in Hin. exact Hin. }
    intros _. apply emits_bind.
    { apply emits_for_each. intros [future_id future] Hin.
      apply (emits_weaken (quote_action future_id)); [|apply emits_futures_strategy].
      intros a. apply Hquote. apply in_or_app. right. apply in_or_app. left.
      apply (in_map fst) in Hin. exact Hin. }
    intros _. apply emits_bind.
    { apply (emits_weaken (quote_action "NVDA_DUAL")); [|apply (emits_dual_strategy "NVDA")].
      intros a. apply Hquote. apply in_or_app. right. apply in_or_app. right. cbn. auto. }
    intros _.
    apply (emits_weaken (hedge_action "NVDA")); [|apply emits_hedge_delta_position].
    intros a Ha. right. left. exact Ha. }
  intros _.
  apply emits_bind; [apply silent_emits, silent_get_weighted_midpoint_value|].
  intros [stock_value'|]; [|apply silent_emits, silent_ret].
  unfold trade_SAN. apply emits_bind.
  { apply (emits_weaken (quote_action "SAN_DUAL")); [|apply (emits_dual_strategy "SAN")].
    intros a. apply Hquote. apply in_or_app. right. apply in_or_app. right. cbn. auto. }
  intros _.
  apply (emits_weaken (hedge_action "SAN")); [|apply emits_hedge_delta_position].
  intros a Ha. right. right. exact Ha.
Qed.

(** X19.  When the NVDA book is missing or has an empty side at the start of
    a pass, the pass ends after that one call: nothing is quoted or hedged,
    SAN included.  When the NVDA half has run and the SAN book is then missing
    or has an empty side, the pass ends after that poll and SAN is neither
    quoted nor hedged. *)
Theorem thin_book_skips_the_pass (fuel : nat) (stock_NVDA stock_SAN : Instrument)
    (options futures : list (string * Instrument)) (w : World) :
  let pass := trade_loop_iteration lib exchange fuel stock_NVDA stock_SAN options futures in
  ((book_at exchange (clock w) "NVDA" = None \/ one_sided_at exchange "NVDA" (clock w)) ->
   pass w = (Return tt, tick w)) /\
  (forall (stock_value : Q) (w1 : World),
     get_weighted_midpoint_value exchange "NVDA" w = (Return (Some stock_value), tick w) ->
     trade_NVDA lib exchange fuel stock_NVDA options futures stock_value (tick w)
     = (Return tt, w1) ->
     (book_at exchange (clock w1) "SAN" = None \/ one_sided_at exchange "SAN" (clock w1)) ->
     pass w = (Return tt, tick w1)).
Proof.
  intros pass.
  assert (Hskip : forall id w0,
            (book_at exchange (clock w0) id = None \/ one_sided_at exchange id (clock w0)) ->
            get_weighted_midpoint_value exchange id w0 = (Return None, tick w0)).
  { intros id w0 Hbook. unfold get_weighted_midpoint_value, bind, get_last_price_book.
    cbn [fst snd].
    destruct Hbook as [-> | (book & -> & Hone)]; [reflexivity|].
    unfold one_sided in Hone.
    destruct (bids book); [reflexivity|]. destruct (asks book); [reflexivity|].
    discriminate Hone. }
  subst pass. unfold trade_loop_iteration. split.
  - intros Hbook. unfold bind at 1. rewrite (Hskip _ _ Hbook). reflexivity.
  - intros stock_value w1 Hmid Hnvda Hbook.
    unfold bind at 1. rewrite Hmid.
    unfold bind at 1. rewrite Hnvda.
    unfold bind at 1. rewrite (Hskip _ _ Hbook). reflexivity.
Qed.

End Loop.


(* ===================================================================== *)
(** * The sample market, run *)
(* ===================================================================== *)

(** Out of the order of time the scan does not keep the nearest trade: the
    assignment of line 318 (and 354) stores the signed difference.  The
    option trades at time 10; the stock trades at times 0, 15 and 11.  The
    trade at 15 is nearer than the one at 0, and [minimum] becomes the signed
    difference -5; no absolute difference is below that, so the trade at 11,
    the nearest, is passed over.  The deviation is then taken from the price at 15 (102, value 2,
    deviation 1) and not from the price at 11 (103, value 3, deviation 0). *)
Example scan_passes_over_nearest_trade :
  nearest_scan 10 Sample.unordered_stock None = Some (-5, 102%Q) /\
  nearest_first 10 Sample.unordered_stock = Some (Sample.trade 11 103 1 ask) /\
  fst (get_quantified_data Sample.libs Sample.unordered "NVDA" Sample.NVDA_call Sample.start)
  = Return (1%Q, 0%Q, 5%Q).
Proof. repeat split; vm_compute; reflexivity. Qed.

(** On a history in the order of time, the same option trade is matched
    with the trade at 11. *)
Example scan_in_order :
  nearest_scan 10 [Sample.trade 0 100 1 bid; Sample.trade 11 103 1 ask;
                   Sample.trade 15 102 1 bid] None
  = Some (-1, 103%Q).
Proof. reflexivity. Qed.

(** C2.  The first poll of the SAN book shows no bid; the call polls again,
    finds two sides and sells 40 at the best bid, all in the same call.  When
    the book never shows a bid the call is still polling after a thousand
    polls. *)
Lemma hedge_trades_after_empty_side :
  book_at Sample.thin_then_quoted 1 "SAN" = Some Sample.no_bids /\
  hedge_delta_position Sample.libs Sample.thin_then_quoted 5 "SAN" [] [] 100 Sample.start
  = (Return tt, {| clock := 4; sent := [insert_order_ "SAN" 99 40 ask ioc] |}) /\
  fst (hedge_delta_position Sample.libs Sample.never_bid 1000 "SAN" [] [] 100 Sample.start)
  = Spinning.
Proof. repeat split; vm_compute; reflexivity. Qed.

Lemma hedge_polls_until_book_has_two_sides_witness :
  hedge_delta_position Sample.libs Sample.thin_then_quoted 5 "SAN" [] [] 100 Sample.start
  = place_hedge "SAN" 1 40 30 Sample.two_sided (later (later Sample.start 1) (1 + 1)).
Proof.
  refine (proj2 (hedge_polls_until_book_has_two_sides Sample.libs Sample.thin_then_quoted
                   "SAN" 1 [] [] 100 Sample.start (later Sample.start 1) 40 30 _)
            1%nat 5%nat Sample.two_sided _ _ _).
  - right. repeat split; reflexivity.
  - lia.
  - intros j Hj. assert (j = 0%nat) as -> by lia.
    exists Sample.no_bids. split; reflexivity.
  - split; reflexivity.
Defined.


(** C4.  With no trade in the future, the estimate ends in a division by
    zero. *)
Lemma empty_history_is_a_division_by_zero :
  get_quantified_data Sample.libs Sample.quiet "NVDA" Sample.NVDA_future Sample.start
  = (Raise ZeroDivisionError, later Sample.start 2).
Proof. vm_compute. reflexivity. Qed.

Lemma empty_history_divides_by_zero_witness :
  get_quantified_data Sample.libs Sample.quiet "NVDA" Sample.NVDA_call Sample.start
  = (Raise ZeroDivisionError, later Sample.start 2).
Proof.
  apply (empty_history_divides_by_zero Sample.libs Sample.quiet "NVDA"
           Sample.NVDA_call Sample.NVDA_call []).
  reflexivity.
Defined.

(** One pass of the option strategy, in exact arithmetic: value 12, a
    credit of 1 (0.9 on binary64), 8 lots a side, and the long position of 80
    added to the ask. *)
Example option_quotes :
  run_market_making_strategy_for_options Sample.libs Sample.unordered "NVDA_C"
    Sample.NVDA_call 112 Sample.start
  = (Return tt,
     {| clock := 10;
        sent := [insert_order_ "NVDA_C" (110 # 10) 8 bid limit;
                 insert_order_ "NVDA_C" (130 # 10) 88 ask limit] |}).
Proof. vm_compute. reflexivity. Qed.

(** The capping example: limit 100, position 95, a bid of 20 wanted.  The
    prices are the exact ones (on binary64 the bid is 11.600000000000001:
    [Binary64_facts.rounding_leaves_the_exact_tick]). *)
Example quotes_near_the_limit :
  update_quotes Sample.near_limit "NVDA_C" 12 (3 # 10) 20 20 100 (1 # 10)
    true None true (Some 1) true true Sample.start
  = (Return tt,
     {| clock := 5;
        sent := [delete_order_ "NVDA_C" 1;
                 insert_order_ "NVDA_C" (117 # 10) 5 bid limit;
                 insert_order_ "NVDA_C" (123 # 10) 20 ask limit] |}).
Proof. vm_compute. reflexivity. Qed.

Lemma quotes_capped_by_position_limit_witness :
  exists (w' : World) (bid_side ask_side : list Action),
    update_quotes Sample.near_limit "NVDA_C" 12 (3 # 10) 20 20 100 (1 # 10)
      true None true (Some 1) true true Sample.start = (Return tt, w') /\
    sent w' = ([] ++ [delete_order_ "NVDA_C" 1] ++ bid_side ++ ask_side)%list /\
    (forall a, In a [delete_order_ "NVDA_C" 1] -> is_delete a = true) /\
    within_capacity "NVDA_C" bid (Some 1) 5 bid_side /\
    within_capacity "NVDA_C" ask None 195 ask_side /\
    (Z.min 20 5 <= 0 -> bid_side = []) /\
    (Z.min 20 195 <= 0 -> ask_side = []).
Proof.
  apply (quotes_capped_by_position_limit Sample.near_limit "NVDA_C" 12 (3 # 10) 20 20 100
           (1 # 10) true None true (Some 1) true true Sample.start 95); reflexivity.
Defined.

(** The self-trade example: a bid rests at 100 and keeps its price, the new
    ask would be 100 as well. *)
Lemma self_trade_guard_witness :
  exists r : reconciliation,
    operational_optimazation Sample.near_limit "NVDA_C" [Sample.resting 1 bid 100 20] 20
      100 100 Sample.start = (Return r, tick Sample.start) /\
    update_ask_price r = false /\
    submits_no_insert Sample.near_limit "NVDA_C" r ask.
Proof.
  destruct (self_trade_guard Sample.near_limit "NVDA_C" [Sample.resting 1 bid 100 20] 20
              100 100 Sample.start 95 eq_refl) as (r & Hrun & Hask & _).
  exists r. split; [exact Hrun|]. apply Hask; reflexivity.
Defined.

Lemma inventory_added_to_flattening_side_witness :
  exists r : reconciliation,
    operational_optimazation Sample.near_limit "NVDA_C" [Sample.resting 1 bid 100 20] 20
      100 100 Sample.start = (Return r, tick Sample.start) /\
    optimal_ask_volume r = 115 /\ optimal_bid_volume r = 20.
Proof.
  destruct (inventory_added_to_flattening_side Sample.near_limit "NVDA_C"
              [Sample.resting 1 bid 100 20] 20 100 100 Sample.start 95 eq_refl)
    as (r & Hrun & Hlong & _).
  exists r. split; [exact Hrun|]. apply Hlong. lia.
Defined.

Lemma hedge_reads_positions_of_last_option_witness :
  later Sample.start 1 = later Sample.start 1 /\
  exists (agg_options : Q) (dual : Z),
    for_loop (hedge_option Sample.libs Sample.quiet 100%Q) [("NVDA_C", Sample.NVDA_call)]
      (0%Q, None) Sample.start
    = (Return (agg_options, Some Sample.holdings), later Sample.start 1) /\
    Sample.holdings !! "NVDA" = Some 0 /\
    Sample.holdings !! "NVDA_DUAL" = Some dual /\
    (80 # 2)%Q = (futures_total Sample.holdings [] agg_options + inject_Z 0 + inject_Z dual)%Q.
Proof.
  apply (proj2 (hedge_reads_positions_of_last_option Sample.libs Sample.quiet)
           [("NVDA_C", Sample.NVDA_call)] [] 100%Q Sample.start (later Sample.start 1)
           (80 # 2)%Q 0).
  - discriminate.
  - reflexivity.
Defined.

(** ** Beyond the quoting example: rounding, midpoint, reconciliation *)

(** A price of 0.97 on a tick of 0.10. *)
Lemma tick_rounding_brackets_price_witness :
  exists (down up : Z),
    round_down_to_tick (97 # 100) (1 # 10) = Return (inject_Z down * (1 # 10))%Q /\
    round_up_to_tick (97 # 100) (1 # 10) = Return (inject_Z up * (1 # 10))%Q /\
    (inject_Z down * (1 # 10) <= 97 # 100)%Q /\
    (97 # 100 < inject_Z down * (1 # 10) + (1 # 10))%Q /\
    (inject_Z up * (1 # 10) - (1 # 10) < 97 # 100)%Q /\
    (97 # 100 <= inject_Z up * (1 # 10))%Q /\
    down <= up <= down + 1.
Proof.
  apply (proj2 (tick_rounding_brackets_price (97 # 100) (1 # 10))). reflexivity.
Defined.

(** 50 lots bid at 99, 50 lots offered at 101. *)
Lemma weighted_midpoint_outcomes_witness :
  exists midpoint : Q,
    get_weighted_midpoint_value Sample.quiet "NVDA" Sample.start
    = (Return (Some midpoint), tick Sample.start).
Proof.
  apply (proj2 (proj2 (proj2 (weighted_midpoint_outcomes Sample.quiet "NVDA" Sample.start))
                  Sample.two_sided (Sample.level 99 50) (Sample.level 101 50) [] []
                  eq_refl eq_refl eq_refl)).
  discriminate.
Defined.

Lemma weighted_midpoint_between_best_prices_witness :
  exists midpoint : Q,
    get_weighted_midpoint_value Sample.quiet "NVDA" Sample.start
    = (Return (Some midpoint), tick Sample.start) /\
    (99 <= midpoint)%Q /\ (midpoint <= 101)%Q.
Proof.
  apply (weighted_midpoint_between_best_prices Sample.quiet "NVDA" Sample.start
           Sample.two_sided (Sample.level 99 50) (Sample.level 101 50) [] []).
  - reflexivity.
  - reflexivity.
  - reflexivity.
  - reflexivity.
  - reflexivity.
  - discriminate.
Defined.

(** A tick size of zero: the resting bid is deleted, and the call fails. *)
Lemma update_quotes_fails_after_pulling_witness :
  fst (update_quotes Sample.near_limit "NVDA_C" 12 (3 # 10) 20 20 100 0
         true None true (Some 1) true true Sample.start) = Raise ZeroDivisionError /\
  sent (snd (update_quotes Sample.near_limit "NVDA_C" 12 (3 # 10) 20 20 100 0
               true None true (Some 1) true true Sample.start))
  = [delete_order_ "NVDA_C" 1].
Proof.
  apply (proj1 (update_quotes_fails_after_pulling Sample.near_limit "NVDA_C" 12 (3 # 10)
                  20 20 100 0 true None true (Some 1) true true Sample.start)).
  reflexivity.
Defined.

(** A credit of 1 around 12: the bid at 11, the ask at 13. *)
Lemma quotes_straddle_theoretical_price_witness :
  exists new,
    [delete_order_ "NVDA_C" 1;
     insert_order_ "NVDA_C" (110 # 10) 5 bid limit;
     insert_order_ "NVDA_C" (130 # 10) 20 ask limit] = ([] ++ new)%list /\
    forall id p v s t, In (insert_order_ id p v s t) new ->
      (s = bid -> p <= 12 - 1 /\ 12 - 1 < p + (1 # 10) /\ p <= 12)%Q /\
      (s = ask -> 12 + 1 <= p /\ p - (1 # 10) < 12 + 1 /\ 12 <= p)%Q.
Proof.
  apply (quotes_straddle_theoretical_price Sample.near_limit "NVDA_C" 12 1 20 20 100
           (1 # 10) true None true (Some 1) true true Sample.start
           {| clock := 5;
              sent := [delete_order_ "NVDA_C" 1;
                       insert_order_ "NVDA_C" (110 # 10) 5 bid limit;
                       insert_order_ "NVDA_C" (130 # 10) 20 ask limit] |}
           (Return tt)).
  - reflexivity.
  - discriminate.
  - vm_compute. reflexivity.
Defined.

(** The resting quotes are the wanted ones. *)
Lemma matching_quote_is_kept_witness :
  exists r,
    operational_optimazation Sample.quoted "NVDA_C" [Sample.resting_bid; Sample.resting_ask]
      8 11 13 Sample.start = (Return r, tick Sample.start) /\
    forall (theoretical_price credit : Q) (position_limit : Z) (tick_size : Q)
           (w1 w2 : World) (res : result unit),
      submit Sample.quoted "NVDA_C" theoretical_price credit position_limit tick_size r w1
      = (res, w2) ->
      sent w2 = sent w1.
Proof.
  apply (matching_quote_is_kept Sample.quoted "NVDA_C"
           [Sample.resting_bid; Sample.resting_ask] 8 11 13 Sample.start 0); reflexivity.
Defined.

(** Ten lots wanted where eight rest. *)
Lemma volume_change_is_amended_in_place_witness :
  exists r,
    operational_optimazation Sample.quoted "NVDA_C" [Sample.resting_bid; Sample.resting_ask]
      10 11 13 Sample.start = (Return r, tick Sample.start) /\
    sends (submit Sample.quoted "NVDA_C" 12 1 100 (1 # 10) r (tick Sample.start))
      (tick Sample.start)
      [amend_order_ "NVDA_C" (Some 7) 10; amend_order_ "NVDA_C" (Some 8) 10].
Proof.
  destruct (volume_change_is_amended_in_place Sample.quoted "NVDA_C"
              [Sample.resting_bid; Sample.resting_ask] 10 11 13 Sample.start 0
              eq_refl eq_refl eq_refl eq_refl eq_refl) as (r & Hrun & Hsubmit).
  exists r. split; [exact Hrun|].
  apply (Hsubmit 12%Q 1%Q 100 (1 # 10)%Q (tick Sample.start) 0).
  - discriminate.
  - reflexivity.
Defined.

(** A first quote of 8 lots a side around 12, with a credit of 1. *)
Lemma first_quote_is_inserted_on_each_side_witness :
  exists r,
    operational_optimazation Sample.quoted "NVDA_C" [] 8 11 13 Sample.start
    = (Return r, tick Sample.start) /\
    exists bid_price ask_price : Q,
      round_down_to_tick (12 - 1) (1 # 10) = Return bid_price /\
      round_up_to_tick (12 + 1) (1 # 10) = Return ask_price /\
      sends (submit Sample.quoted "NVDA_C" 12 1 100 (1 # 10) r (tick Sample.start))
        (tick Sample.start)
        [insert_order_ "NVDA_C" bid_price 8 bid limit;
         insert_order_ "NVDA_C" ask_price 8 ask limit].
Proof.
  destruct (first_quote_is_inserted_on_each_side Sample.quoted "NVDA_C" 8 11 13
              Sample.start 0 eq_refl) as (r & Hrun & Hsubmit).
  exists r. split; [exact Hrun|].
  apply (Hsubmit 12%Q 1%Q 100 (1 # 10)%Q (tick Sample.start) 0).
  - discriminate.
  - reflexivity.
Defined.

(** The quotes move from 11 and 13 to 10 and 14. *)
Lemma repricing_cancels_then_replaces_witness :
  exists r,
    operational_optimazation Sample.quoted "NVDA_C" [Sample.resting_bid; Sample.resting_ask]
      8 10 14 Sample.start = (Return r, tick Sample.start) /\
    exists bid_price ask_price : Q,
      round_down_to_tick (12 - 2) (1 # 10) = Return bid_price /\
      round_up_to_tick (12 + 2) (1 # 10) = Return ask_price /\
      sends (submit Sample.quoted "NVDA_C" 12 2 100 (1 # 10) r (tick Sample.start))
        (tick Sample.start)
        [delete_order_ "NVDA_C" 7;
         delete_order_ "NVDA_C" 8;
         insert_order_ "NVDA_C" bid_price 8 bid limit;
         insert_order_ "NVDA_C" ask_price 8 ask limit].
Proof.
  destruct (repricing_cancels_then_replaces Sample.quoted "NVDA_C"
              Sample.resting_bid Sample.resting_ask 8 10 14 Sample.start 0
              eq_refl eq_refl eq_refl) as (r & Hrun & Hsubmit).
  - discriminate.
  - discriminate.
  - exists r. split; [exact Hrun|].
    apply (Hsubmit 12%Q 2%Q 100 (1 # 10)%Q (tick Sample.start) 0 7 8).
    + discriminate.
    + reflexivity.
    + reflexivity.
Defined.

(** ** Hedging *)

(** A stock the hedge has no branch for. *)
Lemma hedge_is_at_most_one_ioc_order_witness :
  hedge_delta_position Sample.libs Sample.quiet 0 "ASML" [] [] 100 Sample.start
  = (Return tt, Sample.start).
Proof.
  apply (proj2 (hedge_is_at_most_one_ioc_order Sample.libs Sample.quiet 0 "ASML" [] [] 100
                  Sample.start)); discriminate.
Defined.

(** The aggregate of 40 is sold: the stock position goes from 0 to -40. *)
Lemma hedge_stays_within_limit_and_delta_witness :
  exists p v,
    (insert_order_ "NVDA" 99 40 ask ioc = insert_order_ "NVDA" p v ask ioc /\
     (35 < 80 # 2)%Q /\ - 100 <= 0 - v /\ (inject_Z v <= (80 # 2) + (1 # 2))%Q) \/
    (insert_order_ "NVDA" 99 40 ask ioc = insert_order_ "NVDA" p v bid ioc /\
     (80 # 2 < - 35)%Q /\ 0 + v <= 100 /\ (inject_Z v <= - (80 # 2) + (1 # 2))%Q).
Proof.
  apply (hedge_stays_within_limit_and_delta Sample.libs Sample.quiet 3 "NVDA" 35
           [("NVDA_C", Sample.NVDA_call)] [] 100 Sample.start (later Sample.start 1)
           (80 # 2) 0 (insert_order_ "NVDA" 99 40 ask ioc)).
  - left. repeat split; reflexivity.
  - left. reflexivity.
Defined.

(** The future, listed among the options, has no option kind. *)
Lemma hedge_fails_on_unsupported_kind_witness :
  exists e w',
    hedge_delta_position Sample.libs Sample.quiet 3 "NVDA"
      [("NVDA_C", Sample.NVDA_call); ("NVDA_F", Sample.NVDA_future)] [] 100 Sample.start
    = (Raise e, w') /\
    sent w' = sent Sample.start /\ (clock w' <= clock Sample.start + 2)%nat.
Proof.
  apply (hedge_fails_on_unsupported_kind Sample.libs Sample.quiet 3
           [("NVDA_C", Sample.NVDA_call); ("NVDA_F", Sample.NVDA_future)] [] 100
           Sample.start).
  exists ("NVDA_F", Sample.NVDA_future), "None". split; [right; left; reflexivity|reflexivity].
Defined.

(** ** The deviation estimate *)


(** The option trades at 3 when the stock last traded at 103: no deviation. *)
Lemma deviation_estimate_on_chronological_history_witness :
  get_quantified_data Sample.libs Sample.ordered "NVDA" Sample.NVDA_call Sample.start
  = (Return ((0 / len [Sample.trade 10 3 5 bid])%Q,
             (inject_Z 0 / len [Sample.trade 10 3 5 bid])%Q,
             (inject_Z 5 / len [Sample.trade 10 3 5 bid])%Q), later Sample.start 2).
Proof.
  apply (deviation_estimate_on_chronological_history Sample.libs Sample.ordered "NVDA"
           Sample.NVDA_call Sample.NVDA_call [Sample.trade 10 3 5 bid]
           (Sample.ordered_history "NVDA") Sample.start (later Sample.start 2) 0).
  - reflexivity.
  - discriminate.
  - discriminate.
  - cbn. repeat split; intros t Ht; repeat (destruct Ht as [<-|Ht]; [cbn; lia|]);
      destruct Ht.
  - reflexivity.
Defined.

Lemma deviation_estimate_is_not_negative_witness :
  sent (later Sample.start 2) = sent Sample.start /\
  forall d va vb, Return (1%Q, 0%Q, 5%Q) = Return (d, va, vb) -> (0 <= d)%Q.
Proof.
  apply (deviation_estimate_is_not_negative Sample.libs Sample.unordered "NVDA"
           Sample.NVDA_call Sample.start (later Sample.start 2) (Return (1%Q, 0%Q, 5%Q))).
  vm_compute. reflexivity.
Defined.

Lemma trade_without_underlying_trade_fails_witness :
  get_quantified_data Sample.libs Sample.untraded_stock "NVDA" Sample.NVDA_call Sample.start
  = (Raise (UnboundLocalError "traded_price_underlying"), later Sample.start 2).
Proof.
  apply (trade_without_underlying_trade_fails Sample.libs Sample.untraded_stock "NVDA"
           Sample.NVDA_call Sample.NVDA_call [Sample.trade 10 3 5 bid] Sample.start
           (later Sample.start 2)).
  - reflexivity.
  - discriminate.
Defined.

(** ** The strategies and the trade loop *)

(** No deviation, so no credit: the bid at 12.0 for 8 lots, with 80 lots
    held. *)
Lemma quotes_are_unskewed_and_sized_witness :
  exists (inventory : Z) (bid_price ask_price : Q),
    Sample.holdings !! "NVDA_C" = Some inventory /\
    round_down_to_tick (12 - optimal_credit Sample.libs 0) (1 # 10) = Return bid_price /\
    round_up_to_tick (12 + optimal_credit Sample.libs 0) (1 # 10) = Return ask_price /\
    sized_quote "NVDA_C" bid_price ask_price inventory
      (insert_order_ "NVDA_C" (120 # 10) 8 bid limit).
Proof.
  apply (quotes_are_unskewed_and_sized Sample.libs Sample.unordered "NVDA_C" 12 0 0 5
           (later Sample.start 2) (insert_order_ "NVDA_C" (120 # 10) 8 bid limit)).
  left. reflexivity.
Defined.

(** The quoting example again: both orders are quotes on the option. *)
Lemma strategies_quote_only_their_instrument_witness :
  exists new,
    [insert_order_ "NVDA_C" (110 # 10) 8 bid limit;
     insert_order_ "NVDA_C" (130 # 10) 88 ask limit] = ([] ++ new)%list /\
    forall a, In a new -> quote_action "NVDA_C" a.
Proof.
  apply (proj1 (strategies_quote_only_their_instrument Sample.libs Sample.unordered 112)
           "NVDA_C" Sample.NVDA_call Sample.start
           {| clock := 10;
              sent := [insert_order_ "NVDA_C" (110 # 10) 8 bid limit;
                       insert_order_ "NVDA_C" (130 # 10) 88 ask limit] |}
           (Return tt)).
  vm_compute. reflexivity.
Defined.

(** A pass over the option and the future. *)
Lemma trade_loop_actions_witness :
  exists new,
    sent (snd (trade_loop_iteration Sample.libs Sample.unordered 3 Sample.NVDA_call
                 Sample.NVDA_call [("NVDA_C", Sample.NVDA_call)]
                 [("NVDA_F", Sample.NVDA_future)] Sample.start))
    = (sent Sample.start ++ new)%list /\
    forall a, In a new ->
      loop_action [("NVDA_C", Sample.NVDA_call)] [("NVDA_F", Sample.NVDA_future)] a.
Proof.
  apply (trade_loop_actions Sample.libs Sample.unordered 3 Sample.NVDA_call
           Sample.NVDA_call [("NVDA_C", Sample.NVDA_call)] [("NVDA_F", Sample.NVDA_future)]
           Sample.start _ (fst (trade_loop_iteration Sample.libs Sample.unordered 3
                                  Sample.NVDA_call Sample.NVDA_call
                                  [("NVDA_C", Sample.NVDA_call)]
                                  [("NVDA_F", Sample.NVDA_future)] Sample.start))).
  apply surjective_pairing.
Defined.

(** The NVDA book never has a bid: the pass ends at the first call. *)
Lemma thin_book_skips_the_pass_witness :
  trade_loop_iteration Sample.libs Sample.never_bid 3 Sample.NVDA_call Sample.NVDA_call
    [("NVDA_C", Sample.NVDA_call)] [] Sample.start
  = (Return tt, tick Sample.start).
Proof.
  apply (proj1 (thin_book_skips_the_pass Sample.libs Sample.never_bid 3 Sample.NVDA_call
                  Sample.NVDA_call [("NVDA_C", Sample.NVDA_call)] [] Sample.start)).
  right. exists Sample.no_bids. split; reflexivity.
Defined.

(** ** The credit on binary64 floats *)

Module Binary64_facts.

Import Floats.

(** C8.  On the floats of the source the credit and [round_down_to_tick]
    differ by a tick at a mean squared deviation of 1: [1.0 % 0.1] is
    0.09999999999999995 and the credit 0.9, while [1.0 / 0.1] is 10.0 and
    [round_down_to_tick(1.0, 0.1)] is 1.0. *)
Lemma credit_differs_on_binary64 :
  Binary64.float_mod 1 Binary64.tick = 0x1.9999999999996p-4%float /\
  Binary64.optimal_credit 1 = 0x1.ccccccccccccdp-1%float /\
  Binary64.round_down_to_tick (PrimFloat.sqrt 1) Binary64.tick = Some 1%float /\
  Some (Binary64.optimal_credit 1)
  <> Binary64.round_down_to_tick (PrimFloat.sqrt 1) Binary64.tick.
Proof.
  split; [vm_compute; reflexivity|].
  split; [vm_compute; reflexivity|]. split; [vm_compute; reflexivity|].
  intros H. apply (f_equal (option_map Prim2SF)) in H.
  vm_compute in H. discriminate H.
Qed.

(** The same at a mean squared deviation of 0.25: a credit of 0.4 against
    0.5.  At 0.1225 (a deviation of 0.35) the two agree. *)
Example credit_at_a_quarter :
  Binary64.optimal_credit 0.25 = 0x1.999999999999ap-2%float /\
  Binary64.round_down_to_tick (PrimFloat.sqrt 0.25) Binary64.tick = Some 0.5%float /\
  Some (Binary64.optimal_credit 0x1.f5c28f5c28f5cp-4)
  = Binary64.round_down_to_tick (PrimFloat.sqrt 0x1.f5c28f5c28f5cp-4) Binary64.tick.
Proof. repeat split; vm_compute; reflexivity. Qed.

(** The docstring example of [round_down_to_tick]: 0.97 goes to 0.9. *)
Example round_down_097 :
  Binary64.round_down_to_tick 0x1.f0a3d70a3d70ap-1 Binary64.tick
  = Some 0x1.ccccccccccccdp-1%float.
Proof. vm_compute. reflexivity. Qed.

(** Where the floats leave the exact results.  [round_down_to_tick(1.7, 0.1)]
    is 1.7000000000000002, above the price; [12 - 0.3] is 11.699999999999999
    and is rounded down to 11.600000000000001, a tick below the exact 11.7;
    [0.1 + 0.2] is rounded up to 0.4, a tick above the exact 0.3. *)
Example rounding_leaves_the_exact_tick :
  Binary64.round_down_to_tick 0x1.b333333333333p+0 Binary64.tick
  = Some 0x1.b333333333334p+0%float /\
  PrimFloat.ltb 0x1.b333333333333p+0 0x1.b333333333334p+0 = true /\
  Binary64.round_down_to_tick (12 - 0x1.3333333333333p-2) Binary64.tick
  = Some 0x1.7333333333334p+3%float /\
  Binary64.round_up_to_tick (Binary64.tick + 0x1.999999999999ap-3) Binary64.tick
  = Some 0x1.999999999999ap-2%float.
Proof. repeat split; vm_compute; reflexivity. Qed.

(** With one lot bid and two offered, both at 0.1, the midpoint on floats is
    0.10000000000000002, above the best ask. *)
Example midpoint_leaves_the_best_prices :
  Binary64.weighted_midpoint Binary64.tick 1 Binary64.tick 2
  = Some 0x1.999999999999bp-4%float /\
  PrimFloat.ltb Binary64.tick 0x1.999999999999bp-4 = true.
Proof. split; vm_compute; reflexivity. Qed.

End Binary64_facts.
